(** * Polymarket aggregator: slug date anchors, fetching and trade metrics

    A shallow embedding of [src/main.py], and what holds of it.

    Part I gives the definitions: one module per block of the source
    ([Slug], [Fetch], [Paginate], [Metrics], [Aggregate]), each followed by
    a module of the notions its statements need ([SlugSpec], ...). Part II
    gives the theorems, module by module.

    Conventions of the embedding.
    - A Python [str] is a [string]; its characters are the code points below
      256, on which the regular-expression class [\d] is exactly [0-9].
    - Python numbers ([int], [float]) are exact rationals [Q]; the special
      floats (infinities, NaN) and binary rounding are outside the model.
    - A response of the network is a [json] value, with the dynamic checks
      the code makes on it. A market and a trade handed to the metrics and
      to the aggregation are records with the field types of the data
      model; a field may be absent.
    - A Python exception is an [exn]; code that may raise returns a
      [result]. The network is a function of the request and of the number
      of requests sent before; a [while True] loop runs on fuel. *)

From Stdlib Require Import List String Ascii Bool Arith ZArith QArith Qround Qabs Lia.
From Stdlib Require Import DecimalString.
Import ListNotations.

Local Open Scope string_scope.
Local Open Scope list_scope.

(* ================================================================== *)
(** * Part I: definitions                                              *)
(* ================================================================== *)

(** ** Exceptions *)

Inductive exn_class : Type :=
| ZeroDivisionError
| TypeError
| AttributeError
| ValueError
| RuntimeError
| RequestException.

(** An exception object: its class and [str(e)]. *)
Record exn : Type := Exn { exn_class_of : exn_class; exn_str : string }.

Inductive result (A : Type) : Type :=
| Ok (a : A)
| Raise (e : exn).
Arguments Ok {A} a.
Arguments Raise {A} e.

Definition bind {A B : Type} (r : result A) (k : A -> result B) : result B :=
  match r with
  | Ok a => k a
  | Raise e => Raise e
  end.

Notation "x <- r ;; k" := (bind r (fun x => k))
  (at level 61, r at next level, right associativity).

(** ** Strings: [str.split], [str.join] *)

Module Slug.

Definition hyphen : ascii := "-"%char.
Definition line_feed : ascii := "010"%char.

(** [s.split(sep)] for a one-character separator: never empty, and the
    empty string splits into one empty token. *)
Fixpoint split (sep : ascii) (s : string) : list string :=
  match s with
  | EmptyString => [EmptyString]
  | String c r =>
      if Ascii.eqb c sep then EmptyString :: split sep r
      else match split sep r with
           | [] => [String c EmptyString]
           | t :: ts => String c t :: ts
           end
  end.

(** [sep.join(parts)]. *)
Fixpoint join (sep : string) (parts : list string) : string :=
  match parts with
  | [] => EmptyString
  | [t] => t
  | t :: ts => t ++ sep ++ join sep ts
  end.

(** ** The regular expressions of the date anchor

    Only the operators the four patterns use. [\d{n}] is [Rep n Digit]. *)

Inductive regex : Type :=
| Eps
| Lit (c : ascii)
| Range (lo hi : ascii)
| Digit
| Seq (r1 r2 : regex)
| Alt (r1 r2 : regex).

Fixpoint Rep (n : nat) (r : regex) : regex :=
  match n with
  | O => Eps
  | S m => Seq r (Rep m r)
  end.

Definition in_range (lo hi c : ascii) : bool :=
  (nat_of_ascii lo <=? nat_of_ascii c)%nat && (nat_of_ascii c <=? nat_of_ascii hi)%nat.

Definition is_digit (c : ascii) : bool := in_range "0" "9" c.

(** All the ways [r] matches a prefix of [s]: the list of what is left. *)
Fixpoint residuals (r : regex) (s : string) : list string :=
  match r with
  | Eps => [s]
  | Lit c =>
      match s with
      | String d rest => if Ascii.eqb d c then [rest] else []
      | EmptyString => []
      end
  | Range lo hi =>
      match s with
      | String d rest => if in_range lo hi d then [rest] else []
      | EmptyString => []
      end
  | Digit =>
      match s with
      | String d rest => if is_digit d then [rest] else []
      | EmptyString => []
      end
  | Seq r1 r2 => flat_map (residuals r2) (residuals r1 s)
  | Alt r1 r2 => residuals r1 s ++ residuals r2 s
  end.

(** Python's [$] (no MULTILINE flag): the end of the string, or just before
    a line feed that is the last character. *)
Definition at_dollar (rest : string) : bool :=
  match rest with
  | EmptyString => true
  | String c EmptyString => Ascii.eqb c line_feed
  | _ => false
  end.

(** [re.compile("^" r "$").match(s)] as a truth value. *)
Definition re_match (r : regex) (s : string) : bool :=
  existsb at_dollar (residuals r s).

Definition ONE_TOKEN_DATE_RE : regex :=
  Seq (Rep 4 Digit) (Seq (Lit "-") (Seq (Rep 2 Digit) (Seq (Lit "-") (Rep 2 Digit)))).
Definition YEAR_RE : regex := Rep 4 Digit.
Definition MONTH_RE : regex :=
  Alt (Seq (Lit "0") (Range "1" "9")) (Seq (Lit "1") (Range "0" "2")).
Definition DAY_RE : regex :=
  Alt (Seq (Lit "0") (Range "1" "9"))
      (Alt (Seq (Range "1" "2") Digit) (Seq (Lit "3") (Range "0" "1"))).

(** ** [_find_last_date_span] *)

(** The test of the second [if] of the loop body at index [i]. *)
Definition three_token_date (parts : list string) (i : nat) : bool :=
  (i + 2 <? List.length parts)%nat
  && re_match YEAR_RE (nth i parts "")
  && re_match MONTH_RE (nth (i + 1) parts "")
  && re_match DAY_RE (nth (i + 2) parts "").

(** One iteration of [for i, p in enumerate(parts)]. *)
Definition span_step (parts : list string) (last_span : option (nat * nat))
    (ip : nat * string) : option (nat * nat) :=
  let (i, p) := ip in
  let last_span := if re_match ONE_TOKEN_DATE_RE p then Some (i, i) else last_span in
  if three_token_date parts i then Some (i, i + 2)%nat else last_span.

Definition enumerate {A : Type} (l : list A) : list (nat * A) :=
  combine (seq 0 (List.length l)) l.

Definition _find_last_date_span (parts : list string) : option (nat * nat) :=
  fold_left (span_step parts) (enumerate parts) None.

(** ** [base_slug] *)

Definition base_slug (slug : string) : string :=
  match slug with
  | EmptyString => ""
  | _ =>
      let parts := split hyphen slug in
      match _find_last_date_span parts with
      | Some (_, e) => join "-" (firstn (e + 1) parts)
      | None => slug
      end
  end.

(** [event_url]; [POLY_BASE] is the site root. *)
Definition POLY_BASE : string := "https://polymarket.com".
Definition event_url (bslug : string) : string :=
  match bslug with
  | EmptyString => ""
  | _ => POLY_BASE ++ "/event/" ++ bslug
  end.

End Slug.

(** ** The date anchor as the specification words it *)

Module SlugSpec.
Import Slug.

Definition four_digits (t : string) : bool :=
  match t with
  | String a (String b (String c (String d EmptyString))) =>
      is_digit a && is_digit b && is_digit c && is_digit d
  | _ => false
  end.

Definition two_digits_between (lo hi : nat) (t : string) : bool :=
  match t with
  | String a (String b EmptyString) =>
      is_digit a && is_digit b
      && let v := ((nat_of_ascii a - 48) * 10 + (nat_of_ascii b - 48))%nat in
         (lo <=? v)%nat && (v <=? hi)%nat
  | _ => false
  end.

Definition month_token : string -> bool := two_digits_between 1 12.
Definition day_token : string -> bool := two_digits_between 1 31.

(** A single token [YYYY-MM-DD]. *)
Definition compact_date (t : string) : bool :=
  match t with
  | String y1 (String y2 (String y3 (String y4 (String h1
      (String m1 (String m2 (String h2 (String d1 (String d2 EmptyString))))))))) =>
      is_digit y1 && is_digit y2 && is_digit y3 && is_digit y4
      && Ascii.eqb h1 hyphen && is_digit m1 && is_digit m2
      && Ascii.eqb h2 hyphen && is_digit d1 && is_digit d2
  | _ => false
  end.

(** [date_span parts i j]: tokens [i..j] of [parts] are a date span. *)
Definition date_span (parts : list string) (i j : nat) : Prop :=
  (j = i /\ (i < List.length parts)%nat /\ compact_date (nth i parts "") = true)
  \/ (j = (i + 2)%nat /\ (i + 2 < List.length parts)%nat
      /\ four_digits (nth i parts "") = true
      /\ month_token (nth (i + 1) parts "") = true
      /\ day_token (nth (i + 2) parts "") = true).

(** The rightmost span: no span starts further right. *)
Definition last_date_span (parts : list string) (i j : nat) : Prop :=
  date_span parts i j /\ forall i' j', date_span parts i' j' -> (i' <= i)%nat.

Fixpoint no_line_feed (s : string) : bool :=
  match s with
  | EmptyString => true
  | String c r => negb (Ascii.eqb c line_feed) && no_line_feed r
  end.

Fixpoint no_char (x : ascii) (s : string) : bool :=
  match s with
  | EmptyString => true
  | String c r => negb (Ascii.eqb c x) && no_char x r
  end.

(** Is there a date span that starts at token [i]? *)
Definition span_at (parts : list string) (i : nat) : bool :=
  (i <? List.length parts)%nat && compact_date (nth i parts "")
  || (i + 2 <? List.length parts)%nat
     && four_digits (nth i parts "")
     && month_token (nth (i + 1) parts "")
     && day_token (nth (i + 2) parts "").

Definition has_date_span (parts : list string) : bool :=
  existsb (span_at parts) (seq 0 (List.length parts)).

(** What the loop body of [_find_last_date_span] records at index [i]. *)
Definition hit (parts : list string) (i : nat) : option (nat * nat) :=
  if three_token_date parts i then Some (i, i + 2)%nat
  else if re_match ONE_TOKEN_DATE_RE (nth i parts "") then Some (i, i)
  else None.

(** The loop over the indices [a .. a + n - 1]. *)
Fixpoint scan_from (parts : list string) (a n : nat) (acc : option (nat * nat))
  : option (nat * nat) :=
  match n with
  | O => acc
  | S m =>
      scan_from parts (S a) m
        match hit parts a with Some s => Some s | None => acc end
  end.

(** No three-token date of [parts ++ sfx] ends inside [sfx]. *)
Definition completes_no_date (parts sfx : list string) : bool :=
  forallb (fun i => (i + 2 <? List.length parts)%nat
                    || negb (three_token_date (parts ++ sfx) i))
    (seq 0 (List.length (parts ++ sfx))).

(** A slug whose day token ends in a line feed. *)
Definition line_feed_slug : string := "a-2025-06-01" ++ String line_feed "-b".

End SlugSpec.

(** ** JSON values as Python objects *)

#[local] Set Warnings "-register-all".

Inductive json : Type :=
| JNull
| JBool (b : bool)
| JNum (q : Q)
| JStr (s : string)
| JArr (items : list json)
| JObj (fields : list (string * json)).

Module Py.

(** Truth value of an object ([if x], [not x], [x or y]). *)
Definition truthy (v : json) : bool :=
  match v with
  | JNull => false
  | JBool b => b
  | JNum q => negb (Qeq_bool q 0)
  | JStr s => negb (String.eqb s "")
  | JArr items => match items with [] => false | _ => true end
  | JObj fields => match fields with [] => false | _ => true end
  end.

Fixpoint lookup (k : string) (fields : list (string * json)) : option json :=
  match fields with
  | [] => None
  | (k', v) :: rest => if String.eqb k' k then Some v else lookup k rest
  end.

Definition isinstance_dict (v : json) : bool :=
  match v with JObj _ => true | _ => false end.

Definition isinstance_list (v : json) : bool :=
  match v with JArr _ => true | _ => false end.

(** [type(v).__name__]; a number without a fractional part is taken to be
    an [int]. *)
Definition type_name (v : json) : string :=
  match v with
  | JNull => "NoneType"
  | JBool _ => "bool"
  | JNum q => if Pos.eqb (Qden (Qred q)) 1 then "int" else "float"
  | JStr _ => "str"
  | JArr _ => "list"
  | JObj _ => "dict"
  end.

(** [v.get(k, default)]; only a dict has the method. *)
Definition get (v : json) (k : string) (default : json) : result json :=
  match v with
  | JObj fields =>
      Ok match lookup k fields with Some x => x | None => default end
  | _ =>
      Raise (Exn AttributeError
               ("'" ++ type_name v ++ "' object has no attribute 'get'"))
  end.

(** [isinstance(v, (int, float))] with the number it then denotes; [bool]
    is a subclass of [int], [True] is 1 and [False] is 0. *)
Definition as_number (v : json) : option Q :=
  match v with
  | JNum q => Some q
  | JBool true => Some 1%Q
  | JBool false => Some 0%Q
  | _ => None
  end.

Definition chars (s : string) : list json :=
  map (fun c => JStr (String c EmptyString)) (list_ascii_of_string s).

(** [for t in v]: the items visited, or the [TypeError] of a value that is
    not iterable. A string yields its characters, a dict its keys. *)
Definition iter (v : json) : result (list json) :=
  match v with
  | JArr items => Ok items
  | JStr s => Ok (chars s)
  | JObj fields => Ok (map (fun kv => JStr (fst kv)) fields)
  | _ => Raise (Exn TypeError ("'" ++ type_name v ++ "' object is not iterable"))
  end.

(** [len(v)]. *)
Definition len (v : json) : result nat :=
  match v with
  | JArr items => Ok (List.length items)
  | JStr s => Ok (String.length s)
  | JObj fields => Ok (List.length fields)
  | _ => Raise (Exn TypeError ("object of type '" ++ type_name v ++ "' has no len()"))
  end.

Definition lower_char (c : ascii) : ascii :=
  let n := nat_of_ascii c in
  if ((65 <=? n) && (n <=? 90)
      || (192 <=? n) && (n <=? 222) && negb (n =? 215))%nat
  then ascii_of_nat (n + 32) else c.

(** [s.lower()]. *)
Fixpoint lower (s : string) : string :=
  match s with
  | EmptyString => EmptyString
  | String c r => String (lower_char c) (lower r)
  end.

(** [needle in hay] on strings. *)
Fixpoint contains (needle hay : string) : bool :=
  String.prefix needle hay
  || match hay with
     | EmptyString => false
     | String _ r => contains needle r
     end.

Definition str_of_Z (z : Z) : string := NilZero.string_of_int (Z.to_int z).
Definition str_of_nat (n : nat) : string := str_of_Z (Z.of_nat n).

(** [int(x)] of a finite number: truncation toward zero. *)
Definition int (q : Q) : Z := Z.quot (Qnum q) (Zpos (Qden q)).

(** [round(x)]: to the nearest integer, a tie to the even one. *)
Definition round_half_even (q : Q) : Z :=
  let f := Qfloor q in
  match Qcompare (q - inject_Z f) (1 # 2) with
  | Lt => f
  | Gt => (f + 1)%Z
  | Eq => if Z.even f then f else (f + 1)%Z
  end.

(** [round(x, 6)]. *)
Definition round6 (q : Q) : Q :=
  Qred (inject_Z (round_half_even (q * inject_Z 1000000)) / inject_Z 1000000).

(** [a / b]. *)
Definition div (a b : Q) : result Q :=
  if Qeq_bool b 0 then Raise (Exn ZeroDivisionError "division by zero")
  else Ok (a / b)%Q.

End Py.

(** ** Configuration *)

Definition GAMMA_BASE : string := "https://gamma-api.polymarket.com".
Definition DATA_BASE : string := "https://data-api.polymarket.com".
Definition URL_TAGS : string := GAMMA_BASE ++ "/tags".
Definition URL_MARKETS : string := GAMMA_BASE ++ "/markets".
Definition URL_TRADES : string := DATA_BASE ++ "/trades".

Definition GAMMA_LIMIT : nat := 250.
Definition DATA_LIMIT : Z := 250.
Definition TIMEOUT : Z := 20.
Definition MAX_RETRIES : nat := 5.
Definition BACKOFF : Q := 18 # 10.

(** [START_TS]: the epoch second of [START_ISO], 2025-01-01T00:00:00Z;
    [None] stands for the full history. *)
Definition START_TS : option Z := Some 1735689600%Z.

(** ** The HTTP transport and [_get_json] *)

Module Fetch.

(** What the code reads of a [requests.Response]: the status, the text,
    what [r.json()] returns or raises, and what [r.raise_for_status()]
    raises, if anything. *)
Record response : Type := Response {
  status_code : Z;
  text : string;
  json_body : result json;
  raise_for_status : option exn
}.

(** [requests.get] returns a response or raises. *)
Inductive http_outcome : Type :=
| Answered (r : response)
| Failed (e : exn).

Record request : Type := Request {
  url : string;
  params : list (string * json)
}.

(** The network: the outcome of the [k]-th request of the run. *)
Definition transport : Type := request -> nat -> http_outcome.

(** What is observable of a run: the requests sent and the pauses taken,
    latest first. *)
Record world : Type := World {
  requests_made : nat;
  slept : list Q
}.

Definition sent (w : world) : world :=
  World (S (requests_made w)) (slept w).
Definition sleep (seconds : Q) (w : world) : world :=
  World (requests_made w) (seconds :: slept w).

Definition retryable_status (st : Z) : bool :=
  existsb (Z.eqb st) [408; 429; 500; 502; 503; 504]%Z.

Definition is_2xx (st : Z) : bool := ((200 <=? st) && (st <? 300))%Z.

(** How the body of the [try] ends. *)
Inductive attempt_end : Type :=
| Returned (v : json)
| Caught (e : exn)
| FellThrough.

Definition attempt (o : http_outcome) : attempt_end :=
  match o with
  | Failed e => Caught e
  | Answered r =>
      if is_2xx (status_code r) then
        match json_body r with
        | Ok v => Returned v
        | Raise e => Caught e
        end
      else if retryable_status (status_code r) then
        Caught (Exn RuntimeError
                  ("HTTP " ++ Py.str_of_Z (status_code r) ++ ": "
                   ++ substring 0 240 (text r)))
      else
        match raise_for_status r with
        | Some e => Caught e
        | None => FellThrough
        end
  end.

Definition str_of_error (last_error : option exn) : string :=
  match last_error with
  | Some e => exn_str e
  | None => "None"
  end.

(** The terminal failure of [_get_json]. *)
Definition get_failed (last_error : option exn) : exn :=
  Exn RuntimeError
    ("GET failed after " ++ Py.str_of_nat MAX_RETRIES ++ " attempts: "
     ++ str_of_error last_error).

(** [for attempt in range(1, MAX_RETRIES + 1)], on the attempts left. *)
Fixpoint get_json_loop (net : transport) (req : request) (attempts : list nat)
    (last_error : option exn) (w : world) : result json * world :=
  match attempts with
  | [] => (Raise (get_failed last_error), w)
  | k :: rest =>
      let o := net req (requests_made w) in
      let w := sent w in
      match attempt o with
      | Returned v => (Ok v, w)
      | Caught e =>
          get_json_loop net req rest (Some e)
            (sleep (BACKOFF ^ (Z.of_nat (k - 1))) w)
      | FellThrough => get_json_loop net req rest last_error w
      end
  end.

Definition _get_json (net : transport) (url : string)
    (params : list (string * json)) (w : world) : result json * world :=
  get_json_loop net (Request url params) (seq 1 MAX_RETRIES) None w.

(** The error an attempt leaves in [last_error], if it raises. *)
Definition observed_error (o : http_outcome) : option exn :=
  match attempt o with
  | Caught e => Some e
  | _ => None
  end.

Definition attempt_fails (o : http_outcome) : bool :=
  match attempt o with
  | Returned _ => false
  | _ => true
  end.

(** The latest error among the outcomes of requests [k0 .. k0 + n - 1]. *)
Fixpoint last_observed (net : transport) (req : request) (k0 n : nat)
    (before : option exn) : option exn :=
  match n with
  | O => before
  | S m =>
      last_observed net req (S k0) m
        match observed_error (net req k0) with
        | Some e => Some e
        | None => before
        end
  end.

End Fetch.


Module FetchSpec.
Import Fetch.
(** A network that answers every request with a 404. *)
Definition not_found : transport :=
  fun _ _ =>
    Answered (Response 404 "Not Found"
                (Raise (Exn ValueError "Expecting value"))
                (Some (Exn RequestException "404 Client Error: Not Found"))).

(** A failed attempt, said of the outcome of the request alone: the
    request raises, or it is answered with a status outside 2xx, or with a
    status in 2xx and a body that does not decode. *)
Definition fails (o : http_outcome) : Prop :=
  match o with
  | Failed _ => True
  | Answered r =>
      (status_code r < 200)%Z \/ (300 <= status_code r)%Z
      \/ exists e, json_body r = Raise e
  end.

(** The error that a failed attempt leaves to be observed, said of the
    outcome of the request alone: the error of the request; on one of the
    six retryable statuses a [RuntimeError] that names the status and the
    first 240 characters of the text; on another status outside 2xx what
    [raise_for_status] raises, if it raises; on a status in 2xx the error
    of the decoder. *)
Definition error_raised (o : http_outcome) : option exn :=
  match o with
  | Failed e => Some e
  | Answered r =>
      let st := status_code r in
      if ((st =? 408) || (st =? 429) || (st =? 500)
          || (st =? 502) || (st =? 503) || (st =? 504))%Z
      then Some (Exn RuntimeError
                   ("HTTP " ++ Py.str_of_Z st ++ ": " ++ substring 0 240 (text r)))
      else if ((st <? 200) || (300 <=? st))%Z then raise_for_status r
      else match json_body r with
           | Raise e => Some e
           | Ok _ => None
           end
  end.

(** The last error raised among the outcomes of the attempts of a call,
    the outcomes given earliest first. *)
Fixpoint last_raised (outcomes : list http_outcome) : option exn :=
  match outcomes with
  | [] => None
  | o :: later =>
      match last_raised later with
      | Some e => Some e
      | None => error_raised o
      end
  end.

End FetchSpec.

(** ** Pagination: tags, markets, trades *)

Module Paginate.
Import Fetch.

(** The two functions of [unicodedata] that [_norm] calls. *)
Record unicodedata : Type := Unicodedata {
  normalize_NFKD : string -> string;
  combining : ascii -> bool
}.

(** On ASCII text the NFKD form is the text itself and nothing combines. *)
Definition ascii_unicodedata : unicodedata :=
  Unicodedata (fun s => s) (fun _ => false).

Definition strip_combining (ud : unicodedata) (s : string) : string :=
  string_of_list_ascii
    (filter (fun ch => negb (combining ud ch)) (list_ascii_of_string s)).

(** [_norm]; [normalize] rejects what is not a [str]. *)
Definition _norm (ud : unicodedata) (s : json) : result string :=
  match (if Py.truthy s then s else JStr "") with
  | JStr x => Ok (Py.lower (strip_combining ud (normalize_NFKD ud x)))
  | v =>
      Raise (Exn TypeError
               ("normalize() argument 2 must be str, not " ++ Py.type_name v))
  end.

(** Control at the end of one pass through a [while True] body. *)
Inductive ctl (S A : Type) : Type :=
| Continue (s : S)
| Break (a : A).
Arguments Continue {S A} s.
Arguments Break {S A} a.

(** [while True: body], cut off after [fuel] passes ([None]). *)
Fixpoint while_true {S A : Type} (fuel : nat)
    (body : S -> world -> result (ctl S A) * world) (s : S) (w : world)
  : option (result A * world) :=
  match fuel with
  | O => None
  | Datatypes.S fuel' =>
      match body s w with
      | (Ok (Continue s'), w') => while_true fuel' body s' w'
      | (Ok (Break a), w') => Some (Ok a, w')
      | (Raise e, w') => Some (Raise e, w')
      end
  end.

(** Lines 55-56 and 84-85: what a listing response is read as. *)
Definition listing_data (data : json) : json :=
  match data with
  | JArr _ => data
  | JObj fields =>
      match Py.lookup "data" fields with
      | Some d => d
      | None => JArr []
      end
  | _ => JArr []
  end.

(** The test of line 58, with the short circuit of [or]. *)
Definition tag_selected (ud : unicodedata) (q : string) (t : json) : result bool :=
  label <- Py.get t "label" (JStr "") ;;
  nl <- _norm ud label ;;
  if Py.contains q nl then Ok true
  else
    slug <- Py.get t "slug" (JStr "") ;;
    ns <- _norm ud slug ;;
    Ok (Py.contains q ns).

(** Lines 57-59: [for t in data: if ...: out.append(t)]. *)
Fixpoint select_tags (ud : unicodedata) (q : string) (items out : list json)
  : result (list json) :=
  match items with
  | [] => Ok out
  | t :: rest =>
      hit <- tag_selected ud q t ;;
      select_tags ud q rest (if (hit : bool) then out ++ [t] else out)
  end.

(** One pass of the loop of [find_tags_by_query], after the fetch. *)
Definition tags_page (ud : unicodedata) (q : string) (out : list json)
    (offset : nat) (data : json) : result (ctl (list json * nat) (list json)) :=
  let data := listing_data data in
  items <- Py.iter data ;;
  out <- select_tags ud q items out ;;
  n <- Py.len data ;;
  if (n <? GAMMA_LIMIT)%nat then Ok (Break out)
  else Ok (Continue (out, (offset + GAMMA_LIMIT)%nat)).

Definition tags_body (net : transport) (ud : unicodedata) (q : string)
    (st : list json * nat) (w : world)
  : result (ctl (list json * nat) (list json)) * world :=
  let (out, offset) := st in
  match _get_json net URL_TAGS
          [("limit", JNum (inject_Z (Z.of_nat GAMMA_LIMIT)));
           ("offset", JNum (inject_Z (Z.of_nat offset)))] w with
  | (Ok data, w') => (tags_page ud q out offset data, w')
  | (Raise e, w') => (Raise e, w')
  end.

Definition find_tags_by_query (fuel : nat) (net : transport) (ud : unicodedata)
    (query : string) (w : world) : option (result (list json) * world) :=
  match _norm ud (JStr query) with
  | Ok q => while_true fuel (tags_body net ud q) ([], O) w
  | Raise e => Some (Raise e, w)
  end.

(** One pass of the loop of [fetch_markets_by_tag], after the fetch. *)
Definition markets_page (out : list json) (offset : nat) (data : json)
  : result (ctl (list json * nat) (list json)) :=
  let data := listing_data data in
  items <- Py.iter data ;;
  let out := out ++ items in
  n <- Py.len data ;;
  if (n <? GAMMA_LIMIT)%nat then Ok (Break out)
  else Ok (Continue (out, (offset + GAMMA_LIMIT)%nat)).

Definition markets_body (net : transport) (tag_id : Z) (closed_flag : string)
    (st : list json * nat) (w : world)
  : result (ctl (list json * nat) (list json)) * world :=
  let (out, offset) := st in
  match _get_json net URL_MARKETS
          [("tag_id", JNum (inject_Z tag_id)); ("related_tags", JStr "true");
           ("closed", JStr closed_flag);
           ("limit", JNum (inject_Z (Z.of_nat GAMMA_LIMIT)));
           ("offset", JNum (inject_Z (Z.of_nat offset)))] w with
  | (Ok data, w') => (markets_page out offset data, w')
  | (Raise e, w') => (Raise e, w')
  end.

Definition fetch_markets_by_tag (fuel : nat) (net : transport) (tag_id : Z)
    (closed_flag : string) (w : world) : option (result (list json) * world) :=
  while_true fuel (markets_body net tag_id closed_flag) ([], O) w.

(** Lines 152-153: is the record inside the time window? *)
Definition in_window (start_ts : option Z) (t : json) : result bool :=
  ts <- Py.get t "timestamp" JNull ;;
  Ok match start_ts with
     | None => true
     | Some bound =>
         match Py.as_number ts with
         | Some x => Qle_bool (inject_Z bound) x
         | None => false
         end
     end.

(** Lines 151-154: [for t in data: ...: trades.append(t)]. *)
Fixpoint window_filter (start_ts : option Z) (items trades : list json)
  : result (list json) :=
  match items with
  | [] => Ok trades
  | t :: rest =>
      keep <- in_window start_ts t ;;
      window_filter start_ts rest (if (keep : bool) then trades ++ [t] else trades)
  end.

(** The state of the loop of [fetch_trades_for_market]. *)
Record trades_state : Type := TradesState {
  trades : list json;
  next_cursor : json;
  limit : Z;
  retries_left : Z
}.

(** Lines 148-157: one pass of the loop after a successful fetch. *)
Definition trades_page (start_ts : option Z) (st : trades_state) (resp : json)
  : result (ctl trades_state (list json)) :=
  let data :=
    match resp with
    | JObj fields =>
        match Py.lookup "data" fields with Some d => d | None => JNull end
    | _ => resp
    end in
  if negb (Py.truthy data) then Ok (Break (trades st))
  else
    items <- Py.iter data ;;
    kept <- window_filter start_ts items (trades st) ;;
    let next :=
      match resp with
      | JObj fields =>
          match Py.lookup "next" fields with Some c => c | None => JNull end
      | _ => JNull
      end in
    if negb (Py.truthy next) then Ok (Break kept)
    else Ok (Continue (TradesState kept next (limit st) (retries_left st))).

(** Lines 140-147: the handler of a failed fetch. *)
Definition trades_on_error (st : trades_state) (e : exn)
  : ctl trades_state (list json) :=
  let msg := Py.lower (exn_str e) in
  if (Py.contains "timeout" msg || Py.contains "408" msg)
     && (0 <? retries_left st)%Z && (100 <? limit st)%Z
  then Continue (TradesState (trades st) (next_cursor st)
                   (Z.max 100 (limit st / 2)) (retries_left st - 1)%Z)
  else Break (trades st).

Definition trades_params (condition_id : string) (st : trades_state)
  : list (string * json) :=
  [("market", JStr condition_id); ("takerOnly", JStr "false");
   ("limit", JNum (inject_Z (limit st)))]
  ++ (if Py.truthy (next_cursor st) then [("cursor", next_cursor st)] else []).

Definition trades_body (net : transport) (start_ts : option Z)
    (condition_id : string) (st : trades_state) (w : world)
  : result (ctl trades_state (list json)) * world :=
  match _get_json net URL_TRADES (trades_params condition_id st) w with
  | (Ok resp, w') => (trades_page start_ts st resp, w')
  | (Raise e, w') => (Ok (trades_on_error st e), w')
  end.

Definition fetch_trades_for_market (fuel : nat) (net : transport)
    (start_ts : option Z) (condition_id : string) (w : world)
  : option (result (list json) * world) :=
  while_true fuel (trades_body net start_ts condition_id)
    (TradesState [] JNull DATA_LIMIT 3) w.

(** The two accepted response shapes: a bare array, or an object whose
    [data] is an array. *)
Definition accepted_shape (v : json) : bool :=
  match v with
  | JArr _ => true
  | JObj fields =>
      match Py.lookup "data" fields with
      | Some (JArr _) => true
      | _ => false
      end
  | _ => false
  end.

End Paginate.


Module PaginateSpec.
Import Fetch Paginate.

(** The record's timestamp field is a number not below the bound. *)
Definition kept_by_window (bound : Z) (t : json) : bool :=
  match t with
  | JObj fields =>
      match Py.lookup "timestamp" fields with
      | Some ts =>
          match Py.as_number ts with
          | Some x => Qle_bool (inject_Z bound) x
          | None => false
          end
      | None => false
      end
  | _ => false
  end.

(** The record's timestamp is a number not below the bound, said of the
    JSON value alone: a number [x] with [bound <= x], or a boolean, which
    is an [int] of value 1 or 0; a missing timestamp, a string, null, a
    list or an object is not. *)
Definition timestamp_not_below (bound : Z) (t : json) : bool :=
  match t with
  | JObj fields =>
      match Py.lookup "timestamp" fields with
      | Some (JNum x) => Qle_bool (inject_Z bound) x
      | Some (JBool true) => (bound <=? 1)%Z
      | Some (JBool false) => (bound <=? 0)%Z
      | _ => false
      end
  | _ => false
  end.

(** Neither an array nor an object, or an object with no [data] field. *)
Definition without_data (v : json) : bool :=
  match v with
  | JArr _ => false
  | JObj fields =>
      match Py.lookup "data" fields with Some _ => false | None => true end
  | _ => true
  end.

(** A false value, or an object whose [data] is absent or a false value. *)
Definition without_true_data (v : json) : bool :=
  match v with
  | JObj fields =>
      match Py.lookup "data" fields with
      | Some d => negb (Py.truthy d)
      | None => true
      end
  | _ => negb (Py.truthy v)
  end.

Definition first_trades_state : trades_state := TradesState [] JNull DATA_LIMIT 3.

(** A network that answers every request with status 200 and the body [v]. *)
Definition always (v : json) : transport :=
  fun _ _ => Answered (Response 200 "" (Ok v) None).

End PaginateSpec.

(** ** Trade metrics *)

Module Metrics.

(** A trade record, with the field types of the data model. [None] is a
    key that is absent or null; the timestamp keeps its dynamic type, which
    the code inspects ([JNull] when absent). *)
Record Trade : Type := mkTrade {
  size : option Q;
  price : option Q;
  proxyWallet : option string;
  timestamp : json
}.

(** [float(tr.get(k, 0) or 0)]. *)
Definition float_or_zero (x : option Q) : Q :=
  match x with
  | Some v => if Qeq_bool v 0 then 0%Q else v
  | None => 0%Q
  end.

Definition usd (tr : Trade) : Q :=
  Qabs (float_or_zero (size tr) * float_or_zero (price tr)).

(** [(tr.get("proxyWallet") or "").lower()]. *)
Definition addr (tr : Trade) : string :=
  Py.lower match proxyWallet tr with Some a => a | None => "" end.

(** [traders.add(a)] on a set kept as a list without repetition. *)
Fixpoint set_add (a : string) (s : list string) : list string :=
  match s with
  | [] => [a]
  | b :: r => if String.eqb b a then s else b :: set_add a r
  end.

Definition add_trader (traders : list string) (tr : Trade) : list string :=
  match addr tr with
  | EmptyString => traders
  | a => set_add a traders
  end.

(** Lines 176-179 on the pair [(first_ts, last_ts)]. *)
Definition track_ts (fl : option Q * option Q) (tr : Trade) : option Q * option Q :=
  match Py.as_number (timestamp tr) with
  | Some ts =>
      (match fst fl with
       | None => Some ts
       | Some f => if Qlt_le_dec ts f then Some ts else Some f
       end,
       match snd fl with
       | None => Some ts
       | Some l => if Qlt_le_dec l ts then Some ts else Some l
       end)
  | None => fl
  end.

Definition sum (vals : list Q) : Q := fold_left Qplus vals 0%Q.

(** [min(vals)] and [max(vals)]: the first extremal element. *)
Fixpoint min_from (m : Q) (vals : list Q) : Q :=
  match vals with
  | [] => m
  | x :: r => min_from (if Qlt_le_dec x m then x else m) r
  end.
Fixpoint max_from (m : Q) (vals : list Q) : Q :=
  match vals with
  | [] => m
  | x :: r => max_from (if Qlt_le_dec m x then x else m) r
  end.
Definition min_or_zero (vals : list Q) : Q :=
  match vals with [] => 0%Q | x :: r => min_from x r end.
Definition max_or_zero (vals : list Q) : Q :=
  match vals with [] => 0%Q | x :: r => max_from x r end.

(** The truth value of [first_ts] or [last_ts]: [None] and zero are false. *)
Definition ts_truthy (ts : option Q) : bool :=
  match ts with
  | Some x => negb (Qeq_bool x 0)
  | None => false
  end.

(** Line 187. *)
Definition active_of (first_ts last_ts : option Q) : Z :=
  match first_ts, last_ts with
  | Some f, Some l =>
      if ts_truthy first_ts && ts_truthy last_ts
      then (Py.int ((l - f) / inject_Z 86400) + 1)%Z
      else 0%Z
  | _, _ => 0%Z
  end.

Record bundle : Type := mkBundle {
  traders_count : nat;
  total_trades : nat;
  total_volume_usd : Q;
  avg_trade_size_usd : Q;
  avg_volume_per_trader : Q;
  avg_trades_per_day : Q;
  min_trade_size_usd : Q;
  max_trade_size_usd : Q;
  active_days : Z;
  _traders : list string
}.

Definition zero_bundle : bundle := mkBundle 0 0 0 0 0 0 0 0 0 [].

Definition of_nat (n : nat) : Q := inject_Z (Z.of_nat n).

Definition compute_metrics (trades : list Trade) : result bundle :=
  match trades with
  | [] => Ok zero_bundle
  | _ =>
      let vals := map usd trades in
      let traders := fold_left add_trader trades [] in
      let fl := fold_left track_ts trades (None, None) in
      let total := sum vals in
      let n := List.length vals in
      let tcnt := List.length traders in
      let minv := min_or_zero vals in
      let maxv := max_or_zero vals in
      avgsize <- (if (n =? 0)%nat then Ok 0%Q else Py.div total (of_nat n)) ;;
      avgvoltr <- (if (tcnt =? 0)%nat then Ok 0%Q else Py.div total (of_nat tcnt)) ;;
      let active := active_of (fst fl) (snd fl) in
      avgday <- (if (active =? 0)%Z then Ok 0%Q
                 else Py.div (of_nat n) (inject_Z active)) ;;
      Ok (mkBundle tcnt n (Py.round6 total) (Py.round6 avgsize)
            (Py.round6 avgvoltr) (Py.round6 avgday) (Py.round6 minv)
            (Py.round6 maxv) active traders)
  end.

(** The timestamps that count: those of a numeric type. *)
Definition numeric_timestamps (trades : list Trade) : list Q :=
  flat_map (fun tr => match Py.as_number (timestamp tr) with
                      | Some ts => [ts]
                      | None => []
                      end) trades.

End Metrics.


Module MetricsSpec.
Import Metrics.

(** A quotient that is zero when its denominator is. *)
Definition guarded_div (a b : Q) : Q :=
  if Qeq_bool b 0 then 0%Q else (a / b)%Q.

(** The first least and the first greatest of the numeric timestamps. *)
Definition min_timestamp (trades : list Trade) : option Q :=
  match numeric_timestamps trades with
  | [] => None
  | x :: r => Some (min_from x r)
  end.
Definition max_timestamp (trades : list Trade) : option Q :=
  match numeric_timestamps trades with
  | [] => None
  | x :: r => Some (max_from x r)
  end.

(** The trade of the single-trade example, at timestamp [T]. *)
Definition example_trade (T : Q) : Trade :=
  mkTrade (Some 10%Q) (Some (1 # 2)) (Some "0xAbC") (JNum T).

(** [first_ts] and [last_ts] are both unset, or both set and in order. *)
Definition ordered (fl : option Q * option Q) : Prop :=
  match fl with
  | (None, None) => True
  | (Some f, Some l) => (f <= l)%Q
  | _ => False
  end.

End MetricsSpec.

(** ** Aggregation of markets into events *)

Module Aggregate.
Import Metrics.

(** A market record with the field types of the data model; an absent
    [slug], [id] or [question] reads as the empty string. *)
Record Market : Type := mkMarket {
  id : string;
  slug : string;
  conditionId : option string;
  condition_id : option string;
  volume : option Q;
  question : string
}.

(** [float(x.get("volume", 0) or 0.0)]. *)
Definition volume_of (m : Market) : Q := float_or_zero (volume m).

(** [groups.setdefault(bslug, []).append(m)] on a dict in insertion order. *)
Fixpoint setdefault_append (bslug : string) (m : Market)
    (groups : list (string * list Market)) : list (string * list Market) :=
  match groups with
  | [] => [(bslug, [m])]
  | (k, mkts) :: rest =>
      if String.eqb k bslug then (k, mkts ++ [m]) :: rest
      else (k, mkts) :: setdefault_append bslug m rest
  end.

(** Lines 212-216. *)
Definition group_markets (markets : list Market) : list (string * list Market) :=
  fold_left (fun groups m => setdefault_append (Slug.base_slug (slug m)) m groups)
    markets [].

(** [max(mkts, key=...)] from a first candidate: a later element replaces
    the candidate only when its key is strictly greater. *)
Fixpoint max_from_by {A : Type} (key : A -> Q) (best : A) (rest : list A) : A :=
  match rest with
  | [] => best
  | x :: r => max_from_by key (if Qlt_le_dec (key best) (key x) then x else best) r
  end.

Definition max_by {A : Type} (key : A -> Q) (l : list A) : result A :=
  match l with
  | [] => Raise (Exn ValueError "max() arg is an empty sequence")
  | x :: r => Ok (max_from_by key x r)
  end.

(** [a or b] on optional strings: the first that is present and not empty. *)
Definition str_truthy (s : option string) : bool :=
  match s with
  | Some (String _ _) => true
  | _ => false
  end.
Definition or_else (a b : option string) : option string :=
  if str_truthy a then a else b.

Record row : Type := mkRow {
  event_key : string;
  url : string;
  markets_count : nat;
  unique_tokens : nat;
  total_volume_usd : Q;
  traders_count : nat;
  total_trades : nat;
  avg_trade_size_usd : Q;
  avg_volume_per_trader : Q;
  avg_trades_per_day : Q;
  min_trade_size_usd : Q;
  max_trade_size_usd : Q;
  active_days : Z;
  rep_market_id : string;
  rep_condition_id : string;
  unique_events : nat;
  any_question : string
}.

Section WithTradeSource.

(** The trade source: [fetch_trades_for_market] as seen from here, a call
    that reads and changes the state [W] of the network and returns the
    trades of one market or raises. *)
Variable W : Type.
Variable fetch : string -> W -> result (list Trade) * W.

(** The body of the loop of lines 221-246 for one group. *)
Definition event_row (unique_events : nat) (bslug : string) (mkts : list Market)
    (w : W) : result row * W :=
  match max_by volume_of mkts with
  | Raise e => (Raise e, w)
  | Ok rep =>
      let cond := or_else (conditionId rep) (condition_id rep) in
      let (fetched, w') :=
        match cond with
        | Some c => if str_truthy cond then fetch c w else (Ok [], w)
        | None => (Ok [], w)
        end in
      (trades <- fetched ;;
       mm <- compute_metrics trades ;;
       Ok (mkRow bslug (Slug.event_url bslug) (List.length mkts) (List.length mkts)
             (Py.round6 (Metrics.sum (map volume_of mkts)))
             (Metrics.traders_count mm) (Metrics.total_trades mm)
             (Metrics.avg_trade_size_usd mm) (Metrics.avg_volume_per_trader mm)
             (Metrics.avg_trades_per_day mm) (Metrics.min_trade_size_usd mm)
             (Metrics.max_trade_size_usd mm) (Metrics.active_days mm)
             (id rep)
             match cond with Some c => c | None => "" end
             unique_events (question rep)),
       w')
  end.

(** [for bslug, mkts in groups.items(): rows.append(...)]. *)
Fixpoint event_rows (unique_events : nat) (groups : list (string * list Market))
    (rows : list row) (w : W) : result (list row) * W :=
  match groups with
  | [] => (Ok rows, w)
  | (bslug, mkts) :: rest =>
      match event_row unique_events bslug mkts w with
      | (Ok r, w') => event_rows unique_events rest (rows ++ [r]) w'
      | (Raise e, w') => (Raise e, w')
      end
  end.

Definition aggregate_events (markets : list Market) (w : W)
  : result (list row) * W :=
  let groups := group_markets markets in
  event_rows (List.length groups) groups [] w.

End WithTradeSource.

(** The markets of the input that fall under one key, in input order. *)
Definition group_of (markets : list Market) (key : string) : list Market :=
  filter (fun m => String.eqb (Slug.base_slug (slug m)) key) markets.

End Aggregate.

Module AggregateSpec.
Import Metrics Aggregate.

(** [groups.get(k)]. *)
Fixpoint find_group (k : string) (groups : list (string * list Market))
  : option (list Market) :=
  match groups with
  | [] => None
  | (k', mkts) :: rest => if String.eqb k' k then Some mkts else find_group k rest
  end.

Definition some_if_any (mkts : list Market) : option (list Market) :=
  match mkts with
  | [] => None
  | _ => Some mkts
  end.

(** [rep] is the first market of [mkts] with the greatest volume. *)
Definition first_max (mkts : list Market) (rep : Market) : Prop :=
  exists pre post,
    mkts = pre ++ rep :: post
    /\ (forall x, In x pre -> (volume_of x < volume_of rep)%Q)
    /\ (forall x, In x post -> (volume_of x <= volume_of rep)%Q).

(** What a row says of the group it was made from. *)
Definition row_of_group (g : string * list Market) (r : row) : Prop :=
  event_key r = fst g
  /\ markets_count r = List.length (snd g)
  /\ total_volume_usd r = Py.round6 (Metrics.sum (map volume_of (snd g)))
  /\ exists rep,
       max_by volume_of (snd g) = Ok rep
       /\ rep_market_id r = id rep
       /\ any_question r = question rep
       /\ rep_condition_id r
          = match or_else (conditionId rep) (condition_id rep) with
            | Some c => c
            | None => ""
            end.

(** A trade source without trades. *)
Definition no_trades : string -> unit -> result (list Trade) * unit :=
  fun _ w => (Ok [], w).

Definition market (i : string) (s : string) (v : Q) : Market :=
  mkMarket i s (Some ("0x" ++ i)%string) None (Some v) ("Question " ++ i)%string.

(** Three outcome markets of one event, with volumes 5, 20 and 3. *)
Definition three_markets : list Market :=
  [market "1" "event-2025-06-01-yes" 5; market "2" "event-2025-06-01-no" 20;
   market "3" "event-2025-06-01-draw" 3].

(** Markets of one event with a tie on the greatest volume. *)
Definition tied_markets : list Market :=
  [market "1" "event-2025-06-01-yes" 5; market "2" "event-2025-06-01-no" 20;
   market "3" "event-2025-06-01-draw" 20].

(** A market whose volume is a tenth of a millionth. *)
Definition tiny_market : Market := market "9" "tiny" (1 # 10000000).

End AggregateSpec.

(** ** Model servers for the listings *)

Module Servers.
Import Fetch Paginate PaginateSpec.

(** A query parameter read as a natural number. *)
Definition param_nat (k : string) (ps : list (string * json)) : nat :=
  match Py.lookup k ps with
  | Some (JNum q) => Z.to_nat (Qfloor q)
  | _ => 0%nat
  end.

(** A server that honours [limit] and [offset] over a fixed list of
    records; it answers with a bare array or, with [wrap], with an object
    that holds the array as [data]. *)
Definition offset_server (wrap : bool) (records : list json) : transport :=
  fun req _ =>
    let page :=
      JArr (firstn (param_nat "limit" (params req))
              (skipn (param_nat "offset" (params req)) records)) in
    Answered (Response 200 ""
                (Ok (if wrap then JObj [("data", page)] else page)) None).

(** The answer with the records [items] of a page, and with the name of
    the next page, if there is one, as [next]. *)
Definition page_response (items : list json) (rest : list (string * list json))
  : json :=
  JObj (("data", JArr items)
        :: match rest with
           | (n, _) :: _ => [("next", JStr n)]
           | [] => []
           end).

Fixpoint page_named (c : string) (pages : list (string * list json)) : json :=
  match pages with
  | [] => JObj [("data", JArr [])]
  | (name, items) :: rest =>
      if String.eqb name c then page_response items rest else page_named c rest
  end.

(** A server of named pages: a request without cursor gets the first page,
    a request with the cursor [c] the page named [c]. *)
Definition cursor_server (pages : list (string * list json)) : transport :=
  fun req _ =>
    Answered
      (Response 200 ""
         (Ok match Py.lookup "cursor" (params req) with
             | Some (JStr c) => page_named c pages
             | _ =>
                 match pages with
                 | [] => JObj [("data", JArr [])]
                 | (_, items) :: rest => page_response items rest
                 end
             end) None).

(** The records the time window lets through. *)
Definition window (start_ts : option Z) (items : list json) : list json :=
  match start_ts with
  | None => items
  | Some bound => filter (kept_by_window bound) items
  end.

(** A page with a name, with records, all of them objects. *)
Definition good_page (p : string * list json) : Prop :=
  fst p <> "" /\ snd p <> []
  /\ Forall (fun t => Py.isinstance_dict t = true) (snd p).

(** The request asks for pages of [size] records. *)
Definition asks_for (size : Z) (req : request) : Prop :=
  Py.lookup "limit" (params req) = Some (JNum (inject_Z size)).

(** A network on which the requests for pages of the given sizes time out,
    and every other request is answered with one trade. *)
Definition timing_out_on (sizes : list Z) : transport :=
  fun req _ =>
    match Py.lookup "limit" (params req) with
    | Some (JNum q) =>
        if existsb (fun size => Qeq_bool q (inject_Z size)) sizes
        then Failed (Exn RequestException "Read timed out. (read timeout=20)")
        else Answered
               (Response 200 ""
                  (Ok (JArr [JObj [("timestamp", JNum 1800000000)]])) None)
    | _ =>
        Answered
          (Response 200 ""
             (Ok (JArr [JObj [("timestamp", JNum 1800000000)]])) None)
    end.

End Servers.

(** ** Tags that are well formed, and the tags a query selects *)

Module TagSpec.
Import Paginate.

(** A text field of a tag: absent reads as empty; [None] when the field
    holds something that is not a string. *)
Definition str_field (k : string) (fields : list (string * json)) : option string :=
  match Py.lookup k fields with
  | None => Some ""
  | Some (JStr s) => Some s
  | Some _ => None
  end.

(** [_norm] on a string. *)
Definition norm_str (ud : unicodedata) (s : string) : string :=
  Py.lower (strip_combining ud (normalize_NFKD ud s)).

(** An object whose [label] and [slug] are strings or absent. *)
Definition plain_tag (t : json) : bool :=
  match t with
  | JObj fields =>
      match str_field "label" fields, str_field "slug" fields with
      | Some _, Some _ => true
      | _, _ => false
      end
  | _ => false
  end.

(** The normalised query occurs in the normalised label or slug. *)
Definition tag_matches (ud : unicodedata) (q : string) (t : json) : bool :=
  match t with
  | JObj fields =>
      match str_field "label" fields, str_field "slug" fields with
      | Some l, Some s =>
          Py.contains q (norm_str ud l) || Py.contains q (norm_str ud s)
      | _, _ => false
      end
  | _ => false
  end.

End TagSpec.

(** ** Rows without trades *)

Module RowSpec.
Import Aggregate.

(** A row all of whose trade figures are zero. *)
Definition no_trade_figures (r : row) : Prop :=
  traders_count r = 0%nat /\ total_trades r = 0%nat
  /\ avg_trade_size_usd r = 0%Q /\ avg_volume_per_trader r = 0%Q
  /\ avg_trades_per_day r = 0%Q /\ min_trade_size_usd r = 0%Q
  /\ max_trade_size_usd r = 0%Q /\ active_days r = 0%Z
  /\ rep_condition_id r = "".

End RowSpec.

(** ** The main script: one market per id *)

Module Main.
Import Py.

(** The key [m["id"]] of an element that passes the filter ["id" in m] of
    the comprehension, [None] for an element the filter drops.  On an
    object the filter asks for the key; on a list it asks for the member
    ["id"] and on a string for the substring, and the subscript that
    follows raises; on anything else the filter itself raises. *)
Definition id_if_present (m : json) : result (option json) :=
  match m with
  | JObj fields => Ok (lookup "id" fields)
  | JArr items =>
      if existsb (fun v => match v with
                           | JStr s => String.eqb s "id"
                           | _ => false
                           end) items
      then Raise (Exn TypeError
                    "list indices must be integers or slices, not str")
      else Ok None
  | JStr s =>
      if contains "id" s
      then Raise (Exn TypeError "string indices must be integers, not 'str'")
      else Ok None
  | _ =>
      Raise (Exn TypeError
               ("argument of type '" ++ type_name m ++ "' is not iterable"))
  end.

(** A dict key must be hashable: lists and dicts are not. *)
Definition hashable (k : json) : result unit :=
  match k with
  | JArr _ | JObj _ =>
      Raise (Exn TypeError ("unhashable type: '" ++ type_name k ++ "'"))
  | _ => Ok tt
  end.

(** Two keys are the same key of a dict: numbers and booleans by value
    ([True == 1 == 1.0]), strings and [None] among themselves. *)
Definition key_eqb (a b : json) : bool :=
  match as_number a, as_number b with
  | Some x, Some y => Qeq_bool x y
  | None, None =>
      match a, b with
      | JNull, JNull => true
      | JStr s, JStr t => String.eqb s t
      | _, _ => false
      end
  | _, _ => false
  end.

(** [d[k] = v] on a dict in insertion order: a key that is there keeps
    its place and gets the new value, a new key goes to the end. *)
Fixpoint dict_set (k v : json) (d : list (json * json)) : list (json * json) :=
  match d with
  | [] => [(k, v)]
  | (k', v') :: rest =>
      if key_eqb k' k then (k', v) :: rest
      else (k', v') :: dict_set k v rest
  end.

(** [{m["id"]: m for m in ms if "id" in m}], continued from the dict [d]. *)
Fixpoint comprehension (ms : list json) (d : list (json * json))
  : result (list (json * json)) :=
  match ms with
  | [] => Ok d
  | m :: rest =>
      key <- id_if_present m ;;
      match key with
      | Some k => _ <- hashable k ;; comprehension rest (dict_set k m d)
      | None => comprehension rest d
      end
  end.

(** [{m["id"]: m for m in open_mk + closed_mk if "id" in m}.values()] *)
Definition dedup_by_id (open_mk closed_mk : list json) : result (list json) :=
  d <- comprehension (open_mk ++ closed_mk) [] ;;
  Ok (map snd d).

End Main.

Module MainSpec.
Import Py Main.

(** The id of a market that is an object. *)
Definition id_of (m : json) : option json :=
  match m with
  | JObj fields => lookup "id" fields
  | _ => None
  end.

(** [m] has no id, or an id that is another key than [k]. *)
Definition other_id (k : json) (m : json) : Prop :=
  forall k', id_of m = Some k' -> key_eqb k k' = false.

(** An object with no id, or with an id that is not a list or an object. *)
Definition scalar_id (m : json) : bool :=
  match m with
  | JObj fields =>
      match lookup "id" fields with
      | Some (JArr _) | Some (JObj _) => false
      | _ => true
      end
  | _ => false
  end.

(** The dict after one more market. *)
Definition insert_market (d : list (json * json)) (m : json)
  : list (json * json) :=
  match id_of m with
  | Some k => dict_set k m d
  | None => d
  end.

(** The keys of a dict are pairwise different. *)
Definition distinct_keys (d : list (json * json)) : Prop :=
  ForallOrdPairs (fun a b => key_eqb (fst a) (fst b) = false) d.

(** Two markets have ids, and different ones. *)
Definition different_ids (a b : json) : Prop :=
  exists ka kb, id_of a = Some ka /\ id_of b = Some kb /\ key_eqb ka kb = false.

(** A market as the two listings give it. *)
Definition listed (market_id : string) (closed : bool) : json :=
  JObj [("id", JStr market_id); ("closed", JBool closed)].

End MainSpec.

(* ================================================================== *)
(** * Part II: theorems                                                *)
(* ================================================================== *)

(** ** Slugs *)

Module SlugFacts.
Import Slug SlugSpec.

Lemma split_nonempty (sep : ascii) (s : string) : split sep s <> [].
Proof.
  destruct s as [|c r]; simpl; [discriminate|].
  destruct (Ascii.eqb c sep); [discriminate|].
  destruct (split sep r); discriminate.
Qed.

(** Splitting a string that has a separator in the middle. *)
Lemma split_app (sep : ascii) (a b : string) :
  split sep (a ++ String sep b)%string = split sep a ++ split sep b.
Proof.
  induction a as [|c r IH]; simpl.
  - now rewrite Ascii.eqb_refl.
  - destruct (Ascii.eqb c sep); [now rewrite IH|].
    rewrite IH. pose proof (split_nonempty sep r) as Hne.
    destruct (split sep r); [contradiction|reflexivity].
Qed.

Lemma no_char_line_feed s : no_char line_feed s = no_line_feed s.
Proof. induction s; simpl; congruence. Qed.

(** No token of a split holds the separator. *)
Lemma split_no_sep (sep : ascii) (s : string) :
  Forall (fun t => no_char sep t = true) (split sep s).
Proof.
  induction s as [|c r IH]; simpl.
  - repeat constructor.
  - destruct (Ascii.eqb c sep) eqn:E.
    + constructor; [reflexivity|exact IH].
    + destruct (split sep r) as [|t ts]; [repeat constructor; simpl; now rewrite E|].
      inversion IH; subst. constructor; [simpl; now rewrite E|assumption].
Qed.

(** A character absent from the string is absent from its tokens. *)
Lemma split_no_char (x sep : ascii) (s : string) :
  no_char x s = true -> Forall (fun t => no_char x t = true) (split sep s).
Proof.
  induction s as [|c r IH]; simpl; intros H.
  - repeat constructor.
  - apply andb_true_iff in H as [Hc Hr]. specialize (IH Hr).
    destruct (Ascii.eqb c sep).
    + constructor; [reflexivity|exact IH].
    + destruct (split sep r) as [|t ts]; [repeat constructor; simpl; now rewrite Hc|].
      inversion IH; subst. constructor; [simpl; now rewrite Hc|assumption].
Qed.

(** *** The patterns, character by character *)

Ltac split_bools :=
  repeat (cbn; match goal with
               | |- context [if ?b then _ else _] => destruct b
               end); cbn.

Lemma year_re_chars a b c d rest :
  re_match YEAR_RE (String a (String b (String c (String d rest))))
  = four_digits (String a (String b (String c (String d "")))) && at_dollar rest.
Proof.
  unfold re_match, YEAR_RE, four_digits. cbn [Rep residuals flat_map app].
  destruct (is_digit a); cbn; [|reflexivity].
  destruct (is_digit b); cbn; [|reflexivity].
  destruct (is_digit c); cbn; [|reflexivity].
  destruct (is_digit d); cbn; [|reflexivity].
  now rewrite orb_false_r.
Qed.

Lemma year_re_short t :
  (String.length t < 4)%nat -> re_match YEAR_RE t = false.
Proof.
  destruct t as [|a [|b [|c [|d r]]]]; simpl; try lia; intros _;
    unfold re_match, YEAR_RE; cbn [Rep residuals flat_map app];
    split_bools; reflexivity.
Qed.

Lemma month_re_chars a b rest :
  re_match MONTH_RE (String a (String b rest))
  = re_match MONTH_RE (String a (String b "")) && at_dollar rest.
Proof.
  unfold re_match, MONTH_RE. cbn [residuals flat_map app].
  split_bools; destruct (at_dollar rest); reflexivity.
Qed.

Lemma day_re_chars a b rest :
  re_match DAY_RE (String a (String b rest))
  = re_match DAY_RE (String a (String b "")) && at_dollar rest.
Proof.
  unfold re_match, DAY_RE. cbn [residuals flat_map app].
  split_bools; destruct (at_dollar rest); reflexivity.
Qed.

Lemma month_re_short t : (String.length t < 2)%nat -> re_match MONTH_RE t = false.
Proof.
  destruct t as [|a [|b r]]; simpl; try lia; intros _;
    unfold re_match, MONTH_RE; cbn [residuals flat_map app]; split_bools; reflexivity.
Qed.

Lemma day_re_short t : (String.length t < 2)%nat -> re_match DAY_RE t = false.
Proof.
  destruct t as [|a [|b r]]; simpl; try lia; intros _;
    unfold re_match, DAY_RE; cbn [residuals flat_map app]; split_bools; reflexivity.
Qed.

Lemma ascii_eqb_nat (a c : ascii) :
  Ascii.eqb a c = (nat_of_ascii a =? nat_of_ascii c)%nat.
Proof.
  destruct (Ascii.eqb_spec a c) as [->|H]; [now rewrite Nat.eqb_refl|].
  symmetry. apply Nat.eqb_neq. intros E. apply H.
  now rewrite <- (ascii_nat_embedding a), <- (ascii_nat_embedding c), E.
Qed.

Lemma month_re_bools a b :
  re_match MONTH_RE (String a (String b ""))
  = Ascii.eqb a "0" && in_range "1" "9" b || Ascii.eqb a "1" && in_range "0" "2" b.
Proof.
  unfold re_match, MONTH_RE. cbn [residuals flat_map app].
  split_bools; reflexivity.
Qed.

Lemma day_re_bools a b :
  re_match DAY_RE (String a (String b ""))
  = Ascii.eqb a "0" && in_range "1" "9" b
    || in_range "1" "2" a && is_digit b
    || Ascii.eqb a "3" && in_range "0" "1" b.
Proof.
  unfold re_match, DAY_RE. cbn [residuals flat_map app].
  split_bools; reflexivity.
Qed.

Ltac bools_to_props :=
  apply eq_true_iff_eq;
  rewrite ?orb_true_iff, ?andb_true_iff, ?Nat.leb_le, ?Nat.eqb_eq.

(** The month pattern on two characters: a two-digit number from 01 to 12. *)
Lemma month_re_two a b :
  re_match MONTH_RE (String a (String b "")) = month_token (String a (String b "")).
Proof.
  rewrite month_re_bools.
  unfold month_token, two_digits_between, is_digit, in_range.
  rewrite !ascii_eqb_nat. cbv zeta.
  change (nat_of_ascii "0") with 48%nat. change (nat_of_ascii "1") with 49%nat.
  change (nat_of_ascii "2") with 50%nat. change (nat_of_ascii "9") with 57%nat.
  bools_to_props. lia.
Qed.

(** The day pattern on two characters: a two-digit number from 01 to 31. *)
Lemma day_re_two a b :
  re_match DAY_RE (String a (String b "")) = day_token (String a (String b "")).
Proof.
  rewrite day_re_bools.
  unfold day_token, two_digits_between, is_digit, in_range.
  rewrite !ascii_eqb_nat. cbv zeta.
  change (nat_of_ascii "0") with 48%nat. change (nat_of_ascii "1") with 49%nat.
  change (nat_of_ascii "2") with 50%nat. change (nat_of_ascii "3") with 51%nat.
  change (nat_of_ascii "9") with 57%nat.
  bools_to_props. lia.
Qed.


(** *** The scan of [_find_last_date_span] *)

Lemma span_step_hit parts acc i :
  span_step parts acc (i, nth i parts "")
  = match hit parts i with Some s => Some s | None => acc end.
Proof.
  unfold span_step, hit.
  destruct (three_token_date parts i); [reflexivity|].
  destruct (re_match ONE_TOKEN_DATE_RE (nth i parts "")); reflexivity.
Qed.

Lemma fold_scan parts : forall (l : list string) (a : nat) acc,
  (forall k, (k < List.length l)%nat -> nth k l "" = nth (a + k) parts "") ->
  fold_left (span_step parts) (combine (seq a (List.length l)) l) acc
  = scan_from parts a (List.length l) acc.
Proof.
  induction l as [|t l IH]; intros a acc H; [reflexivity|].
  cbn [List.length seq combine fold_left scan_from].
  pose proof (H 0%nat ltac:(simpl; lia)) as H0. simpl in H0.
  rewrite Nat.add_0_r in H0. rewrite H0, span_step_hit.
  apply IH. intros k Hk.
  specialize (H (S k) ltac:(simpl; lia)). simpl in H.
  now rewrite Nat.add_succ_r in H.
Qed.

Lemma find_last_scan parts :
  _find_last_date_span parts = scan_from parts 0 (List.length parts) None.
Proof.
  unfold _find_last_date_span, enumerate. now apply fold_scan.
Qed.

Lemma scan_from_none parts : forall n a acc,
  scan_from parts a n acc = None ->
  acc = None /\ forall k, (a <= k < a + n)%nat -> hit parts k = None.
Proof.
  induction n as [|n IH]; intros a acc H; simpl in H.
  - split; [assumption|intros; lia].
  - apply IH in H as [Hacc Hk].
    destruct (hit parts a) eqn:Ha; [discriminate|].
    split; [assumption|]. intros k Hr.
    destruct (Nat.eq_dec k a) as [->|]; [assumption|apply Hk; lia].
Qed.

Lemma scan_from_some parts : forall n a acc s,
  scan_from parts a n acc = Some s ->
  (acc = Some s /\ forall k, (a <= k < a + n)%nat -> hit parts k = None)
  \/ (exists i, (a <= i < a + n)%nat /\ hit parts i = Some s
                /\ forall k, (i < k < a + n)%nat -> hit parts k = None).
Proof.
  induction n as [|n IH]; intros a acc s H; simpl in H.
  - left. split; [assumption|intros; lia].
  - apply IH in H as [[Hacc Hk]|(i & Hi & Hs & Hk)].
    + destruct (hit parts a) eqn:Ha.
      * right. exists a. repeat split; try lia; [congruence|].
        intros k Hr. apply Hk; lia.
      * left. split; [assumption|]. intros k Hr.
        destruct (Nat.eq_dec k a) as [->|]; [assumption|apply Hk; lia].
    + right. exists i. repeat split; try lia; [assumption|].
      intros k Hr. apply Hk; lia.
Qed.

Lemma hit_shape parts i s :
  hit parts i = Some s -> fst s = i /\ (snd s = i \/ snd s = (i + 2)%nat).
Proof.
  unfold hit. destruct (three_token_date parts i).
  - intros [= <-]. simpl. auto.
  - destruct (re_match ONE_TOKEN_DATE_RE (nth i parts "")); [|discriminate].
    intros [= <-]. simpl. auto.
Qed.

(** The result of the scan: the hit with the greatest index. *)
Lemma find_last_some parts i j :
  _find_last_date_span parts = Some (i, j) ->
  (i < List.length parts)%nat /\ hit parts i = Some (i, j)
  /\ forall k, (i < k < List.length parts)%nat -> hit parts k = None.
Proof.
  rewrite find_last_scan. intros H.
  apply scan_from_some in H as [[? _]|(i' & Hi & Hs & Hk)]; [discriminate|].
  pose proof (hit_shape _ _ _ Hs) as [Hf _]. simpl in Hf. subst i'.
  repeat split; [lia|assumption|]. intros k Hr. apply Hk. lia.
Qed.

Lemma find_last_none parts :
  _find_last_date_span parts = None ->
  forall k, (k < List.length parts)%nat -> hit parts k = None.
Proof.
  rewrite find_last_scan. intros H k Hk.
  apply scan_from_none in H as [_ H]. apply H. lia.
Qed.

(** The scan finds a span as soon as one index has a hit. *)
Lemma find_last_finds parts k :
  (k < List.length parts)%nat -> hit parts k <> None ->
  exists i j, _find_last_date_span parts = Some (i, j).
Proof.
  intros Hk Hh. destruct (_find_last_date_span parts) as [[i j]|] eqn:E.
  - now exists i, j.
  - exfalso. apply Hh. eapply find_last_none; eassumption.
Qed.

(** *** Tokens without a line feed: the patterns are the plain ones *)

Lemma at_dollar_plain rest :
  no_line_feed rest = true ->
  at_dollar rest = match rest with EmptyString => true | _ => false end.
Proof.
  destruct rest as [|c [|d r]]; simpl; try reflexivity.
  intros H. apply andb_true_iff in H as [H _].
  now destruct (Ascii.eqb c line_feed).
Qed.

Lemma year_re_plain t :
  no_line_feed t = true -> re_match YEAR_RE t = four_digits t.
Proof.
  intros H. destruct t as [|a [|b [|c [|d rest]]]];
    try (apply year_re_short; simpl; lia).
  rewrite year_re_chars, at_dollar_plain.
  - destruct rest; [now rewrite andb_true_r|].
    rewrite andb_false_r. reflexivity.
  - simpl in H. repeat (apply andb_true_iff in H as [_ H]). exact H.
Qed.

Lemma month_re_plain t :
  no_line_feed t = true -> re_match MONTH_RE t = month_token t.
Proof.
  intros H. destruct t as [|a [|b rest]]; try (apply month_re_short; simpl; lia).
  rewrite month_re_chars, at_dollar_plain.
  - destruct rest; [rewrite andb_true_r; apply month_re_two|].
    rewrite andb_false_r. reflexivity.
  - simpl in H. repeat (apply andb_true_iff in H as [_ H]). exact H.
Qed.

Lemma day_re_plain t :
  no_line_feed t = true -> re_match DAY_RE t = day_token t.
Proof.
  intros H. destruct t as [|a [|b rest]]; try (apply day_re_short; simpl; lia).
  rewrite day_re_chars, at_dollar_plain.
  - destruct rest; [rewrite andb_true_r; apply day_re_two|].
    rewrite andb_false_r. reflexivity.
  - simpl in H. repeat (apply andb_true_iff in H as [_ H]). exact H.
Qed.

(** *** The compact pattern needs a hyphen, which no token has *)

Lemma one_token_re_hyphen t :
  no_char hyphen t = true -> re_match ONE_TOKEN_DATE_RE t = false.
Proof.
  intros H. unfold re_match, ONE_TOKEN_DATE_RE.
  destruct t as [|a [|b [|c [|d [|e rest]]]]];
    cbn [Rep residuals flat_map app]; try (split_bools; reflexivity).
  destruct (is_digit a); cbn; [|reflexivity].
  destruct (is_digit b); cbn; [|reflexivity].
  destruct (is_digit c); cbn; [|reflexivity].
  destruct (is_digit d); cbn; [|reflexivity].
  destruct (Ascii.eqb e "-") eqn:E; cbn; [|reflexivity].
  exfalso. simpl in H. unfold hyphen in H. rewrite E in H. simpl in H.
  rewrite !andb_false_r in H. discriminate.
Qed.

Lemma compact_date_hyphen t :
  no_char hyphen t = true -> compact_date t = false.
Proof.
  intros H. unfold compact_date.
  destruct t as [|y1 [|y2 [|y3 [|y4 [|h1 [|m1 [|m2 [|h2 [|d1 [|d2 [|x r]]]]]]]]]]];
    try reflexivity.
  simpl in H. destruct (Ascii.eqb h1 hyphen); simpl in H.
  - rewrite !andb_false_r in H. discriminate.
  - now rewrite !andb_false_r.
Qed.

(** *** The loop body's test and the three-token date of the specification *)

Lemma nth_Forall {A} (P : A -> Prop) (l : list A) (d : A) (i : nat) :
  Forall P l -> (i < List.length l)%nat -> P (nth i l d).
Proof.
  intros H Hi. rewrite Forall_forall in H. apply H, nth_In, Hi.
Qed.

Section PlainTokens.

Variable parts : list string.
Hypothesis no_lf : Forall (fun t => no_line_feed t = true) parts.
Hypothesis no_hy : Forall (fun t => no_char hyphen t = true) parts.

Lemma three_token_date_plain i :
  three_token_date parts i
  = (i + 2 <? List.length parts)%nat
    && four_digits (nth i parts "")
    && month_token (nth (i + 1) parts "")
    && day_token (nth (i + 2) parts "").
Proof.
  unfold three_token_date.
  destruct (Nat.ltb_spec (i + 2) (List.length parts)) as [Hlt|]; [|reflexivity].
  rewrite year_re_plain, month_re_plain, day_re_plain; try reflexivity;
    apply (nth_Forall (fun t => no_line_feed t = true)); trivial; lia.
Qed.

Lemma hit_date_span i j :
  hit parts i = Some (i, j) <-> date_span parts i j.
Proof.
  unfold hit, date_span. rewrite three_token_date_plain.
  destruct (Nat.ltb_spec (i + 2) (List.length parts)) as [Hlt|Hge]; simpl.
  - destruct (four_digits (nth i parts "")) eqn:Y,
      (month_token (nth (i + 1) parts "")) eqn:M,
      (day_token (nth (i + 2) parts "")) eqn:D; simpl;
      try (split; [intros [= <-]; right; auto|];
           intros [(-> & Hi & Hc)|(-> & _)]; [|reflexivity];
           rewrite compact_date_hyphen in Hc; [discriminate|];
           apply (nth_Forall (fun t => no_char hyphen t = true)); trivial);
      (rewrite one_token_re_hyphen;
       [|apply (nth_Forall (fun t => no_char hyphen t = true)); trivial; lia]);
      (split; [discriminate|]);
      (intros [(-> & Hi & Hc)|(-> & _ & Hy & Hm & Hd)]; [|congruence]);
      (rewrite compact_date_hyphen in Hc; [discriminate|]);
      apply (nth_Forall (fun t => no_char hyphen t = true)); trivial.
  - destruct (Nat.lt_ge_cases i (List.length parts)) as [Hi|Hi].
    + rewrite one_token_re_hyphen;
        [|apply (nth_Forall (fun t => no_char hyphen t = true)); trivial].
      split; [discriminate|].
      intros [(-> & _ & Hc)|(-> & Hlt & _)]; [|lia].
      rewrite compact_date_hyphen in Hc; [discriminate|].
      apply (nth_Forall (fun t => no_char hyphen t = true)); trivial.
    + rewrite nth_overflow by lia.
      replace (re_match ONE_TOKEN_DATE_RE "") with false by reflexivity.
      split; [discriminate|].
      intros [(-> & Hlt & _)|(-> & Hlt & _)]; lia.
Qed.

Lemma hit_none_no_span i :
  hit parts i = None -> forall j, ~ date_span parts i j.
Proof.
  intros H j Hs. apply hit_date_span in Hs. congruence.
Qed.

End PlainTokens.

(** *** [base_slug] on slugs without a line feed *)

Lemma split_plain slug :
  no_line_feed slug = true ->
  Forall (fun t => no_line_feed t = true) (split hyphen slug).
Proof.
  intros H. rewrite <- no_char_line_feed in H.
  apply (split_no_char line_feed hyphen) in H.
  eapply Forall_impl; [|exact H]. intros t Ht. now rewrite <- no_char_line_feed.
Qed.

Lemma date_span_bounds parts i j :
  date_span parts i j -> (i <= j)%nat /\ (j < List.length parts)%nat.
Proof. intros [(-> & H & _)|(-> & H & _)]; lia. Qed.

(** On a slug without a line feed [base_slug] cuts after the rightmost
    date span, and leaves a slug without a span as it is. *)
Theorem base_slug_plain (slug : string) :
  no_line_feed slug = true ->
  (forall i j, last_date_span (split hyphen slug) i j ->
     base_slug slug = join "-" (firstn (j + 1) (split hyphen slug)))
  /\ ((forall i j, ~ date_span (split hyphen slug) i j) -> base_slug slug = slug).
Proof.
  intros Hlf.
  pose proof (split_plain slug Hlf) as Hnl.
  pose proof (split_no_sep hyphen slug) as Hnh.
  split.
  - intros i j [Hs Hmax].
    pose proof (date_span_bounds _ _ _ Hs) as [Hij Hj].
    destruct slug as [|c r].
    { destruct Hs as [(_ & _ & H)|(_ & H & _)]; simpl in H; [|lia].
      destruct i as [|[|i]]; discriminate. }
    unfold base_slug.
    destruct (_find_last_date_span (split hyphen (String c r))) as [[i0 j0]|] eqn:E.
    + apply find_last_some in E as (Hi0 & Hh & Hafter).
      pose proof (proj1 (hit_date_span _ Hnl Hnh i0 j0) Hh) as Hs0.
      pose proof (Hmax _ _ Hs0) as Hle.
      assert (i0 = i) as ->.
      { destruct (Nat.eq_dec i0 i) as [|Hne]; [assumption|].
        assert (hit (split hyphen (String c r)) i = None) as Hn
            by (apply Hafter; lia).
        apply (proj2 (hit_date_span _ Hnl Hnh i j)) in Hs. congruence. }
      apply (proj2 (hit_date_span _ Hnl Hnh i j)) in Hs.
      rewrite Hs in Hh. now injection Hh as <-.
    + exfalso. apply (proj2 (hit_date_span _ Hnl Hnh i j)) in Hs.
      rewrite (find_last_none _ E i) in Hs; [discriminate|lia].
  - intros Hno. destruct slug as [|c r]; [reflexivity|]. unfold base_slug.
    destruct (_find_last_date_span (split hyphen (String c r))) as [[i0 j0]|] eqn:E;
      [|reflexivity].
    apply find_last_some in E as (_ & Hh & _).
    apply (proj1 (hit_date_span _ Hnl Hnh i0 j0)) in Hh. now apply Hno in Hh.
Qed.

(** *** Appending tokens *)

Lemma hit_tokens parts i :
  Forall (fun t => no_char hyphen t = true) parts ->
  hit parts i = if three_token_date parts i then Some (i, i + 2)%nat else None.
Proof.
  intros H. unfold hit. destruct (three_token_date parts i); [reflexivity|].
  destruct (Nat.lt_ge_cases i (List.length parts)) as [Hi|Hi].
  - rewrite one_token_re_hyphen; [reflexivity|].
    now apply (nth_Forall (fun t => no_char hyphen t = true)).
  - now rewrite nth_overflow by lia.
Qed.

Lemma three_token_date_app parts sfx i :
  (i + 2 < List.length parts)%nat ->
  three_token_date (parts ++ sfx) i = three_token_date parts i.
Proof.
  intros H. unfold three_token_date. rewrite length_app.
  rewrite !app_nth1 by lia.
  destruct (Nat.ltb_spec (i + 2) (List.length parts)); [|lia].
  destruct (Nat.ltb_spec (i + 2) (List.length parts + List.length sfx)); [|lia].
  reflexivity.
Qed.

Lemma three_token_date_bound parts i :
  three_token_date parts i = true -> (i + 2 < List.length parts)%nat.
Proof.
  unfold three_token_date. destruct (Nat.ltb_spec (i + 2) (List.length parts));
    [trivial|discriminate].
Qed.

Lemma completes_no_date_spec parts sfx :
  completes_no_date parts sfx = true ->
  forall i, three_token_date (parts ++ sfx) i = true -> (i + 2 < List.length parts)%nat.
Proof.
  unfold completes_no_date. rewrite forallb_forall. intros H i Hi.
  pose proof (three_token_date_bound _ _ Hi) as Hb.
  specialize (H i ltac:(apply in_seq; lia)). rewrite Hi in H. simpl in H.
  rewrite orb_false_r in H. now apply Nat.ltb_lt in H.
Qed.

Lemma last_span_app parts sfx i0 j0 :
  Forall (fun t => no_char hyphen t = true) parts ->
  Forall (fun t => no_char hyphen t = true) sfx ->
  completes_no_date parts sfx = true ->
  _find_last_date_span parts = Some (i0, j0) ->
  _find_last_date_span (parts ++ sfx) = Some (i0, j0)
  /\ (j0 < List.length parts)%nat.
Proof.
  intros Hp Hs Hc E.
  assert (Forall (fun t => no_char hyphen t = true) (parts ++ sfx)) as Hps
      by (apply Forall_app; split; assumption).
  apply find_last_some in E as (Hi0 & Hh & Hafter).
  rewrite hit_tokens in Hh by assumption.
  destruct (three_token_date parts i0) eqn:T0; [|discriminate].
  injection Hh as <-. pose proof (three_token_date_bound _ _ T0) as Hb0.
  split; [|lia].
  assert (three_token_date (parts ++ sfx) i0 = true) as T0'
      by (rewrite three_token_date_app; assumption).
  destruct (find_last_finds (parts ++ sfx) i0) as (i1 & j1 & E1).
  { rewrite length_app. lia. }
  { rewrite hit_tokens, T0' by assumption. discriminate. }
  rewrite E1. apply find_last_some in E1 as (Hi1 & Hh1 & Hafter1).
  rewrite hit_tokens in Hh1 by assumption.
  destruct (three_token_date (parts ++ sfx) i1) eqn:T1; [|discriminate].
  injection Hh1 as <-.
  pose proof (completes_no_date_spec _ _ Hc _ T1) as Hb1.
  rewrite three_token_date_app in T1 by assumption.
  assert (i1 = i0) as ->; [|reflexivity].
  destruct (Nat.lt_trichotomy i1 i0) as [Hlt|[->|Hgt]]; [|reflexivity|].
  - specialize (Hafter1 i0 ltac:(rewrite length_app; lia)).
    rewrite hit_tokens, T0' in Hafter1 by assumption. discriminate.
  - specialize (Hafter i1 ltac:(lia)).
    rewrite hit_tokens, T1 in Hafter by assumption. discriminate.
Qed.

Lemma has_date_span_false parts :
  has_date_span parts = false -> forall i j, ~ date_span parts i j.
Proof.
  unfold has_date_span. intros H i j Hs.
  pose proof (date_span_bounds _ _ _ Hs) as [Hij Hj].
  assert (existsb (span_at parts) (seq 0 (List.length parts)) = true) as Ht;
    [|congruence].
  apply existsb_exists. exists i. split; [apply in_seq; lia|].
  unfold span_at. destruct Hs as [(-> & Hi & Hc)|(-> & Hlt & Hy & Hm & Hd)].
  - rewrite Hc. apply Nat.ltb_lt in Hi. rewrite Hi. reflexivity.
  - apply Nat.ltb_lt in Hlt. rewrite Hlt, Hy, Hm, Hd. apply orb_true_r.
Qed.

(** The outcome markets of one day share a key; the anchor is the last
    date; an invalid month is no date. *)
Example base_slug_outcomes :
  base_slug "event-2025-06-01-yes" = "event-2025-06-01"
  /\ base_slug "event-2025-06-01-no" = "event-2025-06-01"
  /\ base_slug "election-2025-06-01-results-2025-06-02"
     = "election-2025-06-01-results-2025-06-02"
  /\ base_slug "vote-2025-13-01-yes" = "vote-2025-13-01-yes"
  /\ base_slug "" = "".
Proof. repeat split; reflexivity. Qed.

(** C1, at a slug whose day token ends in a line feed: no token triple is
    a year, a two-digit month and a two-digit day, and still [base_slug]
    cuts the slug after the token [01] followed by the line feed, because
    [$] of [DAY_RE] also matches just before a final line feed. *)
Theorem base_slug_line_feed_token :
  has_date_span (split hyphen line_feed_slug) = false
  /\ base_slug line_feed_slug = ("a-2025-06-01" ++ String line_feed "")%string
  /\ String.eqb (base_slug line_feed_slug) line_feed_slug = false.
Proof. repeat split; vm_compute; reflexivity. Qed.

(** C4, amended: when the slug has a date span and the appended tokens
    complete no further date, the key of the extended slug is the key of the
    slug. *)
Theorem base_slug_suffix (slug ext : string) (i : nat) :
  three_token_date (split hyphen slug) i = true ->
  completes_no_date (split hyphen slug) (split hyphen ext) = true ->
  base_slug (slug ++ "-" ++ ext) = base_slug slug.
Proof.
  intros Hi Hc.
  pose proof (split_no_sep hyphen slug) as Hp.
  pose proof (split_no_sep hyphen ext) as Hs.
  pose proof (three_token_date_bound _ _ Hi) as Hb.
  destruct (find_last_finds (split hyphen slug) i) as (i0 & j0 & E).
  { lia. }
  { rewrite hit_tokens, Hi by assumption. discriminate. }
  destruct (last_span_app _ _ _ _ Hp Hs Hc E) as [E' Hj].
  destruct slug as [|c r]; [simpl in Hb; lia|].
  change (String c r ++ "-" ++ ext)%string
    with (String c (r ++ String hyphen ext)%string).
  unfold base_slug.
  change (String c (r ++ String hyphen ext)%string)
    with (String c r ++ String hyphen ext)%string.
  rewrite split_app, E, E'.
  rewrite firstn_app.
  replace (j0 + 1 - List.length (split hyphen (String c r)))%nat with 0%nat by lia.
  simpl firstn at 2. now rewrite app_nil_r.
Qed.

Lemma base_slug_suffix_witness :
  base_slug ("event-2025-06-01" ++ "-" ++ "yes-or-no") = base_slug "event-2025-06-01".
Proof. apply (base_slug_suffix _ _ 1%nat); reflexivity. Defined.

(** C4 as stated fails when the appended tokens are a date themselves. *)
Lemma base_slug_suffix_date :
  three_token_date (split hyphen "e-2025-06-01") 1 = true
  /\ base_slug "e-2025-06-01" = "e-2025-06-01"
  /\ base_slug ("e-2025-06-01" ++ "-" ++ "2026-01-02") = "e-2025-06-01-2026-01-02"
  /\ String.eqb (base_slug ("e-2025-06-01" ++ "-" ++ "2026-01-02"))
       (base_slug "e-2025-06-01") = false.
Proof. repeat split; vm_compute; reflexivity. Qed.

End SlugFacts.

(** ** The fetcher *)

Module FetchFacts.
Import Fetch FetchSpec.

Lemma non_2xx_attempt_fails (r : response) :
  is_2xx (status_code r) = false -> attempt_fails (Answered r) = true.
Proof.
  intros H. unfold attempt_fails, attempt. rewrite H.
  destruct (retryable_status (status_code r)); [reflexivity|].
  destruct (raise_for_status r); reflexivity.
Qed.

(** A retryable status and any other status outside 2xx end the attempt
    without a value: each uses up one attempt. *)
Lemma slot_lost (o : http_outcome) :
  attempt_fails o = true
  \/ (exists r, o = Answered r /\ is_2xx (status_code r) = false) ->
  forall v, attempt o <> Returned v.
Proof.
  intros [H|(r & -> & H)] v E.
  - unfold attempt_fails in H. rewrite E in H. discriminate.
  - apply non_2xx_attempt_fails in H. unfold attempt_fails in H.
    rewrite E in H. discriminate.
Qed.

Lemma get_json_loop_exhausts net req : forall attempts last_error w,
  (forall k, (requests_made w <= k < requests_made w + List.length attempts)%nat ->
             forall v, attempt (net req k) <> Returned v) ->
  exists w',
    get_json_loop net req attempts last_error w
    = (Raise (get_failed
                (last_observed net req (requests_made w) (List.length attempts)
                   last_error)), w')
    /\ requests_made w' = (requests_made w + List.length attempts)%nat.
Proof.
  induction attempts as [|k rest IH]; intros last_error w H.
  - exists w. simpl. split; [reflexivity|lia].
  - cbn [get_json_loop List.length last_observed]. unfold observed_error.
    pose proof (H (requests_made w) ltac:(simpl; lia)) as Hnow.
    destruct (attempt (net req (requests_made w))) as [v|e|] eqn:E.
    + now contradiction (Hnow v).
    + destruct (IH (Some e) (sleep (BACKOFF ^ Z.of_nat (k - 1)) (sent w)))
        as (w' & Hr & Hn).
      { simpl. intros j Hj. apply H. simpl. lia. }
      exists w'. simpl in Hr, Hn. rewrite Hr. split; [reflexivity|]. simpl. lia.
    + destruct (IH last_error (sent w)) as (w' & Hr & Hn).
      { simpl. intros j Hj. apply H. simpl. lia. }
      exists w'. simpl in Hr, Hn. rewrite Hr. split; [reflexivity|]. simpl. lia.
Qed.

Lemma observed_error_raised (o : http_outcome) :
  observed_error o = error_raised o.
Proof.
  destruct o as [[st txt body rfs]|e]; [|reflexivity].
  unfold observed_error, attempt, error_raised, is_2xx, retryable_status.
  cbn [status_code text json_body raise_for_status existsb].
  destruct (Z.eqb_spec st 408) as [->|]; [reflexivity|].
  destruct (Z.eqb_spec st 429) as [->|]; [reflexivity|].
  destruct (Z.eqb_spec st 500) as [->|]; [reflexivity|].
  destruct (Z.eqb_spec st 502) as [->|]; [reflexivity|].
  destruct (Z.eqb_spec st 503) as [->|]; [reflexivity|].
  destruct (Z.eqb_spec st 504) as [->|]; [reflexivity|].
  cbn [orb andb].
  destruct (Z.leb_spec 200 st), (Z.ltb_spec st 300), (Z.ltb_spec st 200),
    (Z.leb_spec 300 st); cbn [orb andb]; try lia;
    try (destruct rfs; reflexivity); destruct body; reflexivity.
Qed.

Lemma last_observed_raised (net : transport) (req : request) :
  forall n k0 before,
    last_observed net req k0 n before
    = match last_raised (map (net req) (seq k0 n)) with
      | Some e => Some e
      | None => before
      end.
Proof.
  induction n as [|n IH]; intros k0 before; [reflexivity|].
  cbn [last_observed seq map last_raised]. rewrite IH, observed_error_raised.
  destruct (last_raised (map (net req) (seq (S k0) n))); [reflexivity|].
  destruct (error_raised (net req k0)); reflexivity.
Qed.

Lemma fails_no_value (o : http_outcome) :
  fails o -> forall v, attempt o <> Returned v.
Proof.
  destruct o as [r|e]; [|discriminate]. unfold fails, attempt, is_2xx.
  intros [H|[H|(e & H)]] v.
  - destruct (Z.leb_spec 200 (status_code r)); [lia|]. cbn [andb].
    destruct (retryable_status _); [discriminate|].
    destruct (raise_for_status r); discriminate.
  - destruct (Z.ltb_spec (status_code r) 300); [lia|].
    rewrite andb_false_r.
    destruct (retryable_status _); [discriminate|].
    destruct (raise_for_status r); discriminate.
  - rewrite H. destruct (_ && _); [discriminate|].
    destruct (retryable_status _); [discriminate|].
    destruct (raise_for_status r); discriminate.
Qed.

(** C8: when each of the [MAX_RETRIES] attempts fails, by a request that
    raises, a status outside 2xx, retryable or not, or a body that does
    not decode, [_get_json] sends exactly [MAX_RETRIES] requests and
    raises a [RuntimeError] whose message is the text of the terminal
    failure followed by the text of the last error that an attempt
    raised: the error of a status that is not retryable is caught and
    wrapped like any other. *)
Theorem get_json_exhausts (net : transport) (url : string)
    (params : list (string * json)) (w : world) :
  (forall k, (requests_made w <= k < requests_made w + MAX_RETRIES)%nat ->
     fails (net (Request url params) k)) ->
  exists w',
    _get_json net url params w
    = (Raise (Exn RuntimeError
                ("GET failed after 5 attempts: "
                 ++ match last_raised
                            (map (net (Request url params))
                               (seq (requests_made w) MAX_RETRIES)) with
                    | Some e => exn_str e
                    | None => "None"
                    end)), w')
    /\ requests_made w' = (requests_made w + MAX_RETRIES)%nat.
Proof.
  intros H. unfold _get_json.
  destruct (get_json_loop_exhausts net (Request url params) (seq 1 MAX_RETRIES)
              None w) as (w' & Hr & Hn).
  - rewrite length_seq. intros k Hk. apply fails_no_value, H, Hk.
  - rewrite length_seq in Hr, Hn. exists w'. split; [|exact Hn].
    rewrite Hr, last_observed_raised. unfold get_failed, str_of_error.
    destruct (last_raised _); reflexivity.
Qed.

Lemma get_json_exhausts_witness :
  exists w',
    _get_json not_found "u" [] (World 0 [])
    = (Raise (Exn RuntimeError
                "GET failed after 5 attempts: 404 Client Error: Not Found"), w')
    /\ requests_made w' = 5%nat.
Proof.
  apply (get_json_exhausts not_found "u" [] (World 0 [])).
  intros k _. right. left. simpl. lia.
Defined.

(** The message of that failure under a constant 404. *)
Example get_json_not_found :
  fst (_get_json not_found "u" [] (World 0 []))
  = Raise (Exn RuntimeError
             "GET failed after 5 attempts: 404 Client Error: Not Found").
Proof. reflexivity. Qed.

End FetchFacts.

(** ** Pagination *)

Module PaginateFacts.
Import Fetch Paginate PaginateSpec.

Lemma window_filter_unbounded : forall items trades,
  Forall (fun t => Py.isinstance_dict t = true) items ->
  window_filter None items trades = Ok (trades ++ items).
Proof.
  induction items as [|t rest IH]; intros trades H; simpl.
  - now rewrite app_nil_r.
  - inversion H as [|? ? Ht Hrest]; subst.
    destruct t; try discriminate. simpl.
    rewrite IH by assumption. now rewrite <- app_assoc.
Qed.

Lemma window_filter_bounded bound : forall items trades,
  Forall (fun t => Py.isinstance_dict t = true) items ->
  window_filter (Some bound) items trades
  = Ok (trades ++ filter (kept_by_window bound) items).
Proof.
  induction items as [|t rest IH]; intros trades H; simpl.
  - now rewrite app_nil_r.
  - inversion H as [|? ? Ht Hrest]; subst.
    destruct t as [| | | | |fields]; try discriminate. simpl.
    rewrite IH by assumption.
    destruct (Py.lookup "timestamp" fields) as [ts|]; simpl.
    + destruct (Py.as_number ts) as [x|]; [|reflexivity].
      destruct (Qle_bool (inject_Z bound) x); [|reflexivity].
      now rewrite <- app_assoc.
    + reflexivity.
Qed.

Lemma kept_by_window_timestamp (bound : Z) (t : json) :
  kept_by_window bound t = timestamp_not_below bound t.
Proof.
  destruct t as [| | | | |fields]; try reflexivity. simpl.
  destruct (Py.lookup "timestamp" fields) as [[|[|]|x| | |]|]; try reflexivity;
    simpl; unfold Qle_bool; simpl; now rewrite Z.mul_1_r.
Qed.

(** C9: with a bound the window keeps exactly the records whose timestamp
    is a number not below it, in the order received, and drops the records
    whose timestamp is missing or not a number like those below the bound;
    without a bound it keeps every record. *)
Theorem window_filter_keeps (bound : Z) (items trades : list json) :
  Forall (fun t => Py.isinstance_dict t = true) items ->
  window_filter (Some bound) items trades
  = Ok (trades ++ filter (timestamp_not_below bound) items)
  /\ window_filter None items trades = Ok (trades ++ items).
Proof.
  intros H. split; [|now apply window_filter_unbounded].
  rewrite window_filter_bounded by assumption. do 2 f_equal.
  apply filter_ext. intros t. apply kept_by_window_timestamp.
Qed.

Lemma window_filter_keeps_witness :
  window_filter (Some 1735689600%Z)
    [JObj [("timestamp", JNum (inject_Z 1735689600))];
     JObj [("timestamp", JStr "1735689601")];
     JObj [("price", JNum 1)];
     JObj [("timestamp", JNum 5)];
     JObj [("timestamp", JNull)];
     JObj [("timestamp", JBool true)];
     JObj [("timestamp", JNum (3471379201 # 2))]] []
  = Ok [JObj [("timestamp", JNum (inject_Z 1735689600))];
        JObj [("timestamp", JNum (3471379201 # 2))]]
  /\ window_filter None
       [JObj [("timestamp", JNum (inject_Z 1735689600))];
        JObj [("timestamp", JStr "1735689601")];
        JObj [("price", JNum 1)];
        JObj [("timestamp", JNum 5)];
        JObj [("timestamp", JNull)];
        JObj [("timestamp", JBool true)];
        JObj [("timestamp", JNum (3471379201 # 2))]] []
     = Ok [JObj [("timestamp", JNum (inject_Z 1735689600))];
           JObj [("timestamp", JStr "1735689601")];
           JObj [("price", JNum 1)];
           JObj [("timestamp", JNum 5)];
           JObj [("timestamp", JNull)];
           JObj [("timestamp", JBool true)];
           JObj [("timestamp", JNum (3471379201 # 2))]].
Proof.
  apply (window_filter_keeps 1735689600
           [JObj [("timestamp", JNum (inject_Z 1735689600))];
            JObj [("timestamp", JStr "1735689601")];
            JObj [("price", JNum 1)];
            JObj [("timestamp", JNum 5)];
            JObj [("timestamp", JNull)];
            JObj [("timestamp", JBool true)];
            JObj [("timestamp", JNum (3471379201 # 2))]] []).
  repeat constructor.
Defined.

(** With a bound above 1 a record that is kept has a timestamp that is a
    number in the narrow sense, not a [bool]. *)
Lemma kept_by_window_number (bound : Z) (t : json) :
  (1 < bound)%Z -> kept_by_window bound t = true ->
  exists fields x,
    t = JObj fields /\ Py.lookup "timestamp" fields = Some (JNum x)
    /\ (inject_Z bound <= x)%Q.
Proof.
  intros Hb H. destruct t as [| | | | |fields]; try discriminate.
  simpl in H. destruct (Py.lookup "timestamp" fields) as [ts|] eqn:E;
    [|discriminate].
  destruct ts as [|[|]|x| | |]; simpl in H; try discriminate.
  - apply Qle_bool_iff in H. unfold Qle in H. simpl in H. lia.
  - apply Qle_bool_iff in H. unfold Qle in H. simpl in H. lia.
  - exists fields, x. split; [reflexivity|]. split; [exact E|].
    now apply Qle_bool_iff.
Qed.

Lemma get_json_always (v : json) (url : string) (params : list (string * json))
    (w : world) :
  _get_json (always v) url params w = (Ok v, sent w).
Proof. reflexivity. Qed.

(** The three listings, whole, on a network that always answers with a
    value they read as no records: they end after one request with nothing
    gathered. *)
Lemma listings_end_without_records (ud : unicodedata) (query closed_flag
    condition_id : string) (tag_id : Z) (start_ts : option Z) (fuel : nat)
    (w : world) (v : json) :
  (without_data v = true ->
     find_tags_by_query (S fuel) (always v) ud query w = Some (Ok [], sent w)
     /\ fetch_markets_by_tag (S fuel) (always v) tag_id closed_flag w
        = Some (Ok [], sent w))
  /\ (without_true_data v = true ->
        fetch_trades_for_market (S fuel) (always v) start_ts condition_id w
        = Some (Ok [], sent w)).
Proof.
  split; intros H.
  - assert (listing_data v = JArr []) as Hd.
    { destruct v as [| | | | |fields]; try discriminate; try reflexivity.
      simpl in H |- *. now destruct (Py.lookup "data" fields). }
    unfold find_tags_by_query, fetch_markets_by_tag, _norm.
    destruct (Py.truthy (JStr query));
      cbn [while_true tags_body markets_body];
      rewrite (get_json_always v URL_TAGS), (get_json_always v URL_MARKETS);
      unfold tags_page, markets_page; rewrite Hd; split; reflexivity.
  - unfold fetch_trades_for_market. cbn [while_true]. unfold trades_body.
    rewrite (get_json_always v URL_TRADES). unfold trades_page.
    destruct v as [|b|x|s|items|fields]; simpl in H |- *;
      try (rewrite H; reflexivity); try reflexivity.
    destruct (Py.lookup "data" fields) as [d|]; [rewrite H|]; reflexivity.
Qed.

(** C7 as stated fails: an object whose [data] is a number is not of an
    accepted shape and makes the tag and market listings raise; a bare
    number is not of an accepted shape and makes the trade listing raise. *)
Lemma unexpected_shape_raises :
  accepted_shape (JObj [("data", JNum 7)]) = false
  /\ tags_page ascii_unicodedata "x" [] 0 (JObj [("data", JNum 7)])
     = Raise (Exn TypeError "'int' object is not iterable")
  /\ markets_page [] 0 (JObj [("data", JNum 7)])
     = Raise (Exn TypeError "'int' object is not iterable")
  /\ trades_page START_TS first_trades_state (JObj [("data", JNum 7)])
     = Raise (Exn TypeError "'int' object is not iterable")
  /\ accepted_shape (JNum 7) = false
  /\ trades_page START_TS first_trades_state (JNum 7)
     = Raise (Exn TypeError "'int' object is not iterable")
  /\ find_tags_by_query 1 (always (JObj [("data", JNum 7)])) ascii_unicodedata
       "x" (World 0 [])
     = Some (Raise (Exn TypeError "'int' object is not iterable"), World 1 [])
  /\ fetch_markets_by_tag 1 (always (JObj [("data", JNum 7)])) 42 "false"
       (World 0 [])
     = Some (Raise (Exn TypeError "'int' object is not iterable"), World 1 [])
  /\ fetch_trades_for_market 1 (always (JNum 7)) START_TS "0xc" (World 0 [])
     = Some (Raise (Exn TypeError "'int' object is not iterable"), World 1 []).
Proof. repeat split; reflexivity. Qed.

(** C7, amended: a response that is neither an array nor an object, or an
    object without a [data] field, ends the tag and the market listing with
    what was gathered, as an empty page does; a response that is a false
    value, or an object whose [data] is absent or a false value, ends the
    trade listing in the same way. *)
Theorem unexpected_shape_tolerated (ud : unicodedata) (q : string)
    (out : list json) (offset : nat) (start_ts : option Z) (st : trades_state)
    (v : json) :
  accepted_shape v = false ->
  (without_data v = true ->
     tags_page ud q out offset v = Ok (Break out)
     /\ tags_page ud q out offset v = tags_page ud q out offset (JArr [])
     /\ markets_page out offset v = Ok (Break out)
     /\ markets_page out offset v = markets_page out offset (JArr []))
  /\ (without_true_data v = true ->
        trades_page start_ts st v = Ok (Break (trades st))
        /\ trades_page start_ts st v = trades_page start_ts st (JArr [])).
Proof.
  intros _. split.
  - intros H. unfold tags_page, markets_page, listing_data.
    destruct v as [| | | | |fields]; try discriminate;
      simpl; rewrite ?app_nil_r; auto.
    simpl in H. destruct (Py.lookup "data" fields); [discriminate|].
    simpl. rewrite ?app_nil_r; auto.
  - intros H. unfold trades_page.
    destruct v as [|b|x|s|items|fields]; simpl in H |- *.
    + auto.
    + rewrite H. auto.
    + rewrite H. auto.
    + rewrite H. auto.
    + rewrite H. auto.
    + destruct (Py.lookup "data" fields) as [d|]; [rewrite H|]; auto.
Qed.

Lemma unexpected_shape_tolerated_witness :
  accepted_shape JNull = false
  /\ tags_page ascii_unicodedata "x" [] 0 JNull = Ok (Break [])
  /\ markets_page [] 0 JNull = Ok (Break [])
  /\ trades_page START_TS first_trades_state JNull = Ok (Break []).
Proof.
  destruct (unexpected_shape_tolerated ascii_unicodedata "x" [] 0 START_TS
              first_trades_state JNull eq_refl) as [Hl Ht].
  destruct (Hl eq_refl) as (H1 & _ & H2 & _). destruct (Ht eq_refl) as (H3 & _).
  repeat split; assumption.
Defined.

End PaginateFacts.

(** ** Trade metrics *)

Module MetricsFacts.
Import Metrics MetricsSpec.
Local Open Scope Q_scope.

(** *** Guards of the divisions *)

Lemma of_nat_zero_test (n : nat) : Qeq_bool (of_nat n) 0 = (n =? 0)%nat.
Proof.
  unfold of_nat, Qeq_bool. simpl. rewrite Z.mul_1_r.
  destruct n; [reflexivity|]. simpl. reflexivity.
Qed.

Lemma inject_Z_zero_test (z : Z) : Qeq_bool (inject_Z z) 0 = (z =? 0)%Z.
Proof. unfold Qeq_bool. simpl. now rewrite Z.mul_1_r. Qed.

Lemma guarded_nat (a : Q) (n : nat) :
  (if (n =? 0)%nat then Ok 0 else Py.div a (of_nat n))
  = Ok (guarded_div a (of_nat n)).
Proof.
  unfold Py.div, guarded_div. rewrite of_nat_zero_test.
  destruct (n =? 0)%nat; reflexivity.
Qed.

Lemma guarded_Z (a : Q) (z : Z) :
  (if (z =? 0)%Z then Ok 0 else Py.div a (inject_Z z))
  = Ok (guarded_div a (inject_Z z)).
Proof.
  unfold Py.div, guarded_div. rewrite inject_Z_zero_test.
  destruct (z =? 0)%Z; reflexivity.
Qed.

(** The bundle of a list that is not empty, in closed form: no division
    raises. *)
Lemma compute_metrics_cons (t : Trade) (ts : list Trade) :
  let trades := t :: ts in
  let total := sum (map usd trades) in
  let n := List.length (map usd trades) in
  let traders := fold_left add_trader trades [] in
  let fl := fold_left track_ts trades (None, None) in
  let active := active_of (fst fl) (snd fl) in
  compute_metrics trades
  = Ok (mkBundle (List.length traders) n (Py.round6 total)
          (Py.round6 (guarded_div total (of_nat n)))
          (Py.round6 (guarded_div total (of_nat (List.length traders))))
          (Py.round6 (guarded_div (of_nat n) (inject_Z active)))
          (Py.round6 (min_or_zero (map usd trades)))
          (Py.round6 (max_or_zero (map usd trades)))
          active traders).
Proof.
  intros trades total n traders fl active.
  unfold compute_metrics, trades.
  fold trades. fold total. fold n. fold traders. fold fl. fold active.
  rewrite (guarded_nat total n), (guarded_nat total (List.length traders)),
    (guarded_Z (of_nat n) active).
  reflexivity.
Qed.

Lemma round6_zero : Py.round6 0 = 0.
Proof. reflexivity. Qed.

Lemma guarded_div_zero (a b : Q) : b == 0 -> guarded_div a b = 0.
Proof.
  intros H. unfold guarded_div.
  apply Qeq_bool_iff in H. now rewrite H.
Qed.

Lemma compute_metrics_returns (trades : list Trade) :
  exists b, compute_metrics trades = Ok b.
Proof.
  destruct trades as [|t ts]; [now exists zero_bundle|].
  eexists. apply compute_metrics_cons.
Qed.

(** C5: [compute_metrics] returns a bundle for every trade list, the zero
    bundle for the empty list, and every quotient is zero when its
    denominator is zero: no division raises. *)
Theorem compute_metrics_total (trades : list Trade) :
  exists b,
    compute_metrics trades = Ok b
    /\ (trades = [] ->
        b = zero_bundle /\ active_days b = 0%Z /\ avg_trades_per_day b = 0)
    /\ (total_trades b = 0%nat -> avg_trade_size_usd b = 0)
    /\ (traders_count b = 0%nat -> avg_volume_per_trader b = 0)
    /\ (active_days b = 0%Z -> avg_trades_per_day b = 0).
Proof.
  destruct trades as [|t ts].
  - exists zero_bundle. simpl. repeat split; reflexivity.
  - eexists. split; [apply compute_metrics_cons|].
    cbv zeta. cbn [total_trades traders_count active_days avg_trade_size_usd
                   avg_volume_per_trader avg_trades_per_day].
    split; [discriminate|]. repeat split.
    + intros H. rewrite H. reflexivity.
    + intros H. rewrite H. reflexivity.
    + intros H. rewrite H. reflexivity.
Qed.


(** *** Rounding is monotone *)

Lemma round_half_even_range (q : Q) :
  (Qfloor q <= Py.round_half_even q <= Qfloor q + 1)%Z.
Proof.
  unfold Py.round_half_even.
  destruct (q - inject_Z (Qfloor q) ?= 1 # 2); [destruct (Z.even (Qfloor q))| |]; lia.
Qed.

Lemma round_half_even_le (x y : Q) :
  x <= y -> (Py.round_half_even x <= Py.round_half_even y)%Z.
Proof.
  intros Hxy. pose proof (Qfloor_resp_le _ _ Hxy) as Hf.
  destruct (Z.eq_dec (Qfloor x) (Qfloor y)) as [E|NE].
  - unfold Py.round_half_even. rewrite <- E.
    assert (x - inject_Z (Qfloor x) <= y - inject_Z (Qfloor x)) as Hr.
    { apply Qplus_le_compat; [assumption|apply Qle_refl]. }
    destruct (Qcompare_spec (x - inject_Z (Qfloor x)) (1 # 2)) as [Ex|Lx|Gx];
      destruct (Qcompare_spec (y - inject_Z (Qfloor x)) (1 # 2)) as [Ey|Ly|Gy];
      try (destruct (Z.even (Qfloor x)); lia);
      exfalso.
    + rewrite Ex in Hr. exact (Qlt_not_le _ _ Ly Hr).
    + rewrite Ey in Hr. exact (Qlt_not_le _ _ Gx Hr).
    + apply (Qlt_not_le _ _ Gx). eapply Qle_trans; [exact Hr|].
      now apply Qlt_le_weak.
  - pose proof (round_half_even_range x). pose proof (round_half_even_range y). lia.
Qed.

Lemma round6_le (x y : Q) : x <= y -> Py.round6 x <= Py.round6 y.
Proof.
  intros H. unfold Py.round6. rewrite !Qred_correct.
  apply Qmult_le_compat_r; [|discriminate].
  rewrite <- Zle_Qle. apply round_half_even_le.
  apply Qmult_le_compat_r; [assumption|discriminate].
Qed.

Lemma round6_nonneg (x : Q) : 0 <= x -> 0 <= Py.round6 x.
Proof. intros H. apply (round6_le 0 x H). Qed.

(** *** Notionals, extrema, traders, days *)

Lemma sum_from_nonneg : forall (vals : list Q) (acc : Q),
  Forall (fun v => 0 <= v) vals -> 0 <= acc -> 0 <= fold_left Qplus vals acc.
Proof.
  induction vals as [|v r IH]; intros acc H Hacc; simpl; [assumption|].
  inversion H; subst. apply IH; [assumption|].
  change 0 with (0 + 0). now apply Qplus_le_compat.
Qed.

Lemma usd_nonneg (trades : list Trade) : Forall (fun v => 0 <= v) (map usd trades).
Proof.
  induction trades; simpl; constructor; [apply Qabs_nonneg|assumption].
Qed.

Lemma min_max_from : forall (vals : list Q) (lo hi : Q),
  Forall (fun v => 0 <= v) vals -> 0 <= lo -> lo <= hi ->
  0 <= min_from lo vals /\ min_from lo vals <= max_from hi vals.
Proof.
  induction vals as [|x r IH]; intros lo hi H Hlo Hle; simpl; [auto|].
  inversion H; subst. apply IH; [assumption| |].
  - destruct (Qlt_le_dec x lo); assumption.
  - destruct (Qlt_le_dec x lo) as [L|L], (Qlt_le_dec hi x) as [G|G].
    + apply Qle_refl.
    + assumption.
    + eapply Qle_trans; [exact Hle|now apply Qlt_le_weak].
    + assumption.
Qed.

Lemma min_max_or_zero (vals : list Q) :
  Forall (fun v => 0 <= v) vals ->
  0 <= min_or_zero vals /\ min_or_zero vals <= max_or_zero vals.
Proof.
  destruct vals as [|x r]; simpl; intros H.
  - split; apply Qle_refl.
  - inversion H; subst. apply min_max_from; [assumption|assumption|apply Qle_refl].
Qed.

Lemma set_add_length (a : string) (s : list string) :
  (List.length (set_add a s) <= S (List.length s))%nat.
Proof.
  induction s as [|b r IH]; simpl; [lia|].
  destruct (String.eqb b a); simpl; lia.
Qed.

Lemma traders_length : forall (trades : list Trade) (s : list string),
  (List.length (fold_left add_trader trades s)
   <= List.length s + List.length trades)%nat.
Proof.
  induction trades as [|t r IH]; intros s; simpl; [lia|].
  specialize (IH (add_trader s t)).
  assert (List.length (add_trader s t) <= S (List.length s))%nat.
  { unfold add_trader. destruct (addr t); [lia|apply set_add_length]. }
  lia.
Qed.

Lemma track_ts_ordered (fl : option Q * option Q) (tr : Trade) :
  ordered fl -> ordered (track_ts fl tr).
Proof.
  destruct fl as [[f|] [l|]]; simpl; try contradiction; intros H;
    unfold track_ts; destruct (Py.as_number (timestamp tr)) as [ts|]; simpl; trivial.
  - destruct (Qlt_le_dec ts f) as [A|A], (Qlt_le_dec l ts) as [B|B];
      solve [apply Qle_refl|assumption].
  - apply Qle_refl.
Qed.

Lemma fold_track_ordered : forall trades fl,
  ordered fl -> ordered (fold_left track_ts trades fl).
Proof.
  induction trades as [|t r IH]; intros fl H; simpl; [assumption|].
  apply IH, track_ts_ordered, H.
Qed.

Lemma int_nonneg (q : Q) : 0 <= q -> (0 <= Py.int q)%Z.
Proof.
  intros H. unfold Py.int. apply Z.quot_pos; [|lia].
  unfold Qle in H. simpl in H. lia.
Qed.

Lemma active_of_nonneg (fl : option Q * option Q) :
  ordered fl -> (0 <= active_of (fst fl) (snd fl))%Z.
Proof.
  destruct fl as [[f|] [l|]]; simpl; try lia. intros H.
  destruct (negb (Qeq_bool f 0) && negb (Qeq_bool l 0)); [|lia].
  assert (0 <= (l - f) / inject_Z 86400) as Hq.
  { apply Qle_shift_div_l; [reflexivity|]. rewrite Qmult_0_l.
    now apply -> Qle_minus_iff. }
  pose proof (int_nonneg _ Hq). lia.
Qed.

(** C10: in the bundle of every trade list the least trade size is between
    zero and the greatest one, there are no more traders than trades, and
    the volume, the two counts and the active days are not negative. *)
Theorem compute_metrics_bounds (trades : list Trade) :
  exists b,
    compute_metrics trades = Ok b
    /\ 0 <= min_trade_size_usd b
    /\ min_trade_size_usd b <= max_trade_size_usd b
    /\ (traders_count b <= total_trades b)%nat
    /\ 0 <= total_volume_usd b
    /\ (0 <= total_trades b)%nat
    /\ (0 <= traders_count b)%nat
    /\ (0 <= active_days b)%Z.
Proof.
  destruct trades as [|t ts].
  - exists zero_bundle. simpl. repeat split; try apply Qle_refl; lia.
  - eexists. split; [apply compute_metrics_cons|].
    cbv zeta. cbn [min_trade_size_usd max_trade_size_usd traders_count
                   total_trades total_volume_usd active_days].
    pose proof (min_max_or_zero _ (usd_nonneg (t :: ts))) as [Hmin Hle].
    repeat split.
    + now apply round6_nonneg.
    + now apply round6_le.
    + rewrite length_map.
      pose proof (traders_length (t :: ts) []). simpl in *. lia.
    + apply round6_nonneg, sum_from_nonneg; [apply usd_nonneg|apply Qle_refl].
    + lia.
    + lia.
    + apply active_of_nonneg, fold_track_ordered. exact I.
Qed.

(** *** The active days *)

Lemma numeric_timestamps_cons (t : Trade) (r : list Trade) :
  numeric_timestamps (t :: r)
  = match Py.as_number (timestamp t) with
    | Some ts => ts :: numeric_timestamps r
    | None => numeric_timestamps r
    end.
Proof.
  unfold numeric_timestamps. simpl.
  destruct (Py.as_number (timestamp t)); reflexivity.
Qed.

Lemma fold_track_set : forall trades f l,
  fold_left track_ts trades (Some f, Some l)
  = (Some (min_from f (numeric_timestamps trades)),
     Some (max_from l (numeric_timestamps trades))).
Proof.
  induction trades as [|t r IH]; intros f l; [reflexivity|].
  rewrite numeric_timestamps_cons. simpl fold_left. unfold track_ts at 2.
  destruct (Py.as_number (timestamp t)) as [ts|];
    cbn [fst snd min_from max_from].
  - destruct (Qlt_le_dec ts f), (Qlt_le_dec l ts); apply IH.
  - apply IH.
Qed.

Lemma fold_track_unset : forall trades,
  fold_left track_ts trades (None, None)
  = (min_timestamp trades, max_timestamp trades).
Proof.
  unfold min_timestamp, max_timestamp.
  induction trades as [|t r IH]; [reflexivity|].
  rewrite numeric_timestamps_cons. simpl fold_left. unfold track_ts at 2.
  destruct (Py.as_number (timestamp t)) as [ts|]; cbn [fst snd].
  - apply fold_track_set.
  - apply IH.
Qed.

Lemma int_floor (q : Q) : 0 <= q -> Py.int q = Qfloor q.
Proof.
  intros H. unfold Py.int. destruct q as [n d]. simpl.
  apply Z.quot_div_nonneg; [|lia]. unfold Qle in H. simpl in H. lia.
Qed.

(** The active days that [compute_metrics] reports: the inclusive day span
    from the least to the greatest timestamp when neither of the two is
    zero, and zero when one of them is. *)
Lemma active_days_spec (trades : list Trade) (b : bundle) :
  compute_metrics trades = Ok b ->
  active_days b
  = match min_timestamp trades, max_timestamp trades with
    | Some lo, Some hi =>
        if Qeq_bool lo 0 || Qeq_bool hi 0 then 0%Z
        else (Qfloor ((hi - lo) / inject_Z 86400) + 1)%Z
    | _, _ => 0%Z
    end.
Proof.
  destruct trades as [|t ts]; [intros [= <-]; reflexivity|].
  pose proof (fold_track_ordered (t :: ts) (None, None) I) as Ho.
  rewrite compute_metrics_cons. cbv zeta.
  rewrite fold_track_unset in *. intros [= <-].
  cbn [active_days fst snd].
  destruct (min_timestamp (t :: ts)) as [lo|], (max_timestamp (t :: ts)) as [hi|];
    simpl in Ho; try contradiction; try reflexivity.
  unfold active_of, ts_truthy.
  destruct (Qeq_bool lo 0), (Qeq_bool hi 0); cbn [negb andb orb]; try reflexivity.
  rewrite int_floor; [reflexivity|].
  apply Qle_shift_div_l; [reflexivity|]. rewrite Qmult_0_l.
  now apply -> Qle_minus_iff.
Qed.

(** The single trade of the example at a timestamp other than zero. *)
Lemma single_trade_metrics (T : Q) :
  ~ T == 0 ->
  compute_metrics [example_trade T]
  = Ok (mkBundle 1 1 5 5 5 1 5 5 1 ["0xabc"%string]).
Proof.
  intros HT.
  destruct (compute_metrics_returns [example_trade T]) as (b & Hb).
  pose proof (active_days_spec _ _ Hb) as Ha.
  change (min_timestamp [example_trade T]) with (Some T) in Ha.
  change (max_timestamp [example_trade T]) with (Some T) in Ha.
  cbv beta iota in Ha.
  assert (Qeq_bool T 0 = false) as Hz.
  { destruct (Qeq_bool T 0) eqn:E; [|reflexivity].
    apply Qeq_bool_iff in E. contradiction. }
  rewrite Hz in Ha. cbn [orb] in Ha.
  assert (Qfloor ((T - T) / inject_Z 86400) = 0%Z) as Hf.
  { rewrite (Qfloor_comp _ 0); [reflexivity|]. unfold Qminus.
    rewrite Qplus_opp_r. reflexivity. }
  rewrite Hf in Ha. change (0 + 1)%Z with 1%Z in Ha.
  rewrite Hb. rewrite compute_metrics_cons in Hb. cbv zeta in Hb.
  injection Hb as <-. cbn [active_days] in Ha. rewrite Ha.
  reflexivity.
Qed.

(** C2, at the single trade of the example with timestamp 0: a timestamp
    is present, and the bundle has no active day and no trade per day. *)
Theorem compute_metrics_epoch_trade :
  numeric_timestamps [example_trade 0] = [0]
  /\ compute_metrics [example_trade 0]
     = Ok (mkBundle 1 1 5 5 5 0 5 5 0 ["0xabc"%string]).
Proof. split; reflexivity. Qed.

End MetricsFacts.

(** ** Aggregation *)

Module AggregateFacts.
Import Metrics Aggregate AggregateSpec.

(** *** Grouping *)

Lemma find_setdefault (k b : string) (m : Market) : forall groups,
  find_group k (setdefault_append b m groups)
  = if String.eqb b k
    then Some match find_group b groups with
              | Some mkts => mkts ++ [m]
              | None => [m]
              end
    else find_group k groups.
Proof.
  induction groups as [|[k' mkts] rest IH]; simpl.
  - destruct (String.eqb b k); reflexivity.
  - destruct (String.eqb_spec k' b) as [->|Hne]; simpl.
    + destruct (String.eqb b k); reflexivity.
    + rewrite IH. destruct (String.eqb_spec k' k) as [->|Hk].
      * destruct (String.eqb_spec b k) as [->|]; [contradiction|reflexivity].
      * destruct (String.eqb_spec k' b); [contradiction|reflexivity].
Qed.

Lemma keys_setdefault (b : string) (m : Market) : forall groups,
  map fst (setdefault_append b m groups)
  = match find_group b groups with
    | Some _ => map fst groups
    | None => map fst groups ++ [b]
    end.
Proof.
  induction groups as [|[k' mkts] rest IH]; simpl; [reflexivity|].
  destruct (String.eqb k' b); simpl; [reflexivity|].
  rewrite IH. destruct (find_group b rest); reflexivity.
Qed.

Lemma find_group_none (k : string) : forall groups,
  find_group k groups = None -> ~ In k (map fst groups).
Proof.
  induction groups as [|[k' mkts] rest IH]; simpl; [tauto|].
  destruct (String.eqb_spec k' k); [discriminate|].
  intros H [E|HI]; [contradiction|]. now apply IH.
Qed.

Lemma find_group_in (k : string) (mkts : list Market) : forall groups,
  NoDup (map fst groups) -> In (k, mkts) groups -> find_group k groups = Some mkts.
Proof.
  induction groups as [|[k' ms] rest IH]; simpl; [tauto|].
  intros Hnd [E|HI].
  - injection E as -> ->. now rewrite String.eqb_refl.
  - inversion Hnd as [|? ? Hnot Hrest]; subst.
    destruct (String.eqb_spec k' k) as [->|]; [|now apply IH].
    exfalso. apply Hnot. now apply (in_map fst) in HI.
Qed.

Lemma group_of_app (a b : list Market) (k : string) :
  group_of (a ++ b) k = group_of a k ++ group_of b k.
Proof. apply filter_app. Qed.

Lemma fold_groups : forall markets seen groups,
  NoDup (map fst groups) ->
  (forall k, find_group k groups = some_if_any (group_of seen k)) ->
  let groups' :=
    fold_left (fun g m => setdefault_append (Slug.base_slug (slug m)) m g)
      markets groups in
  NoDup (map fst groups')
  /\ forall k, find_group k groups' = some_if_any (group_of (seen ++ markets) k).
Proof.
  induction markets as [|m rest IH]; intros seen groups Hnd Hfind; simpl.
  - rewrite app_nil_r. split; assumption.
  - replace (seen ++ m :: rest) with ((seen ++ [m]) ++ rest)
      by (now rewrite <- app_assoc).
    apply IH.
    + rewrite keys_setdefault.
      destruct (find_group (Slug.base_slug (slug m)) groups) eqn:E; [assumption|].
      apply NoDup_app; [assumption|repeat constructor; simpl; tauto|].
      intros x Hx [<-|[]]. revert Hx. now apply find_group_none.
    + intros k. rewrite find_setdefault, group_of_app. unfold group_of at 2.
      simpl. destruct (String.eqb_spec (Slug.base_slug (slug m)) k) as [->|Hne].
      * rewrite Hfind. destruct (group_of seen k); reflexivity.
      * rewrite app_nil_r. apply Hfind.
Qed.

(** The groups: one per key, each holding the markets of its key in input
    order, none empty. *)
Lemma group_markets_spec (markets : list Market) :
  NoDup (map fst (group_markets markets))
  /\ forall k mkts, In (k, mkts) (group_markets markets) ->
       mkts = group_of markets k /\ mkts <> [].
Proof.
  destruct (fold_groups markets [] [] (NoDup_nil _) (fun _ => eq_refl))
    as [Hnd Hfind].
  simpl in Hfind. split; [exact Hnd|].
  intros k mkts HI. pose proof (find_group_in k mkts _ Hnd HI) as E.
  unfold group_markets in E. rewrite Hfind in E.
  destruct (group_of markets k) eqn:G; simpl in E; [discriminate|].
  injection E as <-. split; [reflexivity|discriminate].
Qed.

(** *** The representative *)

Lemma max_from_by_split {A : Type} (key : A -> Q) : forall rest pre best mid,
  (forall x, In x pre -> (key x < key best)%Q) ->
  (forall x, In x mid -> (key x <= key best)%Q) ->
  exists pre' post',
    pre ++ best :: mid ++ rest = pre' ++ max_from_by key best rest :: post'
    /\ (forall x, In x pre' -> (key x < key (max_from_by key best rest))%Q)
    /\ (forall x, In x post' -> (key x <= key (max_from_by key best rest))%Q).
Proof.
  induction rest as [|x r IH]; intros pre best mid Hpre Hmid; simpl.
  - exists pre, mid. rewrite app_nil_r. auto.
  - destruct (Qlt_le_dec (key best) (key x)) as [Hlt|Hle].
    + destruct (IH (pre ++ best :: mid) x []) as (pre' & post' & E & H1 & H2).
      * intros y Hy. apply in_app_or in Hy as [Hy|[<-|Hy]].
        -- eapply Qlt_trans; [apply Hpre, Hy|exact Hlt].
        -- exact Hlt.
        -- eapply Qle_lt_trans; [apply Hmid, Hy|exact Hlt].
      * intros y [].
      * exists pre', post'. split; [|auto].
        rewrite <- E. simpl. now rewrite <- app_assoc.
    + destruct (IH pre best (mid ++ [x])) as (pre' & post' & E & H1 & H2).
      * exact Hpre.
      * intros y Hy. apply in_app_or in Hy as [Hy|[<-|[]]]; [now apply Hmid|exact Hle].
      * exists pre', post'. split; [|auto].
        rewrite <- E. now rewrite <- app_assoc.
Qed.

Lemma max_by_first_max (mkts : list Market) (rep : Market) :
  max_by volume_of mkts = Ok rep -> first_max mkts rep.
Proof.
  destruct mkts as [|m rest]; [discriminate|]. intros [= <-].
  destruct (max_from_by_split volume_of rest [] m []) as (pre & post & E & H1 & H2);
    try (intros ? []).
  exists pre, post. auto.
Qed.

(** *** Rows *)

Section Rows.

Variable W : Type.
Variable fetch : string -> W -> result (list Trade) * W.

Lemma event_row_group (n : nat) (k : string) (mkts : list Market) (w w' : W)
    (r : row) :
  event_row W fetch n k mkts w = (Ok r, w') -> row_of_group (k, mkts) r.
Proof.
  unfold event_row. destruct (max_by volume_of mkts) as [rep|] eqn:E;
    [|discriminate].
  set (cond := or_else (conditionId rep) (condition_id rep)).
  destruct (match cond with
            | Some c => if str_truthy cond then fetch c w else (Ok [], w)
            | None => (Ok [], w)
            end) as [fetched w1].
  destruct fetched as [trades|]; [|discriminate]. simpl.
  destruct (compute_metrics trades) as [mm|]; [|discriminate]. simpl.
  intros [= <- <-]. unfold row_of_group. simpl.
  repeat split. exists rep. auto.
Qed.

Lemma event_rows_groups (n : nat) : forall groups rows0 w rows w',
  event_rows W fetch n groups rows0 w = (Ok rows, w') ->
  exists new, rows = rows0 ++ new /\ Forall2 row_of_group groups new.
Proof.
  induction groups as [|[k mkts] rest IH]; intros rows0 w rows w'; simpl.
  - intros [= <- <-]. exists []. rewrite app_nil_r. split; constructor.
  - destruct (event_row W fetch n k mkts w) as [[r|] w1] eqn:E; [|discriminate].
    intros H. apply IH in H as (new & -> & HF).
    exists (r :: new). rewrite <- app_assoc. split; [reflexivity|].
    constructor; [|assumption]. eapply event_row_group, E.
Qed.

(** Every row of the output is the row of one group, in the order of the
    groups. *)
Lemma aggregate_rows (markets : list Market) (w w' : W) (rows : list row) :
  aggregate_events W fetch markets w = (Ok rows, w') ->
  Forall2 row_of_group (group_markets markets) rows.
Proof.
  unfold aggregate_events. intros H.
  apply event_rows_groups in H as (new & -> & HF). exact HF.
Qed.

Lemma Forall2_in_right {A B} (R : A -> B -> Prop) (la : list A) (lb : list B) :
  Forall2 R la lb -> forall b, In b lb -> exists a, In a la /\ R a b.
Proof.
  induction 1 as [|a b la lb HR HF IH]; intros b0 []; subst.
  - exists a. split; [now left|assumption].
  - destruct (IH b0 H) as (a0 & Ha & HR0). exists a0. split; [now right|assumption].
Qed.

Lemma row_group (markets : list Market) (w w' : W) (rows : list row) (r : row) :
  aggregate_events W fetch markets w = (Ok rows, w') -> In r rows ->
  group_of markets (event_key r) <> []
  /\ row_of_group (event_key r, group_of markets (event_key r)) r.
Proof.
  intros H Hr. apply aggregate_rows in H.
  destruct (Forall2_in_right _ _ _ H r Hr) as ([k mkts] & Hg & HR).
  destruct (group_markets_spec markets) as [_ Hspec].
  destruct (Hspec k mkts Hg) as [-> Hne].
  pose proof HR as (Hk & _). simpl in Hk. rewrite Hk. split; assumption.
Qed.

(** C3, amended: the volume of a row is the sum of the volumes of all the
    markets under the row's key, rounded to six decimals, whichever market
    represents the group. *)
Theorem row_volume_rounded_sum (markets : list Market) (w w' : W)
    (rows : list row) :
  aggregate_events W fetch markets w = (Ok rows, w') ->
  map event_key rows = map fst (group_markets markets)
  /\ forall r, In r rows ->
       group_of markets (event_key r) <> []
       /\ total_volume_usd r
          = Py.round6 (Metrics.sum
                         (map volume_of (group_of markets (event_key r)))).
Proof.
  intros H. split.
  - apply aggregate_rows in H. induction H as [|g r gs rs HR HF IH];
      [reflexivity|]. simpl. destruct HR as (-> & _). now rewrite IH.
  - intros r Hr. destruct (row_group _ _ _ _ _ H Hr) as (Hne & _ & _ & Hv & _).
    split; assumption.
Qed.

(** The rows follow the groups: one row per group, in the order of the
    groups, under the key of the group. *)
Lemma row_keys_follow_groups (markets : list Market) (w w' : W)
    (rows : list row) :
  aggregate_events W fetch markets w = (Ok rows, w') ->
  map event_key rows = map fst (group_markets markets).
Proof.
  intros H. apply aggregate_rows in H.
  induction H as [|g r gs rs HR HF IH]; [reflexivity|].
  simpl. destruct HR as (-> & _). now rewrite IH.
Qed.

(** C6: every group has its row, the rows coming one per group in the
    order of the groups, and the representative of a row is the first
    market, in input order, among those of greatest volume in the group
    of the row's key. *)
Theorem representative_first_max (markets : list Market) (w w' : W)
    (rows : list row) :
  aggregate_events W fetch markets w = (Ok rows, w') ->
  map event_key rows = map fst (group_markets markets)
  /\ forall r, In r rows ->
       group_of markets (event_key r) <> []
       /\ exists rep,
            first_max (group_of markets (event_key r)) rep
            /\ rep_market_id r = id rep
            /\ any_question r = question rep
            /\ rep_condition_id r
               = match or_else (conditionId rep) (condition_id rep) with
                 | Some c => c
                 | None => ""
                 end.
Proof.
  intros H. split; [exact (row_keys_follow_groups _ _ _ _ H)|].
  intros r Hr.
  destruct (row_group _ _ _ _ _ H Hr) as (Hne & _ & _ & _ & rep & Hm & Hrest).
  split; [exact Hne|].
  exists rep. split; [now apply max_by_first_max|exact Hrest].
Qed.

(** With a trade source that does not raise, every group yields its row. *)
Lemma event_rows_return (n : nat) :
  (forall c w, exists trades w', fetch c w = (Ok trades, w')) ->
  forall groups rows0 w,
    Forall (fun g => snd g <> []) groups ->
    exists rows w',
      event_rows W fetch n groups rows0 w = (Ok rows, w')
      /\ List.length rows = (List.length rows0 + List.length groups)%nat.
Proof.
  intros Hf. induction groups as [|[k mkts] rest IH]; intros rows0 w Hne; simpl.
  - exists rows0, w. split; [reflexivity|lia].
  - inversion Hne as [|? ? Hm Hrest]; subst. simpl in Hm.
    assert (exists r w1, event_row W fetch n k mkts w = (Ok r, w1)) as (r & w1 & E).
    { unfold event_row. destruct mkts as [|m ms]; [contradiction|].
      cbn [max_by].
      set (rep := max_from_by volume_of m ms).
      set (cond := or_else (conditionId rep) (condition_id rep)).
      assert (exists trades w1,
                 match cond with
                 | Some c => if str_truthy cond then fetch c w else (Ok [], w)
                 | None => (Ok [], w)
                 end = (Ok trades, w1)) as (trades & w1 & ->).
      { destruct cond as [c|]; [|now exists [], w].
        destruct (str_truthy (Some c)); [apply Hf|now exists [], w]. }
      cbv beta iota. cbn [bind].
      destruct (MetricsFacts.compute_metrics_returns trades) as (b & ->).
      cbn [bind]. eauto. }
    rewrite E. destruct (IH (rows0 ++ [r]) w1 Hrest) as (rows & w' & -> & Hl).
    exists rows, w'. split; [reflexivity|]. rewrite length_app in Hl. simpl in Hl. lia.
Qed.

Lemma aggregate_events_returns (markets : list Market) (w : W) :
  (forall c w, exists trades w', fetch c w = (Ok trades, w')) ->
  exists rows w',
    aggregate_events W fetch markets w = (Ok rows, w')
    /\ List.length rows = List.length (group_markets markets).
Proof.
  intros Hf. unfold aggregate_events.
  destruct (event_rows_return (List.length (group_markets markets)) Hf
              (group_markets markets) [] w) as (rows & w' & E & Hl).
  - apply Forall_forall. intros [k mkts] Hg. simpl.
    destruct (group_markets_spec markets) as [_ Hspec].
    now destruct (Hspec k mkts Hg).
  - exists rows, w'. split; [exact E|exact Hl].
Qed.

End Rows.

Lemma row_volume_rounded_sum_witness :
  (map total_volume_usd
     (match fst (aggregate_events unit no_trades three_markets tt) with
      | Ok rows => rows
      | Raise _ => []
      end) = [28%Q])
  /\ forall r,
       In r (match fst (aggregate_events unit no_trades three_markets tt) with
             | Ok rows => rows
             | Raise _ => []
             end) ->
       group_of three_markets (event_key r) <> []
       /\ total_volume_usd r
          = Py.round6 (Metrics.sum
                         (map volume_of (group_of three_markets (event_key r)))).
Proof.
  split; [reflexivity|].
  apply (row_volume_rounded_sum unit no_trades three_markets tt tt).
  reflexivity.
Defined.

(** C3 as stated fails: the one market of the group has the volume
    1/10000000 and the row has the volume 0. *)
Lemma row_volume_not_exact :
  map event_key
    (match fst (aggregate_events unit no_trades [tiny_market] tt) with
     | Ok rows => rows
     | Raise _ => []
     end) = ["tiny"]
  /\ map total_volume_usd
       (match fst (aggregate_events unit no_trades [tiny_market] tt) with
        | Ok rows => rows
        | Raise _ => []
        end) = [0%Q]
  /\ Metrics.sum (map volume_of (group_of [tiny_market] "tiny")) = (1 # 10000000)%Q
  /\ Qeq_bool 0 (1 # 10000000) = false.
Proof. repeat split; reflexivity. Qed.

Lemma representative_first_max_witness :
  map (fun r => (event_key r, rep_market_id r))
    (match fst (aggregate_events unit no_trades
                  (tiny_market :: tied_markets) tt) with
     | Ok rows => rows
     | Raise _ => []
     end) = [("tiny", "9"); ("event-2025-06-01", "2")]
  /\ map fst (group_markets (tiny_market :: tied_markets))
     = ["tiny"; "event-2025-06-01"]
  /\ map event_key
       (match fst (aggregate_events unit no_trades
                     (tiny_market :: tied_markets) tt) with
        | Ok rows => rows
        | Raise _ => []
        end)
     = map fst (group_markets (tiny_market :: tied_markets))
  /\ forall r,
       In r (match fst (aggregate_events unit no_trades
                          (tiny_market :: tied_markets) tt) with
             | Ok rows => rows
             | Raise _ => []
             end) ->
       group_of (tiny_market :: tied_markets) (event_key r) <> []
       /\ exists rep,
            first_max (group_of (tiny_market :: tied_markets) (event_key r)) rep
            /\ rep_market_id r = id rep
            /\ any_question r = question rep
            /\ rep_condition_id r
               = match or_else (conditionId rep) (condition_id rep) with
                 | Some c => c
                 | None => ""
                 end.
Proof.
  split; [reflexivity|]. split; [reflexivity|].
  apply (representative_first_max unit no_trades
           (tiny_market :: tied_markets) tt tt).
  reflexivity.
Defined.

End AggregateFacts.

(** ** More on slugs: the key as a prefix, idempotence, the spans found *)

Module SlugKeyFacts.
Import Slug SlugSpec SlugFacts.

(** Joining the tokens of a split gives the string back. *)
Lemma join_split (s : string) : join "-" (split hyphen s) = s.
Proof.
  induction s as [|c r IH]; [reflexivity|].
  cbn [split]. destruct (Ascii.eqb_spec c hyphen) as [->|Hne].
  - pose proof (split_nonempty hyphen r) as Hn.
    destruct (split hyphen r) as [|t ts] eqn:E; [contradiction|].
    cbn [join]. cbn [join] in IH. now rewrite IH.
  - pose proof (split_nonempty hyphen r) as Hn.
    destruct (split hyphen r) as [|t ts] eqn:E; [contradiction|].
    cbn [join] in IH |- *. destruct ts; simpl; now rewrite <- IH.
Qed.

Lemma split_token (t : string) :
  no_char hyphen t = true -> split hyphen t = [t].
Proof.
  induction t as [|c r IH]; [reflexivity|]. simpl. intros H.
  apply andb_true_iff in H as [Hc Hr]. apply negb_true_iff in Hc.
  rewrite Hc, (IH Hr). reflexivity.
Qed.

(** Splitting the join of tokens gives the tokens back. *)
Lemma split_join : forall toks,
  toks <> [] -> Forall (fun t => no_char hyphen t = true) toks ->
  split hyphen (join "-" toks) = toks.
Proof.
  induction toks as [|t ts IH]; [contradiction|]. intros _ H.
  inversion H as [|? ? Ht Hts]; subst.
  destruct ts as [|u us]; [now apply split_token|].
  change (join "-" (t :: u :: us)) with (t ++ String hyphen (join "-" (u :: us)))%string.
  rewrite split_app, split_token by assumption.
  rewrite IH by (discriminate || assumption). reflexivity.
Qed.

Lemma append_assoc (a b c : string) : ((a ++ b) ++ c = a ++ (b ++ c))%string.
Proof. induction a as [|x a IH]; simpl; [reflexivity|now rewrite IH]. Qed.

Lemma append_empty_r (a : string) : (a ++ "")%string = a.
Proof. induction a as [|x a IH]; simpl; [reflexivity|now rewrite IH]. Qed.

Lemma join_cons2 (t u : string) (us : list string) :
  join "-" (t :: u :: us) = (t ++ String hyphen (join "-" (u :: us)))%string.
Proof. reflexivity. Qed.

(** The join of the first [n >= 1] tokens is a prefix of the join of all,
    and what follows is empty or starts at a hyphen. *)
Lemma join_firstn_rest : forall (parts : list string) (n : nat),
  (1 <= n)%nat ->
  exists rest,
    join "-" parts = (join "-" (firstn n parts) ++ rest)%string
    /\ (rest = "" \/ exists r, rest = String hyphen r).
Proof.
  induction parts as [|t ts IH]; intros n Hn.
  - exists "". rewrite firstn_nil. auto.
  - destruct n as [|m]; [lia|]. cbn [firstn].
    destruct ts as [|u us].
    + exists "". rewrite firstn_nil. cbn [join]. rewrite append_empty_r. auto.
    + destruct m as [|m].
      * exists (String hyphen (join "-" (u :: us))). cbn [firstn].
        rewrite join_cons2. cbn [join]. eauto.
      * destruct (IH (S m) ltac:(lia)) as (rest & E & Hr).
        exists rest. split; [|exact Hr].
        rewrite join_cons2, E. cbn [firstn]. rewrite join_cons2.
        rewrite append_assoc. reflexivity.
Qed.

(** X1: the key is a prefix of the slug, cut at a token boundary: what
    [base_slug] drops is empty or starts at a hyphen. *)
Theorem base_slug_prefix (slug : string) :
  exists rest,
    slug = (base_slug slug ++ rest)%string
    /\ (rest = "" \/ exists r, rest = String hyphen r).
Proof.
  destruct slug as [|c r]; [exists ""; auto|].
  unfold base_slug.
  destruct (_find_last_date_span (split hyphen (String c r))) as [[i j]|].
  - destruct (join_firstn_rest (split hyphen (String c r)) (j + 1) ltac:(lia))
      as (rest & E & Hr).
    exists rest. rewrite join_split in E. split; assumption.
  - exists "". rewrite append_empty_r. auto.
Qed.

(** The spans found among the tokens of a slug. *)
Lemma find_last_tokens (slug : string) (i j : nat) :
  _find_last_date_span (split hyphen slug) = Some (i, j) ->
  j = (i + 2)%nat
  /\ (i + 2 < List.length (split hyphen slug))%nat
  /\ three_token_date (split hyphen slug) i = true
  /\ forall k, (i < k)%nat -> three_token_date (split hyphen slug) k = false.
Proof.
  intros E. pose proof (split_no_sep hyphen slug) as Hp.
  apply find_last_some in E as (Hi & Hh & Hafter).
  rewrite hit_tokens in Hh by assumption.
  destruct (three_token_date (split hyphen slug) i) eqn:T; [|discriminate].
  injection Hh as <-. pose proof (three_token_date_bound _ _ T) as Hb.
  repeat split; trivial. intros k Hk.
  destruct (three_token_date (split hyphen slug) k) eqn:Tk; [|reflexivity].
  pose proof (three_token_date_bound _ _ Tk) as Hbk.
  specialize (Hafter k ltac:(lia)). rewrite hit_tokens, Tk in Hafter by assumption.
  discriminate.
Qed.

(** X2: every span that [_find_last_date_span] finds among the tokens of a
    slug has three tokens and lies inside the token list: the one-token
    pattern needs hyphens and a token has none, and the slice of
    [base_slug] never runs past the tokens. *)
Theorem span_of_slug_three_tokens (slug : string) (i j : nat) :
  _find_last_date_span (split hyphen slug) = Some (i, j) ->
  j = (i + 2)%nat
  /\ (j < List.length (split hyphen slug))%nat
  /\ re_match ONE_TOKEN_DATE_RE (nth i (split hyphen slug) "") = false
  /\ re_match YEAR_RE (nth i (split hyphen slug) "") = true
  /\ re_match MONTH_RE (nth (i + 1) (split hyphen slug) "") = true
  /\ re_match DAY_RE (nth (i + 2) (split hyphen slug) "") = true.
Proof.
  intros E. destruct (find_last_tokens _ _ _ E) as (-> & Hb & T & _).
  split; [reflexivity|]. split; [assumption|]. split.
  - apply one_token_re_hyphen.
    apply (nth_Forall (fun t => no_char hyphen t = true));
      [apply split_no_sep|lia].
  - unfold three_token_date in T.
    repeat (apply andb_true_iff in T as [T ?]). auto.
Qed.

Lemma span_of_slug_three_tokens_witness :
  2%nat = (0 + 2)%nat
  /\ (2 < List.length (split hyphen "2025-06-01-x"))%nat
  /\ re_match ONE_TOKEN_DATE_RE (nth 0 (split hyphen "2025-06-01-x") "") = false
  /\ re_match YEAR_RE (nth 0 (split hyphen "2025-06-01-x") "") = true
  /\ re_match MONTH_RE (nth (0 + 1) (split hyphen "2025-06-01-x") "") = true
  /\ re_match DAY_RE (nth (0 + 2) (split hyphen "2025-06-01-x") "") = true.
Proof. apply (span_of_slug_three_tokens "2025-06-01-x" 0 2). reflexivity. Defined.

Lemma three_token_date_firstn parts n i :
  (i + 2 < n)%nat -> (n <= List.length parts)%nat ->
  three_token_date (firstn n parts) i = three_token_date parts i.
Proof.
  intros Hi Hn. rewrite <- (firstn_skipn n parts) at 2.
  symmetry. apply three_token_date_app. rewrite length_firstn. lia.
Qed.

(** X3: [base_slug] is idempotent: the key of a key is the key. *)
Theorem base_slug_idempotent (slug : string) :
  base_slug (base_slug slug) = base_slug slug.
Proof.
  destruct slug as [|c r]; [reflexivity|].
  destruct (_find_last_date_span (split hyphen (String c r))) as [[i j]|] eqn:E.
  2:{ assert (base_slug (String c r) = String c r) as ->
        by (unfold base_slug; now rewrite E).
      unfold base_slug. now rewrite E. }
  assert (base_slug (String c r)
          = join "-" (firstn (j + 1) (split hyphen (String c r)))) as ->
      by (unfold base_slug; now rewrite E).
  set (parts := split hyphen (String c r)) in *.
  destruct (find_last_tokens _ _ _ E) as (-> & Hb & T & _). fold parts in Hb, T.
  set (pre := firstn (i + 2 + 1) parts).
  assert (Forall (fun t => no_char hyphen t = true) pre) as Hpre.
  { pose proof (split_no_sep hyphen (String c r)) as Hall. fold parts in Hall.
    rewrite <- (firstn_skipn (i + 2 + 1) parts) in Hall.
    apply Forall_app in Hall. apply Hall. }
  assert (List.length pre = (i + 3)%nat) as Hlen
      by (unfold pre; rewrite length_firstn; lia).
  assert (pre <> []) as Hne by (intros Hn; rewrite Hn in Hlen; simpl in Hlen; lia).
  assert (split hyphen (join "-" pre) = pre) as Hs by now apply split_join.
  assert (three_token_date pre i = true) as Tp.
  { unfold pre. rewrite three_token_date_firstn; [assumption|lia|lia]. }
  destruct (find_last_finds pre i) as (i1 & j1 & E1).
  { lia. }
  { rewrite hit_tokens, Tp by assumption. discriminate. }
  assert (i1 = i /\ j1 = (i + 2)%nat) as [-> ->].
  { apply find_last_some in E1 as (Hi1 & Hh1 & Hafter1).
    rewrite hit_tokens in Hh1 by assumption.
    destruct (three_token_date pre i1) eqn:T1; [|discriminate].
    injection Hh1 as <-. pose proof (three_token_date_bound _ _ T1).
    assert (i1 = i); [|subst; auto].
    destruct (Nat.lt_trichotomy i1 i) as [Hlt|[->|Hgt]]; [|reflexivity|lia].
    specialize (Hafter1 i ltac:(lia)).
    rewrite hit_tokens, Tp in Hafter1 by assumption. discriminate. }
  fold pre.
  destruct (join "-" pre) as [|c' r'] eqn:J; [reflexivity|].
  unfold base_slug. rewrite Hs, E1. unfold pre at 1.
  rewrite firstn_firstn, Nat.min_id. fold pre. exact J.
Qed.

End SlugKeyFacts.

(** ** More on the fetcher: first success, bounds, pauses *)

Module RetryFacts.
Import Fetch FetchSpec FetchFacts.



Lemma get_json_loop_bounds net req : forall attempts last_error w,
  (requests_made w
   <= requests_made (snd (get_json_loop net req attempts last_error w))
   <= requests_made w + List.length attempts)%nat
  /\ (forall v, fst (get_json_loop net req attempts last_error w) = Ok v ->
        (requests_made w
         < requests_made (snd (get_json_loop net req attempts last_error w)))%nat)
  /\ (forall e, fst (get_json_loop net req attempts last_error w) = Raise e ->
        exn_class_of e = RuntimeError
        /\ requests_made (snd (get_json_loop net req attempts last_error w))
           = (requests_made w + List.length attempts)%nat).
Proof.
  induction attempts as [|a rest IH]; intros last_error w.
  - simpl. split; [lia|]. split; [discriminate|].
    intros e [= <-]. split; [reflexivity|lia].
  - cbn [get_json_loop List.length].
    destruct (attempt (net req (requests_made w))) as [v0|e0|].
    + simpl. split; [lia|]. split; [intros; lia|discriminate].
    + destruct (IH (Some e0) (sleep (BACKOFF ^ Z.of_nat (a - 1)) (sent w)))
        as (Hb & Hok & Hraise).
      cbn [requests_made sent sleep] in Hb, Hok, Hraise.
      split; [lia|]. split.
      * intros v Hv. specialize (Hok v Hv). lia.
      * intros e He. destruct (Hraise e He) as [Hc Hn]. split; [exact Hc|lia].
    + destruct (IH last_error (sent w)) as (Hb & Hok & Hraise).
      cbn [requests_made sent sleep] in Hb, Hok, Hraise.
      split; [lia|]. split.
      * intros v Hv. specialize (Hok v Hv). lia.
      * intros e He. destruct (Hraise e He) as [Hc Hn]. split; [exact Hc|lia].
Qed.

(** X5: whatever the network does, [_get_json] sends at least one and at
    most [MAX_RETRIES] requests, and when it raises it raises a
    [RuntimeError] after exactly [MAX_RETRIES] requests: no error of the
    transport or of the decoding escapes as such. *)
Theorem get_json_bounds (net : transport) (url : string)
    (params : list (string * json)) (w : world) :
  (requests_made w < requests_made (snd (_get_json net url params w))
   <= requests_made w + MAX_RETRIES)%nat
  /\ forall e, fst (_get_json net url params w) = Raise e ->
       exn_class_of e = RuntimeError
       /\ requests_made (snd (_get_json net url params w))
          = (requests_made w + MAX_RETRIES)%nat.
Proof.
  unfold _get_json.
  destruct (get_json_loop_bounds net (Request url params) (seq 1 MAX_RETRIES)
              None w) as (Hb & Hok & Hraise).
  rewrite length_seq in Hb, Hraise. split; [|exact Hraise].
  split; [|lia].
  destruct (fst (get_json_loop net (Request url params) (seq 1 MAX_RETRIES) None w))
    as [v|e] eqn:E.
  - now apply (Hok v).
  - destruct (Hraise e eq_refl) as [_ Hn]. rewrite Hn. unfold MAX_RETRIES. lia.
Qed.

Lemma get_json_loop_pauses net req : forall n a last_error w j,
  (j <= n)%nat ->
  (forall k, (k < j)%nat ->
     exists e, attempt (net req (requests_made w + k)%nat) = Caught e) ->
  ((j < n)%nat ->
     exists v, attempt (net req (requests_made w + j)%nat) = Returned v) ->
  slept (snd (get_json_loop net req (seq a n) last_error w))
  = rev (map (fun k => BACKOFF ^ Z.of_nat (a + k - 1)) (seq 0 j)) ++ slept w.
Proof.
  induction n as [|n IH]; intros a last_error w j Hj Hc Hr.
  - assert (j = 0)%nat as -> by lia. reflexivity.
  - cbn [seq get_json_loop]. destruct j as [|j].
    + destruct (Hr ltac:(lia)) as (v & Hv). rewrite Nat.add_0_r in Hv.
      rewrite Hv. reflexivity.
    + destruct (Hc 0%nat ltac:(lia)) as (e & He). rewrite Nat.add_0_r in He.
      rewrite He.
      rewrite (IH (S a) (Some e) (sleep (BACKOFF ^ Z.of_nat (a - 1)) (sent w)) j).
      * cbn [slept sleep sent]. rewrite <- cons_seq, <- seq_shift.
        cbn [map rev]. rewrite map_map, <- app_assoc. cbn [app].
        rewrite Nat.add_0_r. f_equal.
        f_equal. apply map_ext. intros k. f_equal. f_equal. lia.
      * lia.
      * intros k Hk. simpl. specialize (Hc (S k) ltac:(lia)).
        now rewrite Nat.add_succ_r in Hc.
      * intros Hlt. simpl. specialize (Hr ltac:(lia)).
        now rewrite Nat.add_succ_r in Hr.
Qed.

(** X6: the pauses of [_get_json]: after the [k]-th attempt that raises it
    sleeps [BACKOFF ^ (k - 1)] seconds, also after the last attempt of an
    exhausted call, and it does not sleep before a first attempt that
    succeeds. With [j] raising attempts, followed by a success when
    [j < MAX_RETRIES], the pauses are [BACKOFF^0, ..., BACKOFF^(j-1)]. *)
Theorem get_json_pauses (net : transport) (url : string)
    (params : list (string * json)) (w : world) (j : nat) :
  (j <= MAX_RETRIES)%nat ->
  (forall k, (k < j)%nat ->
     exists e, attempt (net (Request url params) (requests_made w + k)%nat)
               = Caught e) ->
  ((j < MAX_RETRIES)%nat ->
     exists v, attempt (net (Request url params) (requests_made w + j)%nat)
               = Returned v) ->
  slept (snd (_get_json net url params w))
  = rev (map (fun k => BACKOFF ^ Z.of_nat k) (seq 0 j)) ++ slept w.
Proof.
  intros Hj Hc Hr. unfold _get_json.
  rewrite (get_json_loop_pauses net (Request url params) MAX_RETRIES 1 None w j)
    by assumption.
  f_equal. f_equal. apply map_ext. intros k. f_equal. f_equal. lia.
Qed.


Lemma get_json_pauses_witness :
  slept (snd (_get_json not_found "u" [] (World 0 [])))
  = rev (map (fun k => BACKOFF ^ Z.of_nat k) (seq 0 5)) ++ [].
Proof.
  apply (get_json_pauses not_found "u" [] (World 0 []) 5).
  - unfold MAX_RETRIES. lia.
  - intros k _. eexists. reflexivity.
  - unfold MAX_RETRIES. lia.
Defined.

End RetryFacts.

(** ** More on pagination *)

Module ListingFacts.
Import Fetch FetchSpec Paginate PaginateSpec Servers TagSpec FetchFacts PaginateFacts.

Lemma get_json_now (net : transport) (url : string)
    (params : list (string * json)) (w : world) (v : json) :
  attempt (net (Request url params) (requests_made w)) = Returned v ->
  _get_json net url params w = (Ok v, sent w).
Proof.
  intros H. unfold _get_json, MAX_RETRIES. cbn [seq get_json_loop].
  now rewrite H.
Qed.

Lemma firstn_plus {A} (a b : nat) (l : list A) :
  firstn (a + b) l = firstn a l ++ firstn b (skipn a l).
Proof.
  revert l. induction a as [|a IH]; intros l; [reflexivity|].
  destruct l as [|x l]; simpl; [now rewrite firstn_nil|]. now rewrite IH.
Qed.

Lemma offset_page (wrap : bool) (records : list json) (lim off : nat) :
  listing_data (if wrap
                then JObj [("data", JArr (firstn lim (skipn off records)))]
                else JArr (firstn lim (skipn off records)))
  = JArr (firstn lim (skipn off records)).
Proof. destruct wrap; reflexivity. Qed.

Lemma div_step (r c : nat) : (0 < c)%nat -> (c <= r)%nat ->
  (r / c = S ((r - c) / c))%nat.
Proof.
  intros Hc Hr. replace r with ((r - c) + 1 * c)%nat at 1 by lia.
  rewrite Nat.div_add by lia. lia.
Qed.

Lemma markets_loop (wrap : bool) (records : list json) (tag_id : Z)
    (closed_flag : string) : forall fuel offset w,
  (offset <= List.length records)%nat ->
  ((List.length records - offset) / GAMMA_LIMIT < fuel)%nat ->
  while_true fuel (markets_body (offset_server wrap records) tag_id closed_flag)
    (firstn offset records, offset) w
  = Some (Ok records,
          World (requests_made w + (List.length records - offset) / GAMMA_LIMIT + 1)
            (slept w)).
Proof.
  induction fuel as [|fuel IH]; intros offset w Hoff Hfuel; [lia|].
  cbn [while_true markets_body].
  erewrite get_json_now by reflexivity.
  unfold markets_page. cbn [Fetch.params param_nat Py.lookup String.eqb Ascii.eqb Bool.eqb].
  rewrite !Qfloor_Z, !Nat2Z.id, offset_page.
  cbn [Py.iter Py.len bind].
  rewrite length_firstn.
  assert (List.length (skipn offset records) = List.length records - offset)%nat
    as Hsk by apply length_skipn.
  rewrite Hsk.
  destruct (Nat.ltb_spec (Nat.min GAMMA_LIMIT (List.length records - offset))
              GAMMA_LIMIT) as [Hshort|Hfull].
  - assert (List.length records - offset < GAMMA_LIMIT)%nat as Hr by lia.
    rewrite (firstn_all2 (n:=GAMMA_LIMIT) (skipn offset records))
      by (rewrite Hsk; lia).
    rewrite firstn_skipn, Nat.div_small by assumption.
    destruct w as [n sl]. cbn [sent requests_made slept].
    now rewrite Nat.add_0_r, Nat.add_1_r.
  - assert (GAMMA_LIMIT <= List.length records - offset)%nat as Hr by lia.
    rewrite <- firstn_plus.
    rewrite IH.
    + rewrite (div_step (List.length records - offset) GAMMA_LIMIT)
        by (unfold GAMMA_LIMIT in *; lia).
      destruct w as [n sl]. cbn [sent requests_made slept].
      replace (List.length records - (offset + GAMMA_LIMIT))%nat
        with (List.length records - offset - GAMMA_LIMIT)%nat by lia.
      do 3 f_equal. lia.
    + lia.
    + rewrite (div_step (List.length records - offset) GAMMA_LIMIT) in Hfuel
        by (unfold GAMMA_LIMIT in *; lia).
      replace (List.length records - (offset + GAMMA_LIMIT))%nat
        with (List.length records - offset - GAMMA_LIMIT)%nat by lia. lia.
Qed.

(** X7: against a server that honours [limit] and [offset], whether it
    answers with a bare array or with an object holding [data],
    [fetch_markets_by_tag] returns all the records in order, with one
    request per full page and one more for the short page that ends the
    listing (an empty one when the count is a multiple of the page size). *)
Theorem fetch_markets_all (wrap : bool) (records : list json) (tag_id : Z)
    (closed_flag : string) (fuel : nat) (w : world) :
  (List.length records / GAMMA_LIMIT < fuel)%nat ->
  fetch_markets_by_tag fuel (offset_server wrap records) tag_id closed_flag w
  = Some (Ok records,
          World (requests_made w + List.length records / GAMMA_LIMIT + 1)
            (slept w)).
Proof.
  intros Hfuel. unfold fetch_markets_by_tag.
  pose proof (markets_loop wrap records tag_id closed_flag fuel 0 w) as H.
  rewrite Nat.sub_0_r in H. apply H; [lia|assumption].
Qed.

Lemma fetch_markets_all_witness :
  fetch_markets_by_tag 1 (offset_server true [JObj [("id", JStr "m1")]]) 7 "false"
    (World 0 [])
  = Some (Ok [JObj [("id", JStr "m1")]],
          World (0 + List.length [JObj [("id", JStr "m1")]] / GAMMA_LIMIT + 1) []).
Proof.
  apply (fetch_markets_all true [JObj [("id", JStr "m1")]] 7 "false" 1 (World 0 [])).
  unfold GAMMA_LIMIT. simpl. lia.
Defined.

(** *** The tag listing *)

Lemma norm_of_str (ud : unicodedata) (s : string) :
  _norm ud (JStr s) = Ok (norm_str ud s).
Proof.
  unfold _norm, norm_str. simpl.
  destruct (String.eqb_spec s "") as [->|]; reflexivity.
Qed.

Lemma norm_of_field (ud : unicodedata) (k : string) (fields : list (string * json))
    (s : string) :
  str_field k fields = Some s ->
  (x <- Py.get (JObj fields) k (JStr "") ;; _norm ud x) = Ok (norm_str ud s).
Proof.
  unfold str_field. simpl.
  destruct (Py.lookup k fields) as [[| | |s'| |]|]; try discriminate;
    intros [= <-]; apply norm_of_str.
Qed.

Lemma tag_selected_plain (ud : unicodedata) (q : string) (t : json) :
  plain_tag t = true -> tag_selected ud q t = Ok (tag_matches ud q t).
Proof.
  destruct t as [| | | | |fields]; try discriminate. unfold plain_tag, tag_matches.
  destruct (str_field "label" fields) as [l|] eqn:L; [|discriminate].
  destruct (str_field "slug" fields) as [s|] eqn:S; [|discriminate]. intros _.
  pose proof (norm_of_field ud _ _ _ L) as HL.
  pose proof (norm_of_field ud _ _ _ S) as HS.
  unfold tag_selected.
  destruct (Py.get (JObj fields) "label" (JStr "")) as [x|]; [|discriminate].
  cbn [bind] in HL |- *. rewrite HL. cbn [bind].
  destruct (Py.contains q (norm_str ud l)); [reflexivity|].
  destruct (Py.get (JObj fields) "slug" (JStr "")) as [y|]; [|discriminate].
  cbn [bind] in HS |- *. rewrite HS. reflexivity.
Qed.

Lemma select_tags_plain (ud : unicodedata) (q : string) : forall items out,
  Forall (fun t => plain_tag t = true) items ->
  select_tags ud q items out = Ok (out ++ filter (tag_matches ud q) items).
Proof.
  induction items as [|t rest IH]; intros out H; simpl.
  - now rewrite app_nil_r.
  - inversion H as [|? ? Ht Hrest]; subst.
    rewrite (tag_selected_plain ud q t Ht). cbn [bind].
    rewrite IH by assumption.
    destruct (tag_matches ud q t); [now rewrite <- app_assoc|reflexivity].
Qed.

Lemma filter_firstn_skipn {A} (f : A -> bool) (a b : nat) (l : list A) :
  filter f (firstn a l) ++ filter f (firstn b (skipn a l))
  = filter f (firstn (a + b) l).
Proof. now rewrite firstn_plus, filter_app. Qed.

Lemma Forall_firstn_skipn {A} (P : A -> Prop) (a b : nat) (l : list A) :
  Forall P l -> Forall P (firstn b (skipn a l)).
Proof.
  intros H. rewrite <- (firstn_skipn a l) in H. apply Forall_app in H as [_ H].
  rewrite <- (firstn_skipn b (skipn a l)) in H. now apply Forall_app in H.
Qed.

Lemma tags_loop (wrap : bool) (records : list json) (ud : unicodedata)
    (q : string) :
  Forall (fun t => plain_tag t = true) records ->
  forall fuel offset w,
    (offset <= List.length records)%nat ->
    ((List.length records - offset) / GAMMA_LIMIT < fuel)%nat ->
    while_true fuel (tags_body (offset_server wrap records) ud q)
      (filter (tag_matches ud q) (firstn offset records), offset) w
    = Some (Ok (filter (tag_matches ud q) records),
            World (requests_made w + (List.length records - offset) / GAMMA_LIMIT + 1)
              (slept w)).
Proof.
  intros Hplain.
  induction fuel as [|fuel IH]; intros offset w Hoff Hfuel; [lia|].
  cbn [while_true tags_body].
  erewrite get_json_now by reflexivity.
  unfold tags_page. cbn [Fetch.params param_nat Py.lookup String.eqb Ascii.eqb Bool.eqb].
  rewrite !Qfloor_Z, !Nat2Z.id, offset_page.
  cbn [Py.iter Py.len bind].
  rewrite select_tags_plain by now apply Forall_firstn_skipn.
  cbn [bind]. rewrite filter_firstn_skipn, length_firstn.
  assert (List.length (skipn offset records) = List.length records - offset)%nat
    as Hsk by apply length_skipn.
  rewrite Hsk.
  destruct (Nat.ltb_spec (Nat.min GAMMA_LIMIT (List.length records - offset))
              GAMMA_LIMIT) as [Hshort|Hfull].
  - assert (List.length records - offset < GAMMA_LIMIT)%nat as Hr by lia.
    rewrite (firstn_all2 (n:=offset + GAMMA_LIMIT) records) by lia.
    rewrite Nat.div_small by assumption.
    destruct w as [n sl]. cbn [sent requests_made slept].
    now rewrite Nat.add_0_r, Nat.add_1_r.
  - assert (GAMMA_LIMIT <= List.length records - offset)%nat as Hr by lia.
    rewrite IH.
    + rewrite (div_step (List.length records - offset) GAMMA_LIMIT)
        by (unfold GAMMA_LIMIT in *; lia).
      destruct w as [n sl]. cbn [sent requests_made slept].
      replace (List.length records - (offset + GAMMA_LIMIT))%nat
        with (List.length records - offset - GAMMA_LIMIT)%nat by lia.
      do 3 f_equal. lia.
    + lia.
    + rewrite (div_step (List.length records - offset) GAMMA_LIMIT) in Hfuel
        by (unfold GAMMA_LIMIT in *; lia).
      replace (List.length records - (offset + GAMMA_LIMIT))%nat
        with (List.length records - offset - GAMMA_LIMIT)%nat by lia. lia.
Qed.

(** X8: against a server that honours [limit] and [offset] over tags whose
    label and slug are strings or absent, [find_tags_by_query] returns, in
    order, exactly the tags whose normalised label or slug contains the
    normalised query, after one request per full page and one more. *)
Theorem find_tags_selects (wrap : bool) (records : list json)
    (ud : unicodedata) (query : string) (fuel : nat) (w : world) :
  Forall (fun t => plain_tag t = true) records ->
  (List.length records / GAMMA_LIMIT < fuel)%nat ->
  find_tags_by_query fuel (offset_server wrap records) ud query w
  = Some (Ok (filter (tag_matches ud (norm_str ud query)) records),
          World (requests_made w + List.length records / GAMMA_LIMIT + 1)
            (slept w)).
Proof.
  intros Hplain Hfuel. unfold find_tags_by_query. rewrite norm_of_str.
  pose proof (tags_loop wrap records ud (norm_str ud query) Hplain fuel 0 w) as H.
  rewrite Nat.sub_0_r in H. apply H; [lia|assumption].
Qed.

Lemma find_tags_selects_witness :
  find_tags_by_query 1
    (offset_server false
       [JObj [("id", JNum 1); ("label", JStr "Argentina"); ("slug", JStr "arg")];
        JObj [("id", JNum 2); ("label", JStr "Mexico")]])
    ascii_unicodedata "ARGENT" (World 0 [])
  = Some (Ok (filter (tag_matches ascii_unicodedata
                        (norm_str ascii_unicodedata "ARGENT"))
                [JObj [("id", JNum 1); ("label", JStr "Argentina");
                       ("slug", JStr "arg")];
                 JObj [("id", JNum 2); ("label", JStr "Mexico")]]),
          World (0 + List.length
                       [JObj [("id", JNum 1); ("label", JStr "Argentina");
                              ("slug", JStr "arg")];
                        JObj [("id", JNum 2); ("label", JStr "Mexico")]]
                     / GAMMA_LIMIT + 1) []).
Proof.
  apply (find_tags_selects false _ ascii_unicodedata "ARGENT" 1 (World 0 [])).
  - repeat constructor.
  - unfold GAMMA_LIMIT. simpl. lia.
Defined.

(** *** A fetch that is exhausted: the listings abort, the trades do not *)

Lemma get_json_exhausted (net : transport) (url : string)
    (params : list (string * json)) (w : world) :
  (forall req k, (requests_made w <= k < requests_made w + MAX_RETRIES)%nat ->
     attempt_fails (net req k) = true) ->
  exists e w',
    _get_json net url params w = (Raise e, w')
    /\ e = get_failed (last_observed net (Request url params) (requests_made w)
                         MAX_RETRIES None)
    /\ requests_made w' = (requests_made w + MAX_RETRIES)%nat.
Proof.
  intros H. unfold _get_json.
  destruct (get_json_loop_exhausts net (Request url params) (seq 1 MAX_RETRIES)
              None w) as (w' & Hr & Hn).
  - rewrite length_seq. intros k Hk. apply slot_lost. left. now apply H.
  - rewrite length_seq in Hr, Hn. eauto.
Qed.

(** X9: when the fetch of a page is exhausted, the tag listing and the
    market listing raise the [RuntimeError] of the fetcher, whatever they
    had gathered before. *)
Theorem listing_aborts (net : transport) (ud : unicodedata) (q : string)
    (tag_id : Z) (closed_flag : string) (out : list json) (offset fuel : nat)
    (w : world) :
  (forall req k, (requests_made w <= k < requests_made w + MAX_RETRIES)%nat ->
     attempt_fails (net req k) = true) ->
  (exists e w',
     while_true (S fuel) (tags_body net ud q) (out, offset) w = Some (Raise e, w')
     /\ exn_class_of e = RuntimeError
     /\ requests_made w' = (requests_made w + MAX_RETRIES)%nat)
  /\ (exists e w',
        while_true (S fuel) (markets_body net tag_id closed_flag) (out, offset) w
        = Some (Raise e, w')
        /\ exn_class_of e = RuntimeError
        /\ requests_made w' = (requests_made w + MAX_RETRIES)%nat).
Proof.
  intros H. split.
  - cbn [while_true tags_body].
    destruct (get_json_exhausted net URL_TAGS
                [("limit", JNum (inject_Z (Z.of_nat GAMMA_LIMIT)));
                 ("offset", JNum (inject_Z (Z.of_nat offset)))] w H)
      as (e & w' & -> & -> & Hn).
    eexists _, w'. split; [reflexivity|]. split; [reflexivity|exact Hn].
  - cbn [while_true markets_body].
    destruct (get_json_exhausted net URL_MARKETS
                [("tag_id", JNum (inject_Z tag_id)); ("related_tags", JStr "true");
                 ("closed", JStr closed_flag);
                 ("limit", JNum (inject_Z (Z.of_nat GAMMA_LIMIT)));
                 ("offset", JNum (inject_Z (Z.of_nat offset)))] w H)
      as (e & w' & -> & -> & Hn).
    eexists _, w'. split; [reflexivity|]. split; [reflexivity|exact Hn].
Qed.

Lemma listing_aborts_witness :
  (exists e w',
     while_true 1 (tags_body not_found ascii_unicodedata "x")
       ([JObj [("id", JNum 1)]], 250%nat) (World 0 [])
     = Some (Raise e, w')
     /\ exn_class_of e = RuntimeError
     /\ requests_made w' = (0 + MAX_RETRIES)%nat)
  /\ (exists e w',
        while_true 1 (markets_body not_found 7 "true")
          ([JObj [("id", JNum 1)]], 250%nat) (World 0 [])
        = Some (Raise e, w')
        /\ exn_class_of e = RuntimeError
        /\ requests_made w' = (0 + MAX_RETRIES)%nat).
Proof.
  apply (listing_aborts not_found ascii_unicodedata "x" 7 "true"
           [JObj [("id", JNum 1)]] 250 0 (World 0 [])).
  intros req k _. reflexivity.
Defined.

Lemma window_filter_raises (start_ts : option Z) : forall items acc e,
  window_filter start_ts items acc = Raise e -> exn_class_of e = AttributeError.
Proof.
  induction items as [|t rest IH]; intros acc e; simpl; [discriminate|].
  unfold in_window.
  destruct (Py.get t "timestamp" JNull) as [ts|e0] eqn:G; cbn [bind].
  - apply IH.
  - intros [= <-]. destruct t; simpl in G; try discriminate; now injection G as <-.
Qed.

Lemma trades_page_raises (start_ts : option Z) (st : trades_state) (resp : json)
    (e : exn) :
  trades_page start_ts st resp = Raise e ->
  exn_class_of e = TypeError \/ exn_class_of e = AttributeError.
Proof.
  unfold trades_page.
  set (data := match resp with
               | JObj fields =>
                   match Py.lookup "data" fields with Some d => d | None => JNull end
               | _ => resp
               end).
  destruct (negb (Py.truthy data)); [discriminate|].
  destruct (Py.iter data) as [items|e0] eqn:I; cbn [bind].
  - destruct (window_filter start_ts items (trades st)) as [kept|e1] eqn:F;
      cbn [bind].
    + match goal with |- context [if ?b then _ else _] => destruct b end;
        discriminate.
    + intros [= <-]. right. eapply window_filter_raises, F.
  - intros [= <-]. left. destruct data; simpl in I; try discriminate;
      now injection I as <-.
Qed.

Lemma trades_loop_raises (net : transport) (start_ts : option Z)
    (condition_id : string) : forall fuel st w e w',
  while_true fuel (trades_body net start_ts condition_id) st w = Some (Raise e, w') ->
  exn_class_of e = TypeError \/ exn_class_of e = AttributeError.
Proof.
  induction fuel as [|fuel IH]; intros st w e w'; [discriminate|].
  cbn [while_true]. unfold trades_body.
  destruct (_get_json net URL_TRADES (trades_params condition_id st) w)
    as [[resp|e0] w1].
  - destruct (trades_page start_ts st resp) as [[st'|a]|e1] eqn:P.
    + apply IH.
    + discriminate.
    + intros [= <- <-]. eapply trades_page_raises, P.
  - destruct (trades_on_error st e0) as [st'|a]; [apply IH|discriminate].
Qed.

(** X10: [fetch_trades_for_market] never raises the [RuntimeError] of an
    exhausted fetch: what it raises, if anything, is the [TypeError] or
    [AttributeError] of a response that is not a list of objects. *)
Theorem fetch_trades_never_fetch_error (fuel : nat) (net : transport)
    (start_ts : option Z) (condition_id : string) (w w' : world) (e : exn) :
  fetch_trades_for_market fuel net start_ts condition_id w = Some (Raise e, w') ->
  exn_class_of e = TypeError \/ exn_class_of e = AttributeError.
Proof. apply trades_loop_raises. Qed.

Lemma fetch_trades_never_fetch_error_witness :
  exn_class_of (Exn TypeError "'int' object is not iterable") = TypeError
  \/ exn_class_of (Exn TypeError "'int' object is not iterable") = AttributeError.
Proof.
  apply (fetch_trades_never_fetch_error 1 (always (JNum 7)) START_TS "0xc"
           (World 0 []) (World 1 [])).
  reflexivity.
Defined.

(** *** Timeouts: the page size is halved down to 100, then the listing ends *)

Lemma lower_app (a b : string) :
  Py.lower (a ++ b) = (Py.lower a ++ Py.lower b)%string.
Proof. induction a as [|c a IH]; simpl; [reflexivity|now rewrite IH]. Qed.

Lemma contains_app_r (n a b : string) :
  Py.contains n b = true -> Py.contains n (a ++ b) = true.
Proof.
  intros H. induction a as [|c a IH]; [exact H|].
  simpl. rewrite IH. apply orb_true_r.
Qed.

Lemma last_observed_failed (net : transport) (req : request)
    (P : exn -> Prop) :
  (forall k, exists e, net req k = Failed e /\ P e) ->
  forall n k0 before,
    (0 < n)%nat ->
    exists e, last_observed net req k0 n before = Some e /\ P e.
Proof.
  intros H. induction n as [|n IH]; intros k0 before Hn; [lia|].
  cbn [last_observed]. destruct (H k0) as (e & He & HP).
  unfold observed_error. rewrite He. cbn [attempt].
  destruct n as [|n]; [exists e; auto|]. apply IH. lia.
Qed.

Lemma trades_body_timeout (net : transport) (start_ts : option Z)
    (condition_id : string) (st : trades_state) (w : world) :
  (forall k, exists e,
      net (Request URL_TRADES (trades_params condition_id st)) k = Failed e
      /\ Py.contains "timeout" (Py.lower (exn_str e)) = true) ->
  exists w',
    trades_body net start_ts condition_id st w
    = (Ok (if (0 <? retries_left st)%Z && (100 <? limit st)%Z
           then Continue (TradesState (trades st) (next_cursor st)
                            (Z.max 100 (limit st / 2)) (retries_left st - 1)%Z)
           else Break (trades st)), w')
    /\ requests_made w' = (requests_made w + MAX_RETRIES)%nat.
Proof.
  intros H. unfold trades_body, _get_json.
  destruct (get_json_loop_exhausts net
              (Request URL_TRADES (trades_params condition_id st))
              (seq 1 MAX_RETRIES) None w) as (w' & Hr & Hn).
  { intros k _ v. destruct (H k) as (e & -> & _). discriminate. }
  rewrite length_seq in Hr, Hn. rewrite Hr.
  exists w'. split; [|exact Hn]. f_equal. f_equal.
  destruct (last_observed_failed net
              (Request URL_TRADES (trades_params condition_id st))
              (fun e => Py.contains "timeout" (Py.lower (exn_str e)) = true)
              H MAX_RETRIES (requests_made w) None)
    as (e & -> & He); [unfold MAX_RETRIES; lia|].
  unfold trades_on_error, get_failed. cbn [exn_str str_of_error].
  rewrite !lower_app, !contains_app_r by exact He. reflexivity.
Qed.

(** X11: when the requests for pages of 250, 125 and 100 trades time
    out, whatever the network does with requests for other page sizes,
    [fetch_trades_for_market] asks for the first page with the page size
    250 and three retries left, then with 125 and two, then with 100 and
    one, each time with [MAX_RETRIES] requests, and there the loop ends
    with the empty list: at the page size 100 it does not retry, though
    one retry of the three is left. *)
Theorem fetch_trades_timeouts (net : transport) (start_ts : option Z)
    (condition_id : string) (fuel : nat) (w : world) :
  (forall req k size,
      In size [250; 125; 100]%Z -> asks_for size req ->
      exists e,
        net req k = Failed e
        /\ Py.contains "timeout" (Py.lower (exn_str e)) = true) ->
  exists w1 w2 w3,
    trades_body net start_ts condition_id (TradesState [] JNull 250 3) w
    = (Ok (Continue (TradesState [] JNull 125 2)), w1)
    /\ trades_body net start_ts condition_id (TradesState [] JNull 125 2) w1
       = (Ok (Continue (TradesState [] JNull 100 1)), w2)
    /\ trades_body net start_ts condition_id (TradesState [] JNull 100 1) w2
       = (Ok (Break []), w3)
    /\ requests_made w1 = (requests_made w + MAX_RETRIES)%nat
    /\ requests_made w2 = (requests_made w + 2 * MAX_RETRIES)%nat
    /\ requests_made w3 = (requests_made w + 3 * MAX_RETRIES)%nat
    /\ fetch_trades_for_market (S (S (S fuel))) net start_ts condition_id w
       = Some (Ok [], w3).
Proof.
  intros H.
  destruct (trades_body_timeout net start_ts condition_id
              (TradesState [] JNull 250 3) w) as (w1 & E1 & H1).
  { intros k. apply (H _ k 250%Z); [now left|reflexivity]. }
  destruct (trades_body_timeout net start_ts condition_id
              (TradesState [] JNull 125 2) w1) as (w2 & E2 & H2).
  { intros k. apply (H _ k 125%Z); [now right; left|reflexivity]. }
  destruct (trades_body_timeout net start_ts condition_id
              (TradesState [] JNull 100 1) w2) as (w3 & E3 & H3).
  { intros k. apply (H _ k 100%Z); [now right; right; left|reflexivity]. }
  cbn [retries_left limit trades next_cursor] in E1, E2, E3.
  change ((0 <? 3)%Z && (100 <? 250)%Z) with true in E1.
  change (Z.max 100 (250 / 2)) with 125%Z in E1.
  change (3 - 1)%Z with 2%Z in E1.
  change ((0 <? 2)%Z && (100 <? 125)%Z) with true in E2.
  change (Z.max 100 (125 / 2)) with 100%Z in E2.
  change (2 - 1)%Z with 1%Z in E2.
  change ((0 <? 1)%Z && (100 <? 100)%Z) with false in E3.
  cbv iota in E1, E2, E3.
  exists w1, w2, w3. repeat split; try assumption; try lia.
  unfold fetch_trades_for_market, DATA_LIMIT. cbn [while_true].
  rewrite E1. cbv iota. rewrite E2. cbv iota. rewrite E3. reflexivity.
Qed.

Lemma fetch_trades_timeouts_witness :
  option_map (fun r => (fst r, requests_made (snd r)))
    (fetch_trades_for_market 3 (timing_out_on [250; 125; 100]%Z) START_TS
       "0xc" (World 0 []))
  = Some (Ok [], 15%nat)
  /\ option_map (fun r => (fst r, requests_made (snd r)))
       (fetch_trades_for_market 3 (timing_out_on [250; 125]%Z) START_TS
          "0xc" (World 0 []))
     = Some (Ok [JObj [("timestamp", JNum 1800000000)]], 11%nat)
  /\ exists w1 w2 w3,
       trades_body (timing_out_on [250; 125; 100]%Z) START_TS "0xc"
         (TradesState [] JNull 250 3) (World 0 [])
       = (Ok (Continue (TradesState [] JNull 125 2)), w1)
       /\ trades_body (timing_out_on [250; 125; 100]%Z) START_TS "0xc"
            (TradesState [] JNull 125 2) w1
          = (Ok (Continue (TradesState [] JNull 100 1)), w2)
       /\ trades_body (timing_out_on [250; 125; 100]%Z) START_TS "0xc"
            (TradesState [] JNull 100 1) w2
          = (Ok (Break []), w3)
       /\ requests_made w1 = (0 + MAX_RETRIES)%nat
       /\ requests_made w2 = (0 + 2 * MAX_RETRIES)%nat
       /\ requests_made w3 = (0 + 3 * MAX_RETRIES)%nat
       /\ fetch_trades_for_market 3 (timing_out_on [250; 125; 100]%Z)
            START_TS "0xc" (World 0 [])
          = Some (Ok [], w3).
Proof.
  split; [reflexivity|]. split; [reflexivity|].
  apply (fetch_trades_timeouts (timing_out_on [250; 125; 100]%Z) START_TS
           "0xc" 0 (World 0 [])).
  intros req k size Hin Hask. unfold timing_out_on. rewrite Hask.
  destruct Hin as [<-|[<-|[<-|[]]]]; eexists; split; reflexivity.
Defined.

(** *** The time window and the cursor *)

(** X12: the time window filters what is kept of a page, not the progress
    of the pagination: under two windows the same response ends the listing
    or continues it with the same cursor, page size and retry budget. *)
Theorem window_leaves_cursor (s1 s2 : option Z) (st : trades_state) (resp : json)
    (c1 c2 : ctl trades_state (list json)) :
  trades_page s1 st resp = Ok c1 ->
  trades_page s2 st resp = Ok c2 ->
  match c1, c2 with
  | Continue a, Continue b =>
      next_cursor a = next_cursor b /\ limit a = limit b
      /\ retries_left a = retries_left b
  | Break _, Break _ => True
  | _, _ => False
  end.
Proof.
  unfold trades_page.
  set (data := match resp with
               | JObj fields =>
                   match Py.lookup "data" fields with Some d => d | None => JNull end
               | _ => resp
               end).
  set (next := match resp with
               | JObj fields =>
                   match Py.lookup "next" fields with Some c => c | None => JNull end
               | _ => JNull
               end).
  destruct (negb (Py.truthy data)); [intros [= <-] [= <-]; exact I|].
  destruct (Py.iter data) as [items|e]; cbn [bind]; [|discriminate].
  destruct (window_filter s1 items (trades st)) as [k1|e1]; cbn [bind];
    [|discriminate].
  destruct (window_filter s2 items (trades st)) as [k2|e2]; cbn [bind];
    [|intros _; discriminate].
  destruct (negb (Py.truthy next)); intros [= <-] [= <-]; simpl; auto.
Qed.

Lemma window_leaves_cursor_witness :
  match
    @Continue trades_state (list json) (TradesState [] (JStr "p2") 250 3),
    @Continue trades_state (list json)
      (TradesState [JObj [("timestamp", JNum 5)]] (JStr "p2") 250 3)
  with
  | Continue a, Continue b =>
      next_cursor a = next_cursor b /\ limit a = limit b
      /\ retries_left a = retries_left b
  | Break _, Break _ => True
  | _, _ => False
  end.
Proof.
  apply (window_leaves_cursor START_TS None first_trades_state
           (JObj [("data", JArr [JObj [("timestamp", JNum 5)]]);
                  ("next", JStr "p2")]));
    reflexivity.
Defined.

Lemma window_filter_window (start_ts : option Z) (items acc : list json) :
  Forall (fun t => Py.isinstance_dict t = true) items ->
  window_filter start_ts items acc = Ok (acc ++ window start_ts items).
Proof.
  intros H. destruct start_ts as [bound|]; simpl;
    [now apply window_filter_bounded|now apply window_filter_unbounded].
Qed.

Lemma window_app (start_ts : option Z) (a b : list json) :
  window start_ts (a ++ b) = window start_ts a ++ window start_ts b.
Proof. destruct start_ts; simpl; [apply filter_app|reflexivity]. Qed.

(** X13: a response that is a bare array is a whole listing: the trades of
    the array that pass the window are returned after one request, since a
    bare array names no next page. *)
Theorem fetch_trades_bare_array (items : list json) (start_ts : option Z)
    (condition_id : string) (fuel : nat) (w : world) :
  Forall (fun t => Py.isinstance_dict t = true) items ->
  fetch_trades_for_market (S fuel) (always (JArr items)) start_ts condition_id w
  = Some (Ok (window start_ts items), sent w).
Proof.
  intros H. unfold fetch_trades_for_market. cbn [while_true]. unfold trades_body.
  rewrite (get_json_always (JArr items) URL_TRADES). unfold trades_page.
  destruct items as [|t rest].
  - destruct start_ts; reflexivity.
  - cbn [Py.truthy negb Py.iter bind trades].
    rewrite window_filter_window by assumption. reflexivity.
Qed.

Lemma fetch_trades_bare_array_witness :
  fetch_trades_for_market 1
    (always (JArr [JObj [("timestamp", JNum (inject_Z 1735689601))];
                   JObj [("timestamp", JNum 5)]]))
    START_TS "0xc" (World 0 [])
  = Some (Ok (window START_TS
                [JObj [("timestamp", JNum (inject_Z 1735689601))];
                 JObj [("timestamp", JNum 5)]]),
          sent (World 0 [])).
Proof.
  apply (fetch_trades_bare_array _ START_TS "0xc" 0 (World 0 [])).
  repeat constructor.
Defined.

(** *** Following the cursor through the pages *)

Lemma page_named_found (name : string) (items : list json)
    (rest : list (string * list json)) : forall done,
  ~ In name (map fst done) ->
  page_named name (done ++ (name, items) :: rest) = page_response items rest.
Proof.
  induction done as [|[n its] done IH]; simpl; intros H.
  - now rewrite String.eqb_refl.
  - destruct (String.eqb_spec n name) as [->|]; [tauto|]. apply IH. tauto.
Qed.

Lemma cursor_param (condition_id name : string) (acc : list json) (lim ret : Z) :
  name <> "" ->
  Py.lookup "cursor"
    (trades_params condition_id (TradesState acc (JStr name) lim ret))
  = Some (JStr name).
Proof.
  intros H. unfold trades_params. cbn [next_cursor Py.truthy].
  destruct (String.eqb_spec name "") as [|_]; [contradiction|]. reflexivity.
Qed.

Lemma trades_page_of_page (start_ts : option Z) (acc : list json)
    (cur : json) (lim ret : Z) (items : list json)
    (rest : list (string * list json)) :
  items <> [] -> Forall (fun t => Py.isinstance_dict t = true) items ->
  Forall good_page rest ->
  trades_page start_ts (TradesState acc cur lim ret) (page_response items rest)
  = Ok match rest with
       | (n, _) :: _ =>
           Continue (TradesState (acc ++ window start_ts items) (JStr n) lim ret)
       | [] => Break (acc ++ window start_ts items)
       end.
Proof.
  intros Hne Hd Hrest. unfold trades_page, page_response.
  cbn [Py.lookup String.eqb Ascii.eqb Bool.eqb].
  destruct items as [|t its]; [contradiction|].
  cbn [Py.truthy negb Py.iter bind trades].
  rewrite window_filter_window by assumption. cbn [bind].
  destruct rest as [|[n its'] rest]; [reflexivity|].
  cbn [Py.lookup String.eqb Ascii.eqb Bool.eqb Py.truthy limit retries_left].
  inversion Hrest as [|? ? [Hn _] _]; subst. simpl in Hn.
  destruct (String.eqb_spec n "") as [|_]; [contradiction|]. reflexivity.
Qed.

Lemma trades_loop_pages (pages : list (string * list json))
    (start_ts : option Z) (condition_id : string) :
  NoDup (map fst pages) -> Forall good_page pages ->
  forall rest done name items acc lim ret fuel w,
    pages = done ++ (name, items) :: rest ->
    (List.length rest < fuel)%nat ->
    while_true fuel (trades_body (cursor_server pages) start_ts condition_id)
      (TradesState acc (JStr name) lim ret) w
    = Some (Ok (acc ++ window start_ts (List.concat (items :: map snd rest))),
            World (requests_made w + 1 + List.length rest) (slept w)).
Proof.
  intros Hnd Hgood.
  induction rest as [|[n its] rest IH];
    intros done name items acc lim ret fuel w Hp Hfuel;
    (destruct fuel as [|fuel]; [simpl in Hfuel; lia|]).
  - assert (good_page (name, items)) as (Hn & Hi & Hd).
    { rewrite Hp in Hgood. apply Forall_app in Hgood as [_ Hg].
      now inversion Hg. }
    assert (page_named name pages = page_response items []) as Hpage.
    { rewrite Hp. apply page_named_found. rewrite Hp, map_app in Hnd.
      apply NoDup_remove_2 in Hnd. intros Hin. apply Hnd, in_or_app. now left. }
    cbn [while_true]. unfold trades_body.
    erewrite get_json_now by reflexivity.
    cbn [Fetch.params]. rewrite cursor_param, Hpage by exact Hn.
    rewrite trades_page_of_page by (assumption || constructor).
    cbn [List.concat map]. rewrite app_nil_r.
    destruct w as [k sl]. cbn [sent requests_made slept List.length].
    now rewrite Nat.add_0_r, Nat.add_1_r.
  - assert (good_page (name, items) /\ Forall good_page ((n, its) :: rest))
      as ((Hn & Hi & Hd) & Hrest).
    { rewrite Hp in Hgood. apply Forall_app in Hgood as [_ Hg].
      now inversion Hg. }
    assert (page_named name pages = page_response items ((n, its) :: rest))
      as Hpage.
    { rewrite Hp. apply page_named_found. rewrite Hp, map_app in Hnd.
      apply NoDup_remove_2 in Hnd. intros Hin. apply Hnd, in_or_app. now left. }
    cbn [while_true]. unfold trades_body.
    erewrite get_json_now by reflexivity.
    cbn [Fetch.params]. rewrite cursor_param, Hpage by exact Hn.
    rewrite trades_page_of_page by assumption.
    rewrite (IH (done ++ [(name, items)]) n its).
    + cbn [List.concat map]. rewrite !window_app, <- !app_assoc.
      destruct w as [k sl]. cbn [sent requests_made slept List.length].
      do 3 f_equal. lia.
    + now rewrite <- app_assoc.
    + simpl in Hfuel. lia.
Qed.

Lemma no_cursor_param (condition_id : string) :
  Py.lookup "cursor" (trades_params condition_id (TradesState [] JNull DATA_LIMIT 3))
  = None.
Proof. reflexivity. Qed.

(** X14: against a server of named pages, each with records that are
    objects and with the name of the next page as [next],
    [fetch_trades_for_market] follows the cursor through all the pages, one
    request each, and returns in order the records that pass the window. *)
Theorem fetch_trades_pages (first : string * list json)
    (more : list (string * list json)) (start_ts : option Z)
    (condition_id : string) (fuel : nat) (w : world) :
  NoDup (map fst (first :: more)) ->
  Forall good_page (first :: more) ->
  (List.length more < fuel)%nat ->
  fetch_trades_for_market fuel (cursor_server (first :: more)) start_ts
    condition_id w
  = Some (Ok (window start_ts (List.concat (map snd (first :: more)))),
          World (requests_made w + List.length (first :: more)) (slept w)).
Proof.
  intros Hnd Hgood Hfuel. destruct first as [name items].
  unfold fetch_trades_for_market.
  destruct fuel as [|fuel]; [lia|].
  inversion Hgood as [|? ? (Hn & Hi & Hd) Hrest]; subst. simpl in Hn, Hi, Hd.
  cbn [while_true]. unfold trades_body.
  erewrite get_json_now by reflexivity.
  cbn [Fetch.params]. rewrite no_cursor_param.
  rewrite trades_page_of_page by assumption.
  destruct more as [|[n its] rest].
  - cbn [List.concat map app]. rewrite app_nil_r.
    destruct w as [k sl]. cbn [sent requests_made slept List.length].
    now rewrite Nat.add_1_r.
  - rewrite (trades_loop_pages ((name, items) :: (n, its) :: rest) start_ts
               condition_id Hnd Hgood rest [(name, items)] n its).
    + cbn [List.concat map app]. rewrite !window_app.
      destruct w as [k sl]. cbn [sent requests_made slept List.length].
      do 3 f_equal. lia.
    + reflexivity.
    + simpl in Hfuel. lia.
Qed.

Lemma fetch_trades_pages_witness :
  fetch_trades_for_market 2
    (cursor_server
       [("p1", [JObj [("timestamp", JNum (inject_Z 1735689601))]]);
        ("p2", [JObj [("timestamp", JNum 5)];
                JObj [("timestamp", JNum (inject_Z 1735689700))]])])
    START_TS "0xc" (World 0 [])
  = Some (Ok (window START_TS
                (List.concat (map snd
                   [("p1", [JObj [("timestamp", JNum (inject_Z 1735689601))]]);
                    ("p2", [JObj [("timestamp", JNum 5)];
                            JObj [("timestamp", JNum (inject_Z 1735689700))]])]))),
          World (0 + List.length
                       [("p1", [JObj [("timestamp", JNum (inject_Z 1735689601))]]);
                        ("p2", [JObj [("timestamp", JNum 5)];
                                JObj [("timestamp", JNum (inject_Z 1735689700))]])])
            []).
Proof.
  apply (fetch_trades_pages _ _ START_TS "0xc" 2 (World 0 [])).
  - repeat constructor; simpl; intuition discriminate.
  - repeat constructor; simpl; discriminate.
  - simpl. lia.
Defined.

End ListingFacts.

(** ** More on the bundle: order of the figures, traders, days *)

Module BundleFacts.
Import Metrics MetricsSpec MetricsFacts.
Local Open Scope Q_scope.

Lemma min_from_le : forall (vals : list Q) (m : Q),
  min_from m vals <= m /\ Forall (fun v => min_from m vals <= v) vals.
Proof.
  induction vals as [|x r IH]; intros m; simpl.
  - split; [apply Qle_refl|constructor].
  - destruct (IH (if Qlt_le_dec x m then x else m)) as [Hm Hall].
    destruct (Qlt_le_dec x m) as [L|L].
    + split; [eapply Qle_trans; [exact Hm|now apply Qlt_le_weak]|].
      constructor; assumption.
    + split; [assumption|]. constructor; [|assumption].
      eapply Qle_trans; eassumption.
Qed.

Lemma max_from_ge : forall (vals : list Q) (m : Q),
  m <= max_from m vals /\ Forall (fun v => v <= max_from m vals) vals.
Proof.
  induction vals as [|x r IH]; intros m; simpl.
  - split; [apply Qle_refl|constructor].
  - destruct (IH (if Qlt_le_dec m x then x else m)) as [Hm Hall].
    destruct (Qlt_le_dec m x) as [L|L].
    + split; [eapply Qle_trans; [apply Qlt_le_weak, L|exact Hm]|].
      constructor; assumption.
    + split; [assumption|]. constructor; [|assumption].
      eapply Qle_trans; eassumption.
Qed.

Lemma sum_from_bounds (lo hi : Q) : forall (vals : list Q) (acc : Q),
  Forall (fun v => lo <= v /\ v <= hi) vals ->
  acc + of_nat (List.length vals) * lo <= fold_left Qplus vals acc
  /\ fold_left Qplus vals acc <= acc + of_nat (List.length vals) * hi.
Proof.
  induction vals as [|x r IH]; intros acc H.
  - simpl. unfold of_nat. simpl. split; ring_simplify; apply Qle_refl.
  - inversion H as [|? ? [Hl Hh] Hr]; subst.
    destruct (IH (acc + x) Hr) as [IL IH'].
    assert (of_nat (List.length (x :: r)) == of_nat (List.length r) + 1) as E.
    { unfold of_nat. cbn [List.length]. rewrite Nat2Z.inj_succ, <- Z.add_1_r.
      rewrite inject_Z_plus. reflexivity. }
    cbn [fold_left]. rewrite E. split.
    + eapply Qle_trans; [|exact IL].
      setoid_replace (acc + (of_nat (List.length r) + 1) * lo)
        with ((acc + lo) + of_nat (List.length r) * lo) by ring.
      apply Qplus_le_compat; [|apply Qle_refl].
      apply Qplus_le_compat; [apply Qle_refl|assumption].
    + eapply Qle_trans; [exact IH'|].
      setoid_replace (acc + (of_nat (List.length r) + 1) * hi)
        with ((acc + hi) + of_nat (List.length r) * hi) by ring.
      apply Qplus_le_compat; [|apply Qle_refl].
      apply Qplus_le_compat; [apply Qle_refl|assumption].
Qed.

Lemma of_nat_pos (n : nat) : (0 < n)%nat -> 0 < of_nat n.
Proof.
  intros H. unfold of_nat. rewrite <- (Zlt_Qlt 0). lia.
Qed.

Lemma of_nat_le (a b : nat) : (a <= b)%nat -> of_nat a <= of_nat b.
Proof. intros H. unfold of_nat. rewrite <- Zle_Qle. lia. Qed.

Lemma guarded_div_pos (a b : Q) : 0 < b -> guarded_div a b = a / b.
Proof.
  intros H. unfold guarded_div. destruct (Qeq_bool b 0) eqn:E; [|reflexivity].
  apply Qeq_bool_iff in E. rewrite E in H. now apply Qlt_irrefl in H.
Qed.

Lemma sum_from_ge : forall (vals : list Q) (acc : Q),
  Forall (fun x => 0 <= x) vals -> 0 <= acc ->
  acc <= fold_left Qplus vals acc
  /\ forall v, In v vals -> v <= fold_left Qplus vals acc.
Proof.
  induction vals as [|x r IH]; intros acc H Hacc.
  - simpl. split; [apply Qle_refl|tauto].
  - inversion H as [|? ? Hx Hr]; subst. cbn [fold_left].
    assert (0 <= acc + x) as Hax.
    { change 0 with (0 + 0). now apply Qplus_le_compat. }
    destruct (IH (acc + x) Hr Hax) as [Ha Hin]. split.
    + eapply Qle_trans; [|exact Ha].
      rewrite <- (Qplus_0_r acc) at 1.
      apply Qplus_le_compat; [apply Qle_refl|assumption].
    + intros v [<-|Hv]; [|now apply Hin].
      eapply Qle_trans; [|exact Ha].
      rewrite <- (Qplus_0_l x) at 1.
      apply Qplus_le_compat; [assumption|apply Qle_refl].
Qed.

Lemma max_from_in : forall (vals : list Q) (m : Q),
  In (max_from m vals) (m :: vals).
Proof.
  induction vals as [|x r IH]; intros m; simpl; [now left|].
  destruct (IH (if Qlt_le_dec m x then x else m)) as [E|Hin]; [|now right; right].
  destruct (Qlt_le_dec m x); rewrite <- E; [right|]; now left.
Qed.

Lemma min_from_in : forall (vals : list Q) (m : Q),
  In (min_from m vals) (m :: vals).
Proof.
  induction vals as [|x r IH]; intros m; simpl; [now left|].
  destruct (IH (if Qlt_le_dec x m then x else m)) as [E|Hin]; [|now right; right].
  destruct (Qlt_le_dec x m); rewrite <- E; [right|]; now left.
Qed.

Lemma div_mul_cancel (a b : Q) : ~ b == 0 -> a / b * b == a.
Proof. intros H. rewrite Qmult_comm. now apply Qmult_div_r. Qed.

(** X15: the averages of a bundle are in order with its total: the
    average trade size is at most the total volume, and with at least one
    trader the average trade size is at most the average volume per
    trader, which is at most the total volume, since the traders are no
    more than the trades.  Each bound compares quotients of the one total
    by counts that are in order. *)
Theorem bundle_averages_order (trades : list Trade) :
  exists b,
    compute_metrics trades = Ok b
    /\ avg_trade_size_usd b <= total_volume_usd b
    /\ ((0 < traders_count b)%nat ->
        avg_trade_size_usd b <= avg_volume_per_trader b
        /\ avg_volume_per_trader b <= total_volume_usd b).
Proof.
  destruct trades as [|t ts].
  - exists zero_bundle. simpl. repeat split; try apply Qle_refl; lia.
  - eexists. split; [apply compute_metrics_cons|]. cbv zeta.
    cbn [avg_trade_size_usd total_volume_usd traders_count
         avg_volume_per_trader].
    set (vals := map usd (t :: ts)).
    set (traders := fold_left add_trader (t :: ts) []).
    assert (0 < List.length vals)%nat as Hn by (unfold vals; simpl; lia).
    pose proof (of_nat_pos _ Hn) as Hnq.
    assert (~ of_nat (List.length vals) == 0) as Hnz
        by (intros E; rewrite E in Hnq; now apply Qlt_irrefl in Hnq).
    pose proof (usd_nonneg (t :: ts)) as Hnn. fold vals in Hnn.
    destruct (sum_from_ge vals 0 Hnn (Qle_refl 0)) as [Hs0 _].
    fold (sum vals) in Hs0.
    rewrite (guarded_div_pos _ _ Hnq).
    assert (0 <= sum vals / of_nat (List.length vals)) as Havg0.
    { apply Qle_shift_div_l; [assumption|]. now rewrite Qmult_0_l. }
    split.
    + apply round6_le, Qle_shift_div_r; [assumption|].
      rewrite <- (Qmult_1_r (sum vals)) at 1.
      rewrite !(Qmult_comm (sum vals)).
      apply Qmult_le_compat_r; [|assumption].
      change 1 with (of_nat 1). apply of_nat_le. lia.
    + intros Ht. pose proof (of_nat_pos _ Ht) as Htq.
      rewrite (guarded_div_pos _ _ Htq).
      assert (List.length traders <= List.length vals)%nat as Hle.
      { unfold vals, traders. rewrite length_map.
        pose proof (traders_length (t :: ts) []) as Hl.
        change (List.length (@nil string)) with 0%nat in Hl. lia. }
      split; apply round6_le.
      * apply Qle_shift_div_l; [assumption|].
        eapply Qle_trans;
          [|apply Qle_lteq; right; apply (div_mul_cancel _ _ Hnz)].
        rewrite !(Qmult_comm (sum vals / of_nat (List.length vals))).
        apply Qmult_le_compat_r; [now apply of_nat_le|assumption].
      * apply Qle_shift_div_r; [assumption|].
        rewrite <- (Qmult_1_r (sum vals)) at 1.
        rewrite !(Qmult_comm (sum vals)).
        apply Qmult_le_compat_r; [|assumption].
        change 1 with (of_nat 1). apply of_nat_le. lia.
Qed.

(** *** The traders *)

Lemma set_add_in (a x : string) : forall s,
  In x (set_add a s) <-> x = a \/ In x s.
Proof.
  induction s as [|b r IH]; simpl; [intuition|].
  destruct (String.eqb_spec b a) as [->|Hne]; simpl; [intuition|].
  rewrite IH. intuition.
Qed.

Lemma set_add_nodup (a : string) : forall s, NoDup s -> NoDup (set_add a s).
Proof.
  induction s as [|b r IH]; intros H; simpl; [repeat constructor; tauto|].
  destruct (String.eqb_spec b a) as [->|Hne]; [assumption|].
  inversion H as [|? ? Hb Hr]; subst. constructor; [|now apply IH].
  rewrite set_add_in. intros [->|Hin]; tauto.
Qed.

Lemma traders_fold : forall (trades : list Trade) (s : list string),
  NoDup s ->
  NoDup (fold_left add_trader trades s)
  /\ forall a, In a (fold_left add_trader trades s)
       <-> In a s \/ (a <> "" /\ exists tr, In tr trades /\ addr tr = a).
Proof.
  induction trades as [|t r IH]; intros s Hs; simpl.
  - split; [assumption|]. intros a. split; [tauto|].
    intros [H|(_ & tr & [] & _)]; assumption.
  - assert (NoDup (add_trader s t)) as Hs'.
    { unfold add_trader. destruct (addr t); [assumption|now apply set_add_nodup]. }
    destruct (IH _ Hs') as [Hnd Hin]. split; [assumption|].
    intros a. rewrite Hin. unfold add_trader.
    destruct (addr t) as [|c rest] eqn:E.
    + split.
      * intros [H|(Hne & tr & Htr & Ha)]; [now left|].
        right. split; [assumption|]. exists tr. auto.
      * intros [H|(Hne & tr & [<-|Htr] & Ha)]; [now left|congruence|].
        right. split; [assumption|]. exists tr. auto.
    + rewrite set_add_in. split.
      * intros [[->|H]|(Hne & tr & Htr & Ha)].
        -- right. split; [discriminate|]. exists t. auto.
        -- now left.
        -- right. split; [assumption|]. exists tr. auto.
      * intros [H|(Hne & tr & [<-|Htr] & Ha)].
        -- left. now right.
        -- left. left. congruence.
        -- right. split; [assumption|]. exists tr. auto.
Qed.

Lemma lower_char_idempotent (c : ascii) :
  Py.lower_char (Py.lower_char c) = Py.lower_char c.
Proof. destruct c as [[] [] [] [] [] [] [] []]; reflexivity. Qed.

Lemma lower_idempotent (s : string) : Py.lower (Py.lower s) = Py.lower s.
Proof.
  induction s as [|c r IH]; simpl; [reflexivity|].
  now rewrite lower_char_idempotent, IH.
Qed.

(** X16: the traders of a bundle are the distinct addresses of the trades,
    in lower case and without the empty one: each is counted once however
    many trades it made and however it was capitalised, and
    [traders_count] is their number. *)
Theorem bundle_traders (trades : list Trade) :
  exists b,
    compute_metrics trades = Ok b
    /\ NoDup (_traders b)
    /\ traders_count b = List.length (_traders b)
    /\ (forall a, In a (_traders b)
          <-> a <> "" /\ exists tr, In tr trades /\ addr tr = a)
    /\ (forall a, In a (_traders b) -> Py.lower a = a).
Proof.
  destruct (traders_fold trades [] (NoDup_nil _)) as [Hnd Hin].
  assert (forall a, In a (fold_left add_trader trades [])
            <-> a <> "" /\ exists tr, In tr trades /\ addr tr = a) as Hin'.
  { intros a. rewrite Hin. simpl. tauto. }
  assert (forall a, In a (fold_left add_trader trades []) -> Py.lower a = a) as Hlow.
  { intros a Ha. apply Hin' in Ha as (_ & tr & _ & <-).
    unfold addr. apply lower_idempotent. }
  destruct trades as [|t ts].
  - exists zero_bundle. simpl in *. repeat split; trivial; try constructor;
      try apply Hin'; tauto.
  - eexists. split; [apply compute_metrics_cons|]. cbv zeta.
    cbn [_traders traders_count]. repeat split; trivial; apply Hin'; assumption.
Qed.

(** *** The days *)

Lemma min_timestamp_least (trades : list Trade) (lo : Q) :
  min_timestamp trades = Some lo ->
  In lo (numeric_timestamps trades)
  /\ forall ts, In ts (numeric_timestamps trades) -> lo <= ts.
Proof.
  unfold min_timestamp. destruct (numeric_timestamps trades) as [|x r];
    [discriminate|]. intros [= <-].
  destruct (min_from_le r x) as [Hm Hall]. split; [apply min_from_in|].
  intros ts [<-|Hts]; [assumption|]. rewrite Forall_forall in Hall. now apply Hall.
Qed.

Lemma max_timestamp_greatest (trades : list Trade) (hi : Q) :
  max_timestamp trades = Some hi ->
  In hi (numeric_timestamps trades)
  /\ forall ts, In ts (numeric_timestamps trades) -> ts <= hi.
Proof.
  unfold max_timestamp. destruct (numeric_timestamps trades) as [|x r];
    [discriminate|]. intros [= <-].
  destruct (max_from_ge r x) as [Hm Hall]. split; [apply max_from_in|].
  intros ts [<-|Hts]; [assumption|]. rewrite Forall_forall in Hall. now apply Hall.
Qed.

(** X17: when the timestamps of the trades are positive, as epoch seconds
    of this era are, the active days are the inclusive day span from the
    least to the greatest of them, at least one day. *)
Theorem active_days_positive (trades : list Trade) (b : bundle) (lo hi : Q) :
  compute_metrics trades = Ok b ->
  min_timestamp trades = Some lo ->
  max_timestamp trades = Some hi ->
  (forall ts, In ts (numeric_timestamps trades) -> 0 < ts) ->
  (forall ts, In ts (numeric_timestamps trades) -> lo <= ts /\ ts <= hi)
  /\ active_days b = (Qfloor ((hi - lo) / inject_Z 86400) + 1)%Z
  /\ (1 <= active_days b)%Z.
Proof.
  intros Hb Hlo Hhi Hpos.
  destruct (min_timestamp_least _ _ Hlo) as [Hlin Hleast].
  destruct (max_timestamp_greatest _ _ Hhi) as [Hhin Hgreat].
  split; [intros ts Hts; split; auto|].
  pose proof (active_days_spec _ _ Hb) as Ha. rewrite Hlo, Hhi in Ha.
  assert (Qeq_bool lo 0 = false) as Zlo.
  { destruct (Qeq_bool lo 0) eqn:E; [|reflexivity]. apply Qeq_bool_iff in E.
    pose proof (Hpos lo Hlin) as P. rewrite E in P. now apply Qlt_irrefl in P. }
  assert (Qeq_bool hi 0 = false) as Zhi.
  { destruct (Qeq_bool hi 0) eqn:E; [|reflexivity]. apply Qeq_bool_iff in E.
    pose proof (Hpos hi Hhin) as P. rewrite E in P. now apply Qlt_irrefl in P. }
  rewrite Zlo, Zhi in Ha. cbn [orb] in Ha. split; [exact Ha|].
  rewrite Ha.
  assert (0 <= (hi - lo) / inject_Z 86400) as Hq.
  { apply Qle_shift_div_l; [reflexivity|]. rewrite Qmult_0_l.
    apply -> Qle_minus_iff. now apply Hleast. }
  apply Qfloor_resp_le in Hq. change (Qfloor 0) with 0%Z in Hq. lia.
Qed.

Lemma active_days_positive_witness :
  exists b,
    compute_metrics [example_trade (inject_Z 1735689600);
                     example_trade (inject_Z 1735862400)] = Ok b
    /\ (forall ts,
          In ts (numeric_timestamps
                   [example_trade (inject_Z 1735689600);
                    example_trade (inject_Z 1735862400)]) ->
          inject_Z 1735689600 <= ts /\ ts <= inject_Z 1735862400)
    /\ active_days b
       = (Qfloor ((inject_Z 1735862400 - inject_Z 1735689600) / inject_Z 86400)
          + 1)%Z
    /\ (1 <= active_days b)%Z.
Proof.
  eexists. split; [reflexivity|].
  apply (active_days_positive
           [example_trade (inject_Z 1735689600);
            example_trade (inject_Z 1735862400)]).
  - reflexivity.
  - reflexivity.
  - reflexivity.
  - intros ts [<-|[<-|[]]]; reflexivity.
Defined.

(** X18: when no trade has a timestamp of a numeric type (the key is
    missing, or holds a string or null), the bundle has no active day and
    no trade per day, and its other figures are not affected. *)
Theorem no_timestamp_no_days (trades : list Trade) :
  numeric_timestamps trades = [] ->
  exists b,
    compute_metrics trades = Ok b
    /\ active_days b = 0%Z
    /\ avg_trades_per_day b = 0
    /\ total_trades b = List.length trades
    /\ total_volume_usd b = Py.round6 (sum (map usd trades)).
Proof.
  intros H. destruct trades as [|t ts].
  - exists zero_bundle. repeat split; reflexivity.
  - eexists. split; [apply compute_metrics_cons|]. cbv zeta.
    cbn [active_days avg_trades_per_day total_trades total_volume_usd].
    rewrite fold_track_unset. unfold min_timestamp, max_timestamp. rewrite H.
    cbn [fst snd active_of]. rewrite length_map. repeat split; reflexivity.
Qed.

Lemma no_timestamp_no_days_witness :
  exists b,
    compute_metrics [mkTrade (Some 2) (Some (1 # 4)) None (JStr "1735689600");
                     mkTrade (Some 4) (Some (1 # 2)) None JNull] = Ok b
    /\ active_days b = 0%Z
    /\ avg_trades_per_day b = 0
    /\ total_trades b
       = List.length [mkTrade (Some 2) (Some (1 # 4)) None (JStr "1735689600");
                      mkTrade (Some 4) (Some (1 # 2)) None JNull]
    /\ total_volume_usd b
       = Py.round6
           (sum (map usd
                   [mkTrade (Some 2) (Some (1 # 4)) None (JStr "1735689600");
                    mkTrade (Some 4) (Some (1 # 2)) None JNull])).
Proof.
  apply (no_timestamp_no_days
           [mkTrade (Some 2) (Some (1 # 4)) None (JStr "1735689600");
            mkTrade (Some 4) (Some (1 # 2)) None JNull]).
  reflexivity.
Defined.

End BundleFacts.

(** ** More on the aggregation: the partition, the order, missing ids *)

Module RowFacts.
Import Metrics Aggregate AggregateSpec RowSpec AggregateFacts.

Section Rows.

Variable W : Type.
Variable fetch : string -> W -> result (list Trade) * W.

Lemma event_row_fields (n : nat) (k : string) (mkts : list Market) (w w' : W)
    (r : row) :
  event_row W fetch n k mkts w = (Ok r, w') ->
  unique_events r = n /\ unique_tokens r = markets_count r
  /\ url r = Slug.event_url (event_key r).
Proof.
  unfold event_row. destruct (max_by volume_of mkts) as [rep|]; [|discriminate].
  set (cond := or_else (conditionId rep) (condition_id rep)).
  destruct (match cond with
            | Some c => if str_truthy cond then fetch c w else (Ok [], w)
            | None => (Ok [], w)
            end) as [fetched w1].
  destruct fetched as [trades|]; [|discriminate]. cbn [bind].
  destruct (compute_metrics trades) as [mm|]; [|discriminate]. cbn [bind].
  intros [= <- <-]. simpl. auto.
Qed.

Lemma event_rows_fields (n : nat) (P : row -> Prop) :
  (forall k mkts w w' r, event_row W fetch n k mkts w = (Ok r, w') -> P r) ->
  forall groups rows0 w rows w',
    event_rows W fetch n groups rows0 w = (Ok rows, w') ->
    Forall P rows0 -> Forall P rows.
Proof.
  intros HP. induction groups as [|[k mkts] rest IH]; intros rows0 w rows w'; simpl.
  - now intros [= <- <-].
  - destruct (event_row W fetch n k mkts w) as [[r|] w1] eqn:E; [|discriminate].
    intros H H0. eapply IH; [exact H|].
    apply Forall_app. split; [assumption|]. constructor; [|constructor].
    eapply HP, E.
Qed.

Lemma group_sizes (b : string) (m : Market) : forall groups,
  list_sum (map (fun g => List.length (snd g)) (setdefault_append b m groups))
  = S (list_sum (map (fun g => List.length (snd g)) groups)).
Proof.
  induction groups as [|[k mkts] rest IH]; simpl; [reflexivity|].
  destruct (String.eqb k b); simpl.
  - rewrite length_app. simpl. lia.
  - rewrite IH. lia.
Qed.

Lemma fold_group_sizes : forall markets groups,
  list_sum (map (fun g => List.length (snd g))
              (fold_left (fun g m => setdefault_append (Slug.base_slug (slug m)) m g)
                 markets groups))
  = (list_sum (map (fun g => List.length (snd g)) groups)
     + List.length markets)%nat.
Proof.
  induction markets as [|m rest IH]; intros groups; simpl; [lia|].
  rewrite IH, group_sizes. lia.
Qed.

Lemma rows_of_groups (groups : list (string * list Market)) (rows : list row) :
  Forall2 row_of_group groups rows ->
  map event_key rows = map fst groups
  /\ map markets_count rows = map (fun g => List.length (snd g)) groups
  /\ List.length rows = List.length groups.
Proof.
  induction 1 as [|g r gs rs (Hk & Hc & _) HF (IH1 & IH2 & IH3)]; simpl;
    [auto|].
  rewrite Hk, Hc, IH1, IH2, IH3. auto.
Qed.

(** X19: the rows partition the markets: their keys are distinct, their
    market counts add up to the number of markets, each row counts the
    markets of the input under its key, at least one, and carries the
    number of rows as [unique_events], the market count again as
    [unique_tokens] and the event URL of its key. *)
Theorem rows_partition_markets (markets : list Market) (w w' : W)
    (rows : list row) :
  aggregate_events W fetch markets w = (Ok rows, w') ->
  NoDup (map event_key rows)
  /\ list_sum (map markets_count rows) = List.length markets
  /\ forall r, In r rows ->
       markets_count r = List.length (group_of markets (event_key r))
       /\ (1 <= markets_count r)%nat
       /\ unique_events r = List.length rows
       /\ unique_tokens r = markets_count r
       /\ url r = Slug.event_url (event_key r).
Proof.
  intros H. pose proof (aggregate_rows W fetch _ _ _ _ H) as HF.
  destruct (rows_of_groups _ _ HF) as (Hk & Hc & Hl).
  destruct (group_markets_spec markets) as [Hnd _].
  split; [now rewrite Hk|]. split.
  - rewrite Hc. unfold group_markets. rewrite fold_group_sizes. reflexivity.
  - intros r Hr.
    destruct (row_group W fetch _ _ _ _ _ H Hr) as (Hne & _ & Hcount & _).
    simpl in Hcount. split; [exact Hcount|]. split.
    + rewrite Hcount. destruct (group_of markets (event_key r));
        [contradiction|simpl; lia].
    + unfold aggregate_events in H.
      assert (Forall (fun r => unique_events r = List.length (group_markets markets)
                               /\ unique_tokens r = markets_count r
                               /\ url r = Slug.event_url (event_key r)) rows) as HP.
      { eapply event_rows_fields; [|exact H|constructor].
        intros k mkts w0 w1 r0. apply event_row_fields. }
      rewrite Forall_forall in HP. destruct (HP r Hr) as (Hu & Ht & Hurl).
      rewrite Hl. auto.
Qed.

End Rows.

Lemma rows_partition_markets_witness :
  NoDup (map event_key
           (match fst (aggregate_events unit no_trades
                         (tiny_market :: three_markets) tt) with
            | Ok rows => rows
            | Raise _ => []
            end))
  /\ list_sum (map markets_count
                (match fst (aggregate_events unit no_trades
                              (tiny_market :: three_markets) tt) with
                 | Ok rows => rows
                 | Raise _ => []
                 end)) = List.length (tiny_market :: three_markets)
  /\ forall r,
       In r (match fst (aggregate_events unit no_trades
                          (tiny_market :: three_markets) tt) with
             | Ok rows => rows
             | Raise _ => []
             end) ->
       markets_count r
       = List.length (group_of (tiny_market :: three_markets) (event_key r))
       /\ (1 <= markets_count r)%nat
       /\ unique_events r
          = List.length (match fst (aggregate_events unit no_trades
                                      (tiny_market :: three_markets) tt) with
                         | Ok rows => rows
                         | Raise _ => []
                         end)
       /\ unique_tokens r = markets_count r
       /\ url r = Slug.event_url (event_key r).
Proof.
  apply (rows_partition_markets unit no_trades (tiny_market :: three_markets) tt tt).
  reflexivity.
Defined.

(** *** The order of the rows *)

Lemma find_group_some (k : string) : forall groups mkts,
  find_group k groups = Some mkts -> In k (map fst groups).
Proof.
  induction groups as [|[k' ms] rest IH]; simpl; [discriminate|]. intros mkts.
  destruct (String.eqb_spec k' k) as [->|]; [now left|].
  intros H. right. eapply IH, H.
Qed.

Lemma group_markets_snoc (markets : list Market) (m : Market) :
  group_markets (markets ++ [m])
  = setdefault_append (Slug.base_slug (slug m)) m (group_markets markets).
Proof. unfold group_markets. now rewrite fold_left_app. Qed.

(** The keys of the groups: each key once, in the order in which the keys
    first occur among the markets. *)
Lemma group_keys_first_seen (markets : list Market) :
  map fst (group_markets markets)
  = rev (nodup string_dec
           (rev (map (fun m => Slug.base_slug (slug m)) markets))).
Proof.
  induction markets as [|m ms IH] using rev_ind; [reflexivity|].
  rewrite group_markets_snoc, keys_setdefault, map_app, rev_app_distr.
  cbn [map rev app nodup].
  set (b := Slug.base_slug (slug m)).
  set (seen := rev (map (fun m0 => Slug.base_slug (slug m0)) ms)) in *.
  assert (In b (map fst (group_markets ms)) <-> In b seen) as Hin.
  { rewrite IH, <- in_rev, nodup_In. reflexivity. }
  destruct (in_dec string_dec b seen) as [Hb|Hb];
    destruct (find_group b (group_markets ms)) as [mkts|] eqn:F.
  - exact IH.
  - apply find_group_none in F. tauto.
  - apply find_group_some in F. tauto.
  - cbn [rev]. now rewrite IH.
Qed.

Section RowsInOrder.

Variable W : Type.
Variable fetch : string -> W -> result (list Trade) * W.

(** X20: the rows come in the order in which their keys first occur among
    the markets, one row per key. *)
Theorem rows_in_first_seen_order (markets : list Market) (w w' : W)
    (rows : list row) :
  aggregate_events W fetch markets w = (Ok rows, w') ->
  map event_key rows
  = rev (nodup string_dec
           (rev (map (fun m => Slug.base_slug (slug m)) markets))).
Proof.
  intros H. apply (aggregate_rows W fetch) in H.
  destruct (rows_of_groups _ _ H) as (Hk & _). rewrite Hk.
  apply group_keys_first_seen.
Qed.

(** *** Representatives without a condition id *)

Lemma max_from_by_in {A : Type} (key : A -> Q) : forall rest best,
  In (max_from_by key best rest) (best :: rest).
Proof.
  induction rest as [|x r IH]; intros best; simpl; [now left|].
  destruct (IH (if Qlt_le_dec (key best) (key x) then x else best)) as [E|Hin];
    [|now right; right].
  destruct (Qlt_le_dec (key best) (key x)); rewrite <- E; [right|]; now left.
Qed.

Lemma not_truthy_empty (s : option string) :
  str_truthy s = false -> match s with Some c => c | None => "" end = "".
Proof. destruct s as [[|c r]|]; [reflexivity|discriminate|reflexivity]. Qed.

Lemma event_row_without_condition (n : nat) (k : string) (mkts : list Market)
    (w : W) :
  mkts <> [] ->
  (forall m, In m mkts ->
     str_truthy (or_else (conditionId m) (condition_id m)) = false) ->
  exists r, event_row W fetch n k mkts w = (Ok r, w) /\ no_trade_figures r.
Proof.
  intros Hne Hc. unfold event_row. destruct mkts as [|m ms]; [contradiction|].
  cbn [max_by]. set (rep := max_from_by volume_of m ms).
  pose proof (Hc rep (max_from_by_in volume_of ms m)) as Hrep.
  pose proof (not_truthy_empty _ Hrep) as Hid.
  destruct (or_else (conditionId rep) (condition_id rep)) as [c|] eqn:E.
  - rewrite Hrep. cbn [bind compute_metrics]. eexists. split; [reflexivity|].
    unfold no_trade_figures. simpl. repeat split; trivial.
  - cbn [bind compute_metrics]. eexists. split; [reflexivity|].
    unfold no_trade_figures. simpl. repeat split; trivial.
Qed.

Lemma event_rows_without_condition (n : nat) : forall groups rows0 w,
  Forall (fun g => snd g <> []
                   /\ forall m, In m (snd g) ->
                        str_truthy (or_else (conditionId m) (condition_id m))
                        = false) groups ->
  Forall no_trade_figures rows0 ->
  exists rows,
    event_rows W fetch n groups rows0 w = (Ok rows, w)
    /\ Forall no_trade_figures rows.
Proof.
  induction groups as [|[k mkts] rest IH]; intros rows0 w Hg H0; simpl.
  - now exists rows0.
  - inversion Hg as [|? ? [Hne Hc] Hrest]; subst. simpl in Hne, Hc.
    destruct (event_row_without_condition n k mkts w Hne Hc) as (r & -> & Hr).
    apply IH; [assumption|].
    apply Forall_app. split; [assumption|]. constructor; [exact Hr|constructor].
Qed.

(** X21: when no market has a condition id, under either key, the
    aggregation never calls the trade source: whatever the source would do,
    the state of the network is unchanged, every group gets its row, and
    all trade figures of the rows are zero. *)
Theorem rows_without_condition (markets : list Market) (w : W) :
  (forall m, In m markets ->
     str_truthy (or_else (conditionId m) (condition_id m)) = false) ->
  exists rows,
    aggregate_events W fetch markets w = (Ok rows, w)
    /\ Forall no_trade_figures rows.
Proof.
  intros H. unfold aggregate_events.
  apply event_rows_without_condition; [|constructor].
  apply Forall_forall. intros [k mkts] Hg. simpl.
  destruct (group_markets_spec markets) as [_ Hspec].
  destruct (Hspec k mkts Hg) as [-> Hne]. split; [assumption|].
  intros m Hm. apply H. unfold group_of in Hm. now apply filter_In in Hm.
Qed.

End RowsInOrder.

Lemma rows_in_first_seen_order_witness :
  map event_key
    (match fst (aggregate_events unit no_trades
                  (tiny_market :: three_markets ++ [tiny_market]) tt) with
     | Ok rows => rows
     | Raise _ => []
     end)
  = rev (nodup string_dec
           (rev (map (fun m => Slug.base_slug (slug m))
                   (tiny_market :: three_markets ++ [tiny_market])))).
Proof.
  apply (rows_in_first_seen_order unit no_trades
           (tiny_market :: three_markets ++ [tiny_market]) tt tt).
  reflexivity.
Defined.

Lemma rows_without_condition_witness :
  exists rows,
    aggregate_events unit (fun _ w => (Raise (Exn TypeError "unused"), w))
      [mkMarket "1" "a-2025-06-01-x" None (Some "") (Some 3%Q) "Q1";
       mkMarket "2" "b" (Some "") None None "Q2"] tt
    = (Ok rows, tt)
    /\ Forall no_trade_figures rows.
Proof.
  apply (rows_without_condition unit
           (fun _ w => (Raise (Exn TypeError "unused"), w))).
  intros m [<-|[<-|[]]]; reflexivity.
Defined.

End RowFacts.

(* ------------------------------------------------------------------ *)
(** ** The main script: one market per id *)

Module DedupFacts.
Import Py Main MainSpec.

Lemma key_eqb_sym (a b : json) : key_eqb a b = key_eqb b a.
Proof.
  assert (Hq : forall x y, Qeq_bool x y = Qeq_bool y x).
  { intros x y. destruct (Qeq_bool x y) eqn:E, (Qeq_bool y x) eqn:E'; try reflexivity.
    - apply Qeq_bool_iff in E. symmetry in E. apply Qeq_bool_iff in E. congruence.
    - apply Qeq_bool_iff in E'. symmetry in E'. apply Qeq_bool_iff in E'. congruence. }
  destruct a as [|[]| | | |], b as [|[]| | | |]; unfold key_eqb; simpl;
    try reflexivity; try apply Hq.
  apply String.eqb_sym.
Qed.

Lemma key_eqb_trans (a b c : json) :
  key_eqb a b = true -> key_eqb b c = true -> key_eqb a c = true.
Proof.
  destruct a as [|[]| | | |], b as [|[]| | | |]; unfold key_eqb; simpl;
    try discriminate; intros Hab;
    destruct c as [|[]| | | |]; simpl; try discriminate; try reflexivity;
    intros Hbc;
    try (apply Qeq_bool_iff in Hab, Hbc; apply Qeq_bool_iff;
         exact (Qeq_trans _ _ _ Hab Hbc)).
  apply String.eqb_eq in Hab, Hbc. apply String.eqb_eq. congruence.
Qed.

Lemma key_eqb_apart (a b c : json) :
  key_eqb a b = false -> key_eqb b c = true -> key_eqb a c = false.
Proof.
  intros Hab Hbc. destruct (key_eqb a c) eqn:E; [|reflexivity].
  rewrite key_eqb_sym in Hbc.
  rewrite (key_eqb_trans a c b E Hbc) in Hab. discriminate.
Qed.

Lemma key_eqb_refl (k : json) : hashable k = Ok tt -> key_eqb k k = true.
Proof.
  destruct k as [|[]| | | |]; unfold key_eqb; simpl; try discriminate;
    intros _; try reflexivity.
  - apply Qeq_bool_iff. reflexivity.
  - apply String.eqb_refl.
Qed.

(** What [dict_set] does to the entries. *)
Lemma dict_set_spec (k0 m0 : json) (d : list (json * json)) :
  (exists d1 k' v' d2,
      d = d1 ++ (k', v') :: d2
      /\ dict_set k0 m0 d = d1 ++ (k', m0) :: d2
      /\ key_eqb k' k0 = true
      /\ Forall (fun kv => key_eqb (fst kv) k0 = false) d1)
  \/ (dict_set k0 m0 d = d ++ [(k0, m0)]
      /\ Forall (fun kv => key_eqb (fst kv) k0 = false) d).
Proof.
  induction d as [|[k v] rest IH]; simpl.
  - right. split; [reflexivity|constructor].
  - destruct (key_eqb k k0) eqn:E.
    + left. exists [], k, v, rest. repeat split; auto.
    + destruct IH as [(d1 & k' & v' & d2 & -> & -> & Hk & Hd1)|[-> Hall]].
      * left. exists ((k, v) :: d1), k', v', d2. repeat split; auto.
      * right. split; [reflexivity|]. constructor; auto.
Qed.

Lemma distinct_keys_app (d1 d2 : list (json * json)) :
  distinct_keys (d1 ++ d2) <->
  distinct_keys d1 /\ distinct_keys d2
  /\ forall a b, In a d1 -> In b d2 -> key_eqb (fst a) (fst b) = false.
Proof.
  unfold distinct_keys. induction d1 as [|x d1 IH]; simpl.
  - split.
    + intros H. repeat split; [constructor|assumption|intros ? ? []].
    + now intros (_ & H & _).
  - split.
    + intros H. inversion H as [|? ? Hx Hrest]; subst.
      apply IH in Hrest. destruct Hrest as (H1 & H2 & H12).
      rewrite Forall_app in Hx. destruct Hx as [Hx1 Hx2].
      repeat split.
      * constructor; assumption.
      * assumption.
      * intros a b [<-|Ha] Hb.
        -- rewrite Forall_forall in Hx2. now apply Hx2.
        -- now apply H12.
    + intros (H1 & H2 & H12). inversion H1 as [|? ? Hx Hrest]; subst.
      constructor.
      * apply Forall_app. split; [assumption|].
        apply Forall_forall. intros b Hb. apply H12; [now left|assumption].
      * apply IH. repeat split; auto.
Qed.

Lemma dict_set_distinct (k0 m0 : json) (d : list (json * json)) :
  distinct_keys d -> distinct_keys (dict_set k0 m0 d).
Proof.
  intros Hd.
  destruct (dict_set_spec k0 m0 d)
    as [(d1 & k' & v' & d2 & -> & -> & Hk & Hd1)|[-> Hall]].
  - apply distinct_keys_app in Hd. destruct Hd as (H1 & H2 & H12).
    apply distinct_keys_app. repeat split; [assumption| |].
    + unfold distinct_keys in *. inversion H2; subst. constructor; assumption.
    + intros a b Ha [<-|Hb].
      * apply (H12 a (k', v') Ha). now left.
      * apply H12; [assumption|now right].
  - apply distinct_keys_app. repeat split; [assumption| |].
    + unfold distinct_keys. repeat constructor.
    + intros a b Ha [<-|[]]. rewrite Forall_forall in Hall. now apply Hall.
Qed.

Lemma dict_set_in_elim (k0 m0 : json) (d : list (json * json)) (k m : json) :
  distinct_keys d -> key_eqb k0 k0 = true ->
  In (k, m) (dict_set k0 m0 d) ->
  (m = m0 /\ key_eqb k k0 = true) \/ (In (k, m) d /\ key_eqb k k0 = false).
Proof.
  intros Hd Hrefl.
  destruct (dict_set_spec k0 m0 d)
    as [(d1 & k' & v' & d2 & -> & -> & Hk & Hd1)|[-> Hall]].
  - apply distinct_keys_app in Hd. destruct Hd as (H1 & H2 & H12).
    unfold distinct_keys in H2. inversion H2 as [|? ? Hk2 H2']; subst.
    rewrite Forall_forall in Hd1, Hk2.
    rewrite !in_app_iff. simpl.
    intros [Hin|[Heq|Hin]].
    + right. split; [now left|]. apply (Hd1 _ Hin).
    + injection Heq as <- <-. now left.
    + right. split; [now right; right|].
      apply key_eqb_apart with k'; [|assumption].
      rewrite key_eqb_sym. apply (Hk2 _ Hin).
  - rewrite Forall_forall in Hall. rewrite in_app_iff. simpl.
    intros [Hin|[Heq|[]]].
    + right. split; [assumption|]. apply (Hall _ Hin).
    + injection Heq as <- <-. now left.
Qed.

Lemma dict_set_keeps (k0 m0 : json) (d : list (json * json)) (k m : json) :
  In (k, m) d -> key_eqb k k0 = false -> In (k, m) (dict_set k0 m0 d).
Proof.
  intros Hin Hk.
  destruct (dict_set_spec k0 m0 d)
    as [(d1 & k' & v' & d2 & -> & -> & Hk' & Hd1)|[-> Hall]].
  - rewrite in_app_iff in *. simpl in *.
    destruct Hin as [Hin|[Heq|Hin]]; auto.
    injection Heq as -> ->. congruence.
  - apply in_app_iff. now left.
Qed.

Lemma dict_set_new (k0 m0 : json) (d : list (json * json)) :
  key_eqb k0 k0 = true ->
  exists k, In (k, m0) (dict_set k0 m0 d) /\ key_eqb k k0 = true.
Proof.
  intros Hrefl.
  destruct (dict_set_spec k0 m0 d)
    as [(d1 & k' & v' & d2 & -> & -> & Hk' & Hd1)|[-> Hall]].
  - exists k'. split; [|assumption]. apply in_app_iff. right. now left.
  - exists k0. split; [|assumption]. apply in_app_iff. right. now left.
Qed.

(** The markets of a comprehension that returns all have hashable ids,
    and the dict is the one that inserting them one by one gives. *)
Lemma comprehension_fold (ms : list json) : forall d d',
  comprehension ms d = Ok d' ->
  d' = fold_left insert_market ms d
  /\ Forall (fun m => forall k, id_of m = Some k -> key_eqb k k = true) ms.
Proof.
  induction ms as [|m rest IH]; intros d d' H; simpl in H.
  - injection H as <-. split; [reflexivity|constructor].
  - destruct (id_if_present m) as [[k|]|e] eqn:E; simpl in H;
      try discriminate.
    + destruct (hashable k) as [[]|e] eqn:Eh; simpl in H; try discriminate.
      destruct m; simpl in E; try discriminate;
        try (destruct (existsb _ _); discriminate);
        try (destruct (contains _ _); discriminate).
      injection E as E.
      destruct (IH _ _ H) as [-> Hall]. split.
      * simpl. f_equal. unfold insert_market, id_of. now rewrite E.
      * constructor; [|assumption]. unfold id_of. intros k' Hk'.
        rewrite E in Hk'. injection Hk' as <-. now apply key_eqb_refl.
    + assert (id_of m = None) as Hid.
      { destruct m; simpl in E |- *; try reflexivity; try discriminate.
        now injection E. }
      destruct (IH _ _ H) as [-> Hall]. split.
      * simpl. f_equal. unfold insert_market. now rewrite Hid.
      * constructor; [|assumption]. intros k' Hk'. congruence.
Qed.

(** Markets that are objects with scalar ids make the comprehension
    return. *)
Lemma comprehension_returns (ms : list json) : forall d,
  Forall (fun m => scalar_id m = true) ms ->
  exists d', comprehension ms d = Ok d'.
Proof.
  induction ms as [|m rest IH]; intros d H; simpl.
  - now exists d.
  - inversion H as [|? ? Hm Hrest]; subst.
    destruct m; simpl in Hm; try discriminate. simpl.
    destruct (lookup "id" fields) as [[]|]; simpl; try discriminate;
      now apply IH.
Qed.

Lemma insert_market_distinct (d : list (json * json)) (m : json) :
  distinct_keys d -> distinct_keys (insert_market d m).
Proof.
  intros Hd. unfold insert_market. destruct (id_of m); [|assumption].
  now apply dict_set_distinct.
Qed.

Lemma fold_distinct (ms : list json) : forall d,
  distinct_keys d -> distinct_keys (fold_left insert_market ms d).
Proof.
  induction ms as [|m rest IH]; intros d Hd; simpl; [assumption|].
  apply IH. now apply insert_market_distinct.
Qed.

Lemma other_id_equal (k k1 : json) (ms : list json) :
  key_eqb k k1 = true -> Forall (other_id k) ms -> Forall (other_id k1) ms.
Proof.
  intros Hk. apply Forall_impl. intros m Hm k' Hk'.
  specialize (Hm k' Hk'). rewrite key_eqb_sym in Hm |- *.
  apply key_eqb_apart with k; [assumption|].
  assumption.
Qed.

(** An entry of the dict after the markets [ms]: of the last market with
    its id in [ms], or an entry there before whose key no market of [ms]
    has. *)
Lemma fold_in_elim (ms : list json) : forall d k m,
  distinct_keys d ->
  Forall (fun m => forall k, id_of m = Some k -> key_eqb k k = true) ms ->
  In (k, m) (fold_left insert_market ms d) ->
  (exists pre post k1,
      ms = pre ++ m :: post /\ id_of m = Some k1 /\ key_eqb k k1 = true
      /\ Forall (other_id k1) post)
  \/ (In (k, m) d /\ Forall (other_id k) ms).
Proof.
  induction ms as [|m0 rest IH]; intros d k m Hd Hrefl Hin; simpl in Hin.
  - right. split; [assumption|constructor].
  - inversion Hrefl as [|? ? Hr0 Hrest]; subst.
    destruct (IH _ k m (insert_market_distinct d m0 Hd) Hrest Hin)
      as [(pre & post & k1 & -> & Hid & Hk & Hpost)|[Hin' Hother]].
    + left. exists (m0 :: pre), post, k1. now repeat split.
    + unfold insert_market in Hin'. destruct (id_of m0) as [k0|] eqn:Hid0.
      * apply dict_set_in_elim in Hin'; [|assumption|now apply Hr0].
        destruct Hin' as [[-> Hk]|[Hin' Hk]].
        -- left. exists [], rest, k0. repeat split; try assumption.
           now apply other_id_equal with k.
        -- right. split; [assumption|]. constructor; [|assumption].
           intros k' Hk'. congruence.
      * right. split; [assumption|]. constructor; [|assumption].
        intros k' Hk'. congruence.
Qed.

Lemma fold_in_old (ms : list json) : forall d k m,
  In (k, m) d -> Forall (other_id k) ms ->
  In (k, m) (fold_left insert_market ms d).
Proof.
  induction ms as [|m0 rest IH]; intros d k m Hin Hother; simpl;
    [assumption|].
  inversion Hother as [|? ? H0 Hrest]; subst.
  apply IH; [|assumption]. unfold insert_market.
  destruct (id_of m0) as [k0|] eqn:Hid0; [|assumption].
  apply dict_set_keeps; [assumption|]. now apply H0.
Qed.

Lemma fold_in_new (pre post : list json) (m k1 : json) (d : list (json * json)) :
  id_of m = Some k1 -> key_eqb k1 k1 = true -> Forall (other_id k1) post ->
  exists k, In (k, m) (fold_left insert_market (pre ++ m :: post) d).
Proof.
  intros Hid Hrefl Hpost. rewrite fold_left_app. simpl.
  unfold insert_market at 2. rewrite Hid.
  destruct (dict_set_new k1 m (fold_left insert_market pre d) Hrefl)
    as (k & Hin & Hk).
  exists k. apply fold_in_old; [assumption|].
  apply other_id_equal with k1; [|assumption].
  now rewrite key_eqb_sym.
Qed.

(** Every entry of the dict holds a market under a key that is its id. *)
Lemma fold_keyed (ms : list json) : forall d,
  Forall (fun m => forall k, id_of m = Some k -> key_eqb k k = true) ms ->
  Forall (fun kv => exists k', id_of (snd kv) = Some k'
                               /\ key_eqb (fst kv) k' = true) d ->
  Forall (fun kv => exists k', id_of (snd kv) = Some k'
                               /\ key_eqb (fst kv) k' = true)
    (fold_left insert_market ms d).
Proof.
  induction ms as [|m0 rest IH]; intros d Hrefl Hd; simpl; [assumption|].
  inversion Hrefl as [|? ? Hr0 Hrest]; subst.
  apply IH; [assumption|]. unfold insert_market.
  destruct (id_of m0) as [k0|] eqn:Hid0; [|assumption].
  destruct (dict_set_spec k0 m0 d)
    as [(d1 & k' & v' & d2 & -> & -> & Hk' & Hd1)|[-> Hall]].
  - rewrite Forall_app in Hd |- *. destruct Hd as [H1 H2].
    split; [assumption|]. inversion H2; subst.
    constructor; [|assumption]. exists k0. now split.
  - apply Forall_app. split; [assumption|].
    constructor; [|constructor]. exists k0. split; [assumption|].
    now apply Hr0.
Qed.

Lemma values_different (d : list (json * json)) :
  distinct_keys d ->
  Forall (fun kv => exists k', id_of (snd kv) = Some k'
                               /\ key_eqb (fst kv) k' = true) d ->
  ForallOrdPairs different_ids (map snd d).
Proof.
  unfold distinct_keys. induction d as [|[k m] rest IH]; intros Hd Hk; simpl.
  - constructor.
  - inversion Hd as [|? ? Hx Hrest]; subst.
    inversion Hk as [|? ? (k1 & Hid & Hk1) Hkrest]; subst.
    constructor; [|now apply IH].
    apply Forall_forall. intros b Hb. apply in_map_iff in Hb.
    destruct Hb as ([kb mb] & <- & Hb).
    rewrite Forall_forall in Hx, Hkrest.
    destruct (Hkrest _ Hb) as (k2 & Hid2 & Hk2). specialize (Hx _ Hb).
    simpl in *. exists k1, k2. repeat split; try assumption.
    apply key_eqb_apart with kb; [|assumption].
    rewrite key_eqb_sym.
    apply key_eqb_apart with k; [|assumption].
    now rewrite key_eqb_sym.
Qed.

(** X22: when the de-duplication of the main script returns, its result
    holds exactly the markets with an id after which no market with the
    same id is listed: of the versions of a market the last one fetched,
    so the closed listing's over the open listing's. *)
Theorem dedup_keeps_last (open_mk closed_mk out : list json) :
  dedup_by_id open_mk closed_mk = Ok out ->
  forall m,
    In m out <->
    exists pre post k,
      open_mk ++ closed_mk = pre ++ m :: post
      /\ id_of m = Some k
      /\ Forall (other_id k) post.
Proof.
  unfold dedup_by_id. intros H m.
  destruct (comprehension (open_mk ++ closed_mk) []) as [d|e] eqn:E;
    simpl in H; [|discriminate].
  injection H as <-.
  destruct (comprehension_fold _ _ _ E) as [-> Hrefl]. split.
  - intros Hin. apply in_map_iff in Hin. destruct Hin as ([k m'] & Hm & Hin).
    simpl in Hm. subst m'.
    apply fold_in_elim in Hin; [|constructor|assumption].
    destruct Hin as [(pre & post & k1 & Heq & Hid & _ & Hpost)|[[] _]].
    now exists pre, post, k1.
  - intros (pre & post & k & Heq & Hid & Hpost). rewrite Heq in Hrefl |- *.
    assert (key_eqb k k = true) as Hk.
    { apply Forall_app in Hrefl. destruct Hrefl as [_ Hr].
      inversion Hr; subst. auto. }
    destruct (fold_in_new pre post m k [] Hid Hk Hpost) as (k' & Hin).
    apply in_map_iff. now exists (k', m).
Qed.

Lemma dedup_keeps_last_witness :
  dedup_by_id [listed "7" false; listed "8" false]
              [listed "7" true; JObj [("slug", JStr "no-id")]]
  = Ok [listed "7" true; listed "8" false]
  /\ (In (listed "7" true) [listed "7" true; listed "8" false] <->
      exists pre post k,
        [listed "7" false; listed "8" false]
          ++ [listed "7" true; JObj [("slug", JStr "no-id")]]
        = pre ++ listed "7" true :: post
        /\ id_of (listed "7" true) = Some k
        /\ Forall (other_id k) post).
Proof.
  split; [reflexivity|].
  apply (dedup_keeps_last [listed "7" false; listed "8" false]
           [listed "7" true; JObj [("slug", JStr "no-id")]]
           [listed "7" true; listed "8" false]).
  reflexivity.
Defined.

(** X23: on listings of objects whose ids, where they have one, are
    neither lists nor objects, the de-duplication returns, and any two
    markets of its result have ids, and different ones. *)
Theorem dedup_distinct (open_mk closed_mk : list json) :
  Forall (fun m => scalar_id m = true) (open_mk ++ closed_mk) ->
  exists out,
    dedup_by_id open_mk closed_mk = Ok out
    /\ ForallOrdPairs different_ids out.
Proof.
  intros H. unfold dedup_by_id.
  destruct (comprehension_returns _ [] H) as (d & E). rewrite E. simpl.
  exists (map snd d). split; [reflexivity|].
  destruct (comprehension_fold _ _ _ E) as [-> Hrefl].
  apply values_different.
  - apply fold_distinct. constructor.
  - apply fold_keyed; [assumption|constructor].
Qed.

Lemma dedup_distinct_witness :
  exists out,
    dedup_by_id [listed "7" false; JObj [("id", JNum 8)]]
                [JObj [("id", JBool true)]; listed "7" true;
                 JObj [("id", JNum 1)]]
    = Ok out
    /\ ForallOrdPairs different_ids out.
Proof.
  apply (dedup_distinct [listed "7" false; JObj [("id", JNum 8)]]
           [JObj [("id", JBool true)]; listed "7" true;
            JObj [("id", JNum 1)]]).
  repeat constructor.
Defined.

End DedupFacts.
